(** * CuTest: a shallow embedding of the test execution and aggregation engine

    The development follows [src/CuTest.h] and [src/CuTest.c].  Test case
    objects are statically allocated and reached through pointers, so they
    live in a store indexed by address; groups and modules are never written
    to by the framework and are carried by value.  Functions that print,
    write files, run test functions or escape with [longjmp] are computations
    in a state monad with three outcomes. *)

From Stdlib Require Import Floats.
From Stdlib Require Import ZArith NArith String Ascii Lia.
From Stdlib.Strings Require Import Byte.
From stdpp Require Import base option list gmap strings.

Local Open Scope string_scope.

(** ** Common definitions (CuTest.h) *)

Definition CUTEST_MAX_LEN_MESSAGE : nat := 256.
Definition CUTEST_MAX_NUM_CASES : nat := 256.
Definition CUTEST_MAX_NUM_GROUPS : nat := 128.
Definition CUTEST_MAX_NUM_ROOT_ITEM : nat := 32.
Definition CUTEST_VERSION : string := "unknown".
Definition CUTEST_TIMESTAMP_MAX_LEN : nat := 24.
Definition CUTEST_SUMMARY_CHR_PASSED : ascii := "."%char.
Definition CUTEST_SUMMARY_CHR_FAILED : ascii := "F"%char.
Definition CUTEST_SUMMARY_CHR_INVALID : ascii := "?"%char.
Definition EXIT_SUCCESS : Z := 0.
Definition EXIT_FAILURE : Z := 1.

(** ** Machine integers and the C library's formatting

    The header targets 32-bit MCU architectures: [unsigned long], [long],
    [int] and [size_t] are 32 bits wide. *)

Definition ULONG_BITS : Z := 32.
Definition ULONG_MOD : Z := 2 ^ ULONG_BITS.

(** Value of an [unsigned long] expression: reduction modulo 2^32. *)
Definition ulong (z : Z) : Z := z mod ULONG_MOD.

(** [a += b] on [unsigned long]. *)
Definition ul_add (a b : Z) : Z := ulong (a + b).

(** The same 32 bits read as a [long], as [%ld] and [%d] do. *)
Definition as_long (z : Z) : Z :=
  let u := ulong z in
  if (u <? 2 ^ (ULONG_BITS - 1))%Z then u else (u - ULONG_MOD)%Z.

Definition digit_char (d : N) : ascii := ascii_of_N (48 + d).

(** Decimal digits of [n], most significant first; ten digits cover every
    32-bit value. *)
Fixpoint dec_digits (fuel : nat) (n : N) (acc : string) : string :=
  match fuel with
  | O => acc
  | S fuel' =>
      let acc' := String (digit_char (n mod 10)) acc in
      if (n / 10 =? 0)%N then acc' else dec_digits fuel' (n / 10) acc'
  end.

Definition fmt_lu (n : N) : string := dec_digits 10 n "".

(** [%ld] (and [%d]) applied to a 32-bit argument. *)
Definition fmt_ld (z : Z) : string :=
  let v := as_long z in
  if (v <? 0)%Z then "-" +:+ fmt_lu (Z.to_N (- v)) else fmt_lu (Z.to_N v).

Definition hex_char (d : N) : ascii :=
  if (d <? 10)%N then ascii_of_N (48 + d) else ascii_of_N (55 + d).

(** [%02X] applied to a byte converted to [unsigned]. *)
Definition fmt_02X (b : byte) : string :=
  let n := Byte.to_N b in
  String (hex_char (n / 16)) (String (hex_char (n mod 16)) "").

(** The characters a [const char*] designates: those before the first NUL. *)
Fixpoint c_str (s : string) : string :=
  match s with
  | "" => ""
  | String c s' => if Ascii.eqb c Ascii.zero then "" else String c (c_str s')
  end.

Fixpoint string_take (n : nat) (s : string) : string :=
  match n, s with
  | S n', String c s' => String c (string_take n' s')
  | _, _ => ""
  end.

(** [snprintf(buf, size, ...)] leaves in [buf] the first [size - 1]
    characters of the formatted text. *)
Definition snprintf (size : nat) (formatted : string) : string :=
  string_take (size - 1) formatted.

(** The numbers that a string of decimal digits and a string of upper-case
    hexadecimal digits denote, for reading the formatted text back. *)
Definition digit_value (c : ascii) : N := N_of_ascii c - 48.

Definition hex_value (c : ascii) : N :=
  if (N_of_ascii c <? 65)%N then N_of_ascii c - 48 else N_of_ascii c - 55.

Fixpoint read_digits (value : ascii → N) (base acc : N) (s : string) : N :=
  match s with
  | "" => acc
  | String c s' => read_digits value base (base * acc + value c) s'
  end.

(** ** Type definitions (CuTest.h) *)

(** Address of a statically allocated [cutest_case_t]. *)
Definition addr := positive.

(** Address of a test function in the program text. *)
Definition fn_ptr := positive.

Inductive cutest_result_t :=
  | EN_CUTEST_RESULT_UNDEF
  | EN_CUTEST_RESULT_PASS
  | EN_CUTEST_RESULT_FAIL.

#[global] Instance cutest_result_eq_dec : EqDecision cutest_result_t.
Proof. solve_decision. Defined.

(** [struct tag_cutest_case_t]; the [jmp_buf] is represented by the case's
    own address in the [LongJmp] outcome below.  [None] is a NULL function
    pointer; [acMessage] holds the buffer's text up to its terminator. *)
Record cutest_case_t := {
  pszName : string;
  pszFile : string;
  ulLine : Z;
  pfvTestFn : option fn_ptr;
  eResult : cutest_result_t;
  acMessage : string;
  pszMsgFile : string;
  ulMsgLine : Z;
  bPrintResult : bool
}.

(** [struct tag_cutest_group_t].  [group_ppItems] is the initialiser list of
    the [CUTEST_MAX_NUM_CASES]-element array the [TEST_GROUP] macro defines:
    [None] is a NULL slot, and the slots past the end of the list are the
    zero-filled (NULL) remainder of the static array. *)
Record cutest_group_t := {
  group_pszName : string;
  group_pszFile : string;
  group_ulLine : Z;
  group_ppItems : list (option addr)
}.

(** [struct tag_cutest_module_t], with the same convention for the
    [CUTEST_MAX_NUM_GROUPS]-element array. *)
Record cutest_module_t := {
  module_pszName : string;
  module_pszFile : string;
  module_ulLine : Z;
  module_ppItems : list (option cutest_group_t)
}.

Inductive cutest_type_t :=
  | EN_CUTEST_TYPE_CASE
  | EN_CUTEST_TYPE_GROUP
  | EN_CUTEST_TYPE_MODULE.

(** [struct tag_cutest_relem_t]: the tag together with the union member it
    selects; [None] is a NULL [pItem]. *)
Inductive cutest_relem_t :=
  | RCase (psCase : option addr)
  | RGroup (psGroup : option cutest_group_t)
  | RModule (psModule : option cutest_module_t).

Definition eType (e : cutest_relem_t) : cutest_type_t :=
  match e with
  | RCase _ => EN_CUTEST_TYPE_CASE
  | RGroup _ => EN_CUTEST_TYPE_GROUP
  | RModule _ => EN_CUTEST_TYPE_MODULE
  end.

(** [psItem->pItem != NULL] *)
Definition pItem_set (e : cutest_relem_t) : bool :=
  match e with
  | RCase p => bool_decide (is_Some p)
  | RGroup g => match g with Some _ => true | None => false end
  | RModule m => match m with Some _ => true | None => false end
  end.

(** [struct tag_cutest_root_t]; [asItems] is the array of
    [CUTEST_MAX_NUM_ROOT_ITEM] elements. *)
Record cutest_root_t := {
  root_pszName : string;
  ulCount : nat;
  asItems : list cutest_relem_t
}.

(** [cutest_stats_t] (CuTest.c) *)
Record cutest_stats_t := {
  ulTotal : Z;
  ulPassed : Z;
  ulFailed : Z
}.

(** Slot [i] of a statically allocated pointer array given by its
    initialiser list. *)
Definition slot {A} (items : list (option A)) (i : nat) : option A :=
  default None (items !! i).

(** ** The machine and its computations *)

(** What the framework reads and writes: the case objects, standard output,
    the files of the file system with the paths that [fopen] cannot open for
    writing, and the static timestamp buffer of CuTest.c. *)
Record machine := {
  cases : gmap addr cutest_case_t;
  stdout : string;
  files : gmap string string;
  unwritable : gset string;
  acTimestampBuffer : string
}.

(** A call returns, leaves through [longjmp] to the context saved in the
    case at [env], or stops the process ([assert] failure, or a dereference
    of a pointer to no object). *)
Inductive outcome (A : Type) :=
  | Ret (a : A)
  | LongJmp (env : addr)
  | Abort.
Arguments Ret {A} a.
Arguments LongJmp {A} env.
Arguments Abort {A}.

Definition M (A : Type) : Type := machine → outcome A * machine.

#[global] Instance M_ret : MRet M := λ A a s, (Ret a, s).

#[global] Instance M_bind : MBind M := λ A B k m s,
  match m s with
  | (Ret a, s') => k a s'
  | (LongJmp env, s') => (LongJmp env, s')
  | (Abort, s') => (Abort, s')
  end.

Definition abort {A} : M A := λ s, (Abort, s).

Definition assert (b : bool) : M unit := if b then mret tt else abort.

Definition longjmp {A} (env : addr) : M A := λ s, (LongJmp env, s).

(** [if (setjmp(env) == 0) body;]: the first arrival runs [body]; a
    [longjmp] to [env] from inside it resumes after the statement. *)
Definition setjmp (env : addr) (body : M unit) : M unit := λ s,
  match body s with
  | (LongJmp e, s') => if decide (e = env) then (Ret tt, s') else (LongJmp e, s')
  | r => r
  end.

Definition set_cases (h : gmap addr cutest_case_t) (s : machine) : machine :=
  {| cases := h; stdout := stdout s; files := files s;
     unwritable := unwritable s; acTimestampBuffer := acTimestampBuffer s |}.

Definition set_stdout (o : string) (s : machine) : machine :=
  {| cases := cases s; stdout := o; files := files s;
     unwritable := unwritable s; acTimestampBuffer := acTimestampBuffer s |}.

Definition set_files (fs : gmap string string) (s : machine) : machine :=
  {| cases := cases s; stdout := stdout s; files := fs;
     unwritable := unwritable s; acTimestampBuffer := acTimestampBuffer s |}.

Definition set_acTimestampBuffer (b : string) (s : machine) : machine :=
  {| cases := cases s; stdout := stdout s; files := files s;
     unwritable := unwritable s; acTimestampBuffer := b |}.

(** [*p] for a case pointer. *)
Definition deref (p : addr) : M cutest_case_t := λ s,
  match cases s !! p with
  | Some c => (Ret c, s)
  | None => (Abort, s)
  end.

(** [p->field = v], given as the update of the object. *)
Definition modify (p : addr) (f : cutest_case_t → cutest_case_t) : M unit := λ s,
  match cases s !! p with
  | Some c => (Ret tt, set_cases (<[p := f c]> (cases s)) s)
  | None => (Abort, s)
  end.

Definition printf (formatted : string) : M unit := λ s,
  (Ret tt, set_stdout (stdout s +:+ formatted) s).

Definition putchar (c : ascii) : M unit := printf (String c "").

(** [fopen(path, "w")]: NULL when the path cannot be opened, otherwise the
    file is created or truncated; an open file is named by its path. *)
Definition fopen_w (path : string) : M (option string) := λ s,
  if decide (path ∈ unwritable s) then (Ret None, s)
  else (Ret (Some path), set_files (<[path := ""]> (files s)) s).

Definition fprintf (f : string) (formatted : string) : M unit := λ s,
  (Ret tt, set_files (<[f := default "" (files s !! f) +:+ formatted]> (files s)) s).

Definition fclose (f : string) : M unit := mret tt.

(** [for (unsigned long i = i0; i < i0 + n; ++i) body], with the local
    variables the body updates passed along; the body answers [false] when it
    leaves through [break]. *)
Fixpoint for_loop {A} (n i : nat) (body : nat → A → M (bool * A)) (a : A) : M A :=
  match n with
  | O => mret a
  | S n' =>
      body i a ≫= λ r : bool * A,
        if r.1 then for_loop n' (S i) body r.2 else mret r.2
  end.

(** The same loop for the functions that only read the case objects. *)
Fixpoint for_acc {A} (n i : nat) (body : nat → A → option A) (a : A) : option A :=
  match n with
  | O => Some a
  | S n' => a' ← body i a; for_acc n' (S i) body a'
  end.

Definition set_eResult (r : cutest_result_t) (c : cutest_case_t) : cutest_case_t :=
  {| pszName := pszName c; pszFile := pszFile c; ulLine := ulLine c;
     pfvTestFn := pfvTestFn c; eResult := r; acMessage := acMessage c;
     pszMsgFile := pszMsgFile c; ulMsgLine := ulMsgLine c;
     bPrintResult := bPrintResult c |}.

Definition set_acMessage (m : string) (c : cutest_case_t) : cutest_case_t :=
  {| pszName := pszName c; pszFile := pszFile c; ulLine := ulLine c;
     pfvTestFn := pfvTestFn c; eResult := eResult c; acMessage := m;
     pszMsgFile := pszMsgFile c; ulMsgLine := ulMsgLine c;
     bPrintResult := bPrintResult c |}.

Definition set_pszMsgFile (f : string) (c : cutest_case_t) : cutest_case_t :=
  {| pszName := pszName c; pszFile := pszFile c; ulLine := ulLine c;
     pfvTestFn := pfvTestFn c; eResult := eResult c; acMessage := acMessage c;
     pszMsgFile := f; ulMsgLine := ulMsgLine c;
     bPrintResult := bPrintResult c |}.

Definition set_ulMsgLine (l : Z) (c : cutest_case_t) : cutest_case_t :=
  {| pszName := pszName c; pszFile := pszFile c; ulLine := ulLine c;
     pfvTestFn := pfvTestFn c; eResult := eResult c; acMessage := acMessage c;
     pszMsgFile := pszMsgFile c; ulMsgLine := l;
     bPrintResult := bPrintResult c |}.

(** ** Local functions (CuTest.c) *)

(** Assign 'passed' state and continue. *)
Definition CuTestAssertPassed (psTc : addr) : M unit :=
  modify psTc (set_eResult EN_CUTEST_RESULT_PASS).

(** Assign 'failed' state and exit by means of [longjmp]. *)
Definition CuTestAssertFailed {A} (psTc : addr) : M A :=
  modify psTc (set_eResult EN_CUTEST_RESULT_FAIL);;
  longjmp psTc.

(** *** Statistics *)

Definition stats_zero : cutest_stats_t :=
  {| ulTotal := 0; ulPassed := 0; ulFailed := 0 |}.

(** The three [+=] of the aggregation loops. *)
Definition stats_add (sAcc sItem : cutest_stats_t) : cutest_stats_t :=
  {| ulTotal := ul_add (ulTotal sAcc) (ulTotal sItem);
     ulPassed := ul_add (ulPassed sAcc) (ulPassed sItem);
     ulFailed := ul_add (ulFailed sAcc) (ulFailed sItem) |}.

Definition CuTestGetStats_Case (h : gmap addr cutest_case_t) (psCase : addr)
  : option cutest_stats_t :=
  c ← h !! psCase;
  Some {| ulTotal := 1;
          ulFailed := if decide (eResult c = EN_CUTEST_RESULT_FAIL) then 1 else 0;
          ulPassed := if decide (eResult c = EN_CUTEST_RESULT_PASS) then 1 else 0 |}.

Definition CuTestGetStats_Group (h : gmap addr cutest_case_t) (psGroup : cutest_group_t)
  : option cutest_stats_t :=
  for_acc CUTEST_MAX_NUM_CASES 0 (λ i sGroup,
    match slot (group_ppItems psGroup) i with
    | Some psCase =>
        sCase ← CuTestGetStats_Case h psCase;
        Some (stats_add sGroup sCase)
    | None => Some sGroup
    end) stats_zero.

Definition CuTestGetStats_Module (h : gmap addr cutest_case_t) (psModule : cutest_module_t)
  : option cutest_stats_t :=
  for_acc CUTEST_MAX_NUM_GROUPS 0 (λ i sModule,
    match slot (module_ppItems psModule) i with
    | Some psGroup =>
        sGroup ← CuTestGetStats_Group h psGroup;
        Some (stats_add sModule sGroup)
    | None => Some sModule
    end) stats_zero.

Definition CuTestGetStats (h : gmap addr cutest_case_t) (psRoot : cutest_root_t)
  : option cutest_stats_t :=
  guard (ulCount psRoot < CUTEST_MAX_NUM_ROOT_ITEM);;
  for_acc (ulCount psRoot) 0 (λ i sRun,
    psItem ← asItems psRoot !! i;
    sItem ← match psItem with
            | RCase (Some psCase) => CuTestGetStats_Case h psCase
            | RGroup (Some psGroup) => CuTestGetStats_Group h psGroup
            | RModule (Some psModule) => CuTestGetStats_Module h psModule
            | _ => Some stats_zero
            end;
    Some (stats_add sRun sItem)) stats_zero.

(** Characters that string literals cannot hold. *)
Definition LF : string := String (ascii_of_nat 10) "".
Definition CR : string := String (ascii_of_nat 13) "".
Definition TAB : string := String (ascii_of_nat 9) "".
Definition DQ : string := String (ascii_of_nat 34) "".

(** A function that only reads the case objects, called from a computation. *)
Definition read_cases {A} (f : gmap addr cutest_case_t → option A) : M A := λ s,
  match f (cases s) with
  | Some a => (Ret a, s)
  | None => (Abort, s)
  end.

(** [asItems[i]] of a root; an index outside the array stops the model. *)
Definition root_item (psRoot : cutest_root_t) (i : nat) : M cutest_relem_t := λ s,
  match asItems psRoot !! i with
  | Some e => (Ret e, s)
  | None => (Abort, s)
  end.

(** *** Console summary *)

Definition CuTestPrintSummaryTape_Case (psCase : addr) : M unit :=
  c ← deref psCase;
  match eResult c with
  | EN_CUTEST_RESULT_PASS => putchar CUTEST_SUMMARY_CHR_PASSED
  | EN_CUTEST_RESULT_FAIL => putchar CUTEST_SUMMARY_CHR_FAILED
  | _ => putchar CUTEST_SUMMARY_CHR_INVALID
  end.

Definition CuTestPrintSummaryTape_Group (psGroup : cutest_group_t) : M unit :=
  for_loop CUTEST_MAX_NUM_CASES 0 (λ i _,
    match slot (group_ppItems psGroup) i with
    | Some psCase => CuTestPrintSummaryTape_Case psCase;; mret (true, tt)
    | None => mret (false, tt)
    end) tt.

Definition CuTestPrintSummaryTape_Module (psModule : cutest_module_t) : M unit :=
  for_loop CUTEST_MAX_NUM_GROUPS 0 (λ i _,
    match slot (module_ppItems psModule) i with
    | Some psGroup => CuTestPrintSummaryTape_Group psGroup;; mret (true, tt)
    | None => mret (false, tt)
    end) tt.

Definition CuTestPrintSummary (psRoot : cutest_root_t) : M unit :=
  assert (bool_decide (ulCount psRoot < CUTEST_MAX_NUM_ROOT_ITEM));;
  printf ("Summary (" +:+ String CUTEST_SUMMARY_CHR_FAILED "=fail, "
          +:+ String CUTEST_SUMMARY_CHR_PASSED "=pass, "
          +:+ String CUTEST_SUMMARY_CHR_INVALID "=invalid):" +:+ LF +:+ TAB);;
  for_loop (ulCount psRoot) 0 (λ i _,
    psItem ← root_item psRoot i;
    match psItem with
    | RCase (Some psCase) => CuTestPrintSummaryTape_Case psCase;; mret (true, tt)
    | RGroup (Some psGroup) => CuTestPrintSummaryTape_Group psGroup;; mret (true, tt)
    | RModule (Some psModule) => CuTestPrintSummaryTape_Module psModule;; mret (true, tt)
    | _ => mret (false, tt)
    end) tt;;
  printf (CR +:+ LF).

(** *** Console details; [*pulNum] is passed in and handed back. *)

Definition CuTestPrintDetails_Case (ulNum : Z) (psCase : addr) : M Z :=
  c ← deref psCase;
  match eResult c with
  | EN_CUTEST_RESULT_FAIL =>
      let ulNum := ul_add ulNum 1 in
      printf (TAB +:+ fmt_ld ulNum +:+ ") " +:+ c_str (pszName c) +:+ " -- "
              +:+ c_str (pszMsgFile c) +:+ ":" +:+ fmt_ld (ulMsgLine c) +:+ ": "
              +:+ c_str (acMessage c) +:+ LF);;
      mret ulNum
  | EN_CUTEST_RESULT_UNDEF =>
      let ulNum := ul_add ulNum 1 in
      printf (TAB +:+ fmt_ld ulNum +:+ ") " +:+ c_str (pszName c) +:+ " -- "
              +:+ c_str (pszFile c) +:+ ":" +:+ fmt_ld (ulLine c)
              +:+ ": not evaluated" +:+ LF);;
      mret ulNum
  | _ => mret ulNum
  end.

Definition CuTestPrintDetails_Group (ulNum : Z) (psGroup : cutest_group_t) : M Z :=
  for_loop CUTEST_MAX_NUM_CASES 0 (λ i ulNum,
    match slot (group_ppItems psGroup) i with
    | Some psCase => ulNum ← CuTestPrintDetails_Case ulNum psCase; mret (true, ulNum)
    | None => mret (true, ulNum)
    end) ulNum.

Definition CuTestPrintDetails_Module (ulNum : Z) (psModule : cutest_module_t) : M Z :=
  for_loop CUTEST_MAX_NUM_GROUPS 0 (λ i ulNum,
    match slot (module_ppItems psModule) i with
    | Some psGroup => ulNum ← CuTestPrintDetails_Group ulNum psGroup; mret (true, ulNum)
    | None => mret (true, ulNum)
    end) ulNum.

Definition CuTestPrintDetails (psRoot : cutest_root_t) : M unit :=
  assert (bool_decide (ulCount psRoot < CUTEST_MAX_NUM_ROOT_ITEM));;
  sStats ← read_cases (λ h, CuTestGetStats h psRoot);
  (if decide (ulPassed sStats = ulTotal sStats) then
     printf (LF +:+ "Result:" +:+ LF +:+ TAB +:+ "PASS")
   else
     let ulInvalid := ulong (ulTotal sStats - ulPassed sStats - ulFailed sStats) in
     printf (LF +:+ "Details (" +:+ fmt_ld (ulFailed sStats) +:+ " fails, "
             +:+ fmt_ld ulInvalid +:+ " invalid):" +:+ LF);;
     for_loop (ulCount psRoot) 0 (λ i ulNum,
       psItem ← root_item psRoot i;
       match psItem with
       | RCase (Some psCase) =>
           ulNum ← CuTestPrintDetails_Case ulNum psCase; mret (true, ulNum)
       | RGroup (Some psGroup) =>
           ulNum ← CuTestPrintDetails_Group ulNum psGroup; mret (true, ulNum)
       | RModule (Some psModule) =>
           ulNum ← CuTestPrintDetails_Module ulNum psModule; mret (true, ulNum)
       | _ => mret (true, ulNum)
       end) 0%Z;;
     printf (LF +:+ "Result:" +:+ LF +:+ TAB +:+ "FAIL"));;
  printf (" (" +:+ fmt_ld (ulTotal sStats) +:+ " runs, " +:+ fmt_ld (ulPassed sStats)
          +:+ " passes, " +:+ fmt_ld (ulFailed sStats) +:+ " fails)" +:+ LF).

(** *** HTML report *)

Definition CuTestGenerateReport_CaseHeader (f : string) : M unit :=
  fprintf f ("<table border=" +:+ DQ +:+ "1" +:+ DQ
             +:+ "><tr><th>Nr.</th><th>Name</th><th>File</th><th>Result</th><th>Message</th></tr>").

Definition CuTestGenerateReport_CaseLine (f : string) (ulNum : Z) (psCase : addr) : M Z :=
  c ← deref psCase;
  let ulNum := ul_add ulNum 1 in
  let '(pszColor, pszResult, bPrintMsg) :=
    match eResult c with
    | EN_CUTEST_RESULT_PASS => ("lime", "pass", false)
    | EN_CUTEST_RESULT_FAIL => ("red", "fail", true)
    | _ => ("silver", "invalid", false)
    end in
  let file := if bPrintMsg then pszMsgFile c else pszFile c in
  let line := if bPrintMsg then ulMsgLine c else ulLine c in
  let pszMessage := if bPrintMsg then acMessage c else "" in
  fprintf f ("<tr><td>" +:+ fmt_ld ulNum +:+ "</td><td>" +:+ c_str (pszName c)
             +:+ "</td><td><a href=" +:+ DQ +:+ c_str file +:+ "#L" +:+ fmt_ld line +:+ DQ
             +:+ ">" +:+ c_str file +:+ "#L" +:+ fmt_ld line
             +:+ "</a></td><td style=" +:+ DQ +:+ "background-color: " +:+ pszColor +:+ DQ
             +:+ ">" +:+ pszResult +:+ "</td><td>" +:+ c_str pszMessage +:+ "</td></tr>");;
  mret ulNum.

Definition CuTestGenerateReport_CaseFooter (f : string) : M unit :=
  fprintf f "</table>".

Definition CuTestGenerateReport_Group (f : string) (ulNum : Z) (psGroup : cutest_group_t)
  : M Z :=
  fprintf f ("<h3>" +:+ c_str (group_pszName psGroup) +:+ "</h3>");;
  CuTestGenerateReport_CaseHeader f;;
  ulNum ← for_loop CUTEST_MAX_NUM_CASES 0 (λ i ulNum,
    match slot (group_ppItems psGroup) i with
    | Some psCase => ulNum ← CuTestGenerateReport_CaseLine f ulNum psCase; mret (true, ulNum)
    | None => mret (true, ulNum)
    end) ulNum;
  CuTestGenerateReport_CaseFooter f;;
  mret ulNum.

Definition CuTestGenerateReport_Module (f : string) (ulNum : Z) (psModule : cutest_module_t)
  : M Z :=
  fprintf f ("<h2>" +:+ c_str (module_pszName psModule) +:+ "</h2>");;
  for_loop CUTEST_MAX_NUM_GROUPS 0 (λ i ulNum,
    match slot (module_ppItems psModule) i with
    | Some psGroup => ulNum ← CuTestGenerateReport_Group f ulNum psGroup; mret (true, ulNum)
    | None => mret (true, ulNum)
    end) ulNum.

#[global] Instance byte_eq_decision : EqDecision byte := Byte.byte_eq_dec.

(** ** The framework proper

    Three things come from outside CuTest.c: the program text the test
    function pointers designate, the C library's rendering of a [time_t]
    through [gmtime] and [strftime] with the format [%FT%T%z] ([None] when
    [gmtime] answers NULL), and its rendering of a [long double] by [%Lf]. *)

Section CuTest.

Context (text : fn_ptr → option (addr → M unit)).
Context (strftime_FTz : Z → option string).
Context (fmt_Lf : PrimFloat.float → string).

(** Helper function for generating ISO8601-formatted timestamp strings.
    [strftime] answers 0 when the text and its terminator do not fit the
    buffer, which the function then terminates at index 0. *)
Definition CuTestGetTimestampString (pTime : Z) : M string :=
  match strftime_FTz pTime with
  | None => abort
  | Some formatted =>
      let buffer :=
        if decide (String.length formatted < CUTEST_TIMESTAMP_MAX_LEN + 1)
        then formatted else "" in
      λ s, (Ret buffer, set_acTimestampBuffer buffer s)
  end.

(** *** Result evaluation functions *)

(** [(pszMessage != NULL) && (pszMessage[0] != '\0')] *)
Definition has_text (pszMessage : option string) : bool :=
  match pszMessage with
  | Some (String c _) => negb (Ascii.eqb c Ascii.zero)
  | _ => false
  end.

(** The three statements before [CuTestAssertFailed] in every evaluation
    function. *)
Definition record_failure (psTc : addr) (formatted pszFile : string) (ulLine : Z)
  : M unit :=
  modify psTc (set_acMessage (snprintf CUTEST_MAX_LEN_MESSAGE formatted));;
  modify psTc (set_pszMsgFile pszFile);;
  modify psTc (set_ulMsgLine ulLine).

(** Evaluate generic boolean condition. *)
Definition CuTest_EvalAssert (psTc : addr) (pszFile : string) (ulLine : Z)
    (bCondition : bool) (pszMessage : option string) : M unit :=
  deref psTc;;
  if bCondition then CuTestAssertPassed psTc
  else
    let formatted :=
      if has_text pszMessage then c_str (default "" pszMessage)
      else "assert failed." in
    record_failure psTc formatted pszFile ulLine;;
    CuTestAssertFailed psTc.

(** Evaluate long double-precision floating point numbers to be equal within
    the specified tolerance band.  [long double] is taken as IEEE 754
    binary64, its format on the 32-bit ARM targets. *)
Definition CuTest_EvalAssertFltEquals (psTc : addr) (pszFile : string) (ulLine : Z)
    (llfExpected llfActual llfTolerance : PrimFloat.float) : M unit :=
  deref psTc;;
  assert (negb (PrimFloat.is_nan llfTolerance));;
  let llfDeviation := PrimFloat.abs (PrimFloat.sub llfActual llfExpected) in
  if PrimFloat.ltb llfTolerance llfDeviation then
    record_failure psTc
      ("expected <" +:+ fmt_Lf llfExpected +:+ ">, but was <" +:+ fmt_Lf llfActual
       +:+ "> (Deviation <" +:+ fmt_Lf llfDeviation +:+ "> exceeds <"
       +:+ fmt_Lf llfTolerance +:+ ">)") pszFile ulLine;;
    CuTestAssertFailed psTc
  else CuTestAssertPassed psTc.

(** [*(const uint8_t* )(p + i)]; NULL or an offset outside the object stops
    the model. *)
Definition read_byte (p : option (list byte)) (i : nat) : M byte :=
  match p ≫= (.!! i) with
  | Some b => mret b
  | None => abort
  end.

(** Evaluate memory contents to be equal. *)
Definition CuTest_EvalAssertMemEquals (psTc : addr) (pszFile : string) (ulLine : Z)
    (pExpected pActual : option (list byte)) (uSize : nat) : M unit :=
  deref psTc;;
  assert (bool_decide (is_Some pExpected));;
  for_loop uSize 0 (λ i _,
    ucExpected ← read_byte pExpected i;
    ucActual ← read_byte pActual i;
    if decide (ucExpected ≠ ucActual) then
      record_failure psTc
        ("mismatch at offset <" +:+ fmt_ld (Z.of_nat i) +:+ ">: expected <0x"
         +:+ fmt_02X ucExpected +:+ ">, but was <0x" +:+ fmt_02X ucActual +:+ ">")
        pszFile ulLine;;
      CuTestAssertFailed psTc
    else mret (true, tt)) tt;;
  CuTestAssertPassed psTc.

(** *** Test run management *)

(** Append root entry for a new test run item; the root is handed back. *)
Definition CuTest_AppendRootItem (psRoot : cutest_root_t) (item : cutest_relem_t)
  : option cutest_root_t :=
  guard (pItem_set item = true);;
  guard (ulCount psRoot < CUTEST_MAX_NUM_ROOT_ITEM);;
  Some {| root_pszName := root_pszName psRoot;
          ulCount := S (ulCount psRoot);
          asItems := <[ulCount psRoot := item]> (asItems psRoot) |}.

(** The [switch] of [CuTest_RunTestCase] that prints results for the
    Eclipse error parser. *)
Definition print_case_result (c : cutest_case_t) : M unit :=
  match eResult c with
  | EN_CUTEST_RESULT_PASS =>
      printf (c_str (pszFile c) +:+ ":" +:+ fmt_ld (ulLine c) +:+ ":0: info: "
              +:+ c_str (pszName c) +:+ " passed." +:+ LF)
  | EN_CUTEST_RESULT_FAIL =>
      printf (c_str (pszFile c) +:+ ":" +:+ fmt_ld (ulLine c) +:+ ":0: error: "
              +:+ c_str (pszName c) +:+ " failed." +:+ LF +:+ " ");;
      printf (c_str (pszMsgFile c) +:+ ":" +:+ fmt_ld (ulMsgLine c) +:+ ":0: error: "
              +:+ c_str (acMessage c) +:+ LF +:+ " ")
  | _ =>
      printf (c_str (pszFile c) +:+ ":" +:+ fmt_ld (ulLine c) +:+ ":0: warning: "
              +:+ c_str (pszName c) +:+ " not evaluated." +:+ LF)
  end.

(** Run test case. *)
Definition CuTest_RunTestCase (psTc : addr) : M unit :=
  c ← deref psTc;
  pfv ← match pfvTestFn c ≫= text with Some fn => mret fn | None => abort end;
  (* Reset result buffers *)
  modify psTc (set_eResult EN_CUTEST_RESULT_UNDEF);;
  modify psTc (set_acMessage "");;
  (* Set return point and execute test case *)
  setjmp psTc (pfv psTc);;
  (* Print results for Eclipse error parser *)
  c ← deref psTc;
  if bPrintResult c then print_case_result c else mret tt.

(** Run all test cases in a group. *)
Definition CuTest_RunTestGroup (psGroup : cutest_group_t) : M unit :=
  for_loop CUTEST_MAX_NUM_CASES 0 (λ i _,
    match slot (group_ppItems psGroup) i with
    | Some psCase => CuTest_RunTestCase psCase;; mret (true, tt)
    | None => mret (true, tt)
    end) tt.

(** Run all groups in a module. *)
Definition CuTest_RunTestModule (psModule : cutest_module_t) : M unit :=
  for_loop CUTEST_MAX_NUM_GROUPS 0 (λ i _,
    match slot (module_ppItems psModule) i with
    | Some psGroup => CuTest_RunTestGroup psGroup;; mret (true, tt)
    | None => mret (true, tt)
    end) tt.

(** Print test run results to stdout. *)
Definition CuTest_PrintRunResults (psRoot : cutest_root_t) (pTime : Z) : M unit :=
  printf LF;;
  printf ("=================== Unit Test Report ===================" +:+ LF);;
  printf ("Framework version:  " +:+ CUTEST_VERSION +:+ LF);;
  printf ("Project:            " +:+ c_str (root_pszName psRoot) +:+ LF +:+ LF);;
  CuTestPrintSummary psRoot;;
  CuTestPrintDetails psRoot;;
  printf LF;;
  ts ← CuTestGetTimestampString pTime;
  printf ("Done." +:+ TAB +:+ " " +:+ ts +:+ LF);;
  printf ("========================================================" +:+ LF).

(** Generate HTML report file. *)
Definition CuTest_GenerateRunReport (psRoot : cutest_root_t) (pTime : Z)
    (pszFile : string) : M unit :=
  assert (bool_decide (ulCount psRoot < CUTEST_MAX_NUM_ROOT_ITEM));;
  (* Open output file *)
  f ← fopen_w (c_str pszFile);
  match f with
  | None => mret tt
  | Some f =>
      (* Header *)
      ts ← CuTestGetTimestampString pTime;
      fprintf f ("<!DOCTYPE html>" +:+ LF +:+ "<html>" +:+ LF
                 +:+ "    <head>" +:+ LF
                 +:+ "        <title>Unit Test Report</title>" +:+ LF
                 +:+ "    </head>" +:+ LF
                 +:+ "    <body>" +:+ LF
                 +:+ "        <h1>Unit Test Report &ndash; " +:+ c_str (root_pszName psRoot)
                 +:+ "</h1><hr/>"
                 +:+ "        <p><b>Framework Version:</b> CuTest " +:+ CUTEST_VERSION
                 +:+ "<br/>"
                 +:+ "           <b>Test run completed at:</b> " +:+ ts +:+ "</p>" +:+ LF);;
      (* Test results *)
      for_loop (ulCount psRoot) 0 (λ i ulNum,
        psItem ← root_item psRoot i;
        match psItem with
        | RCase psCase =>
            CuTestGenerateReport_CaseHeader f;;
            ulNum ← match psCase with
                    | Some psCase => CuTestGenerateReport_CaseLine f ulNum psCase
                    | None => abort
                    end;
            CuTestGenerateReport_CaseFooter f;;
            mret (true, ulNum)
        | RGroup (Some psGroup) =>
            ulNum ← CuTestGenerateReport_Group f ulNum psGroup; mret (true, ulNum)
        | RModule (Some psModule) =>
            ulNum ← CuTestGenerateReport_Module f ulNum psModule; mret (true, ulNum)
        | _ => abort
        end) 0%Z;;
      (* Statistics *)
      sStats ← read_cases (λ h, CuTestGetStats h psRoot);
      fprintf f ("        <hr/><p>" +:+ fmt_ld (ulTotal sStats) +:+ " runs, "
                 +:+ fmt_ld (ulPassed sStats) +:+ " passes, "
                 +:+ fmt_ld (ulFailed sStats) +:+ " fails" +:+ LF +:+ "</p>"
                 +:+ "    </body>" +:+ LF +:+ "</html>");;
      fclose f
  end.

(** Evaluate overall run result. *)
Definition CuTest_GetRunResult (h : gmap addr cutest_case_t) (psRoot : cutest_root_t)
  : option cutest_result_t :=
  sRun ← CuTestGetStats h psRoot;
  Some (if decide (ulPassed sRun = ulTotal sRun)
        then EN_CUTEST_RESULT_PASS else EN_CUTEST_RESULT_FAIL).

(** *** Test run setup macros (CuTest.h) *)

Definition BEGIN_TEST_RUN (CUTEST_PROJECT_NAME : string) : cutest_root_t :=
  {| root_pszName := CUTEST_PROJECT_NAME;
     ulCount := 0;
     asItems := replicate CUTEST_MAX_NUM_ROOT_ITEM (RCase None) |}.

Definition GET_RUN_RESULT (h : gmap addr cutest_case_t) (_root : cutest_root_t)
  : option Z :=
  r ← CuTest_GetRunResult h _root;
  Some (if decide (r = EN_CUTEST_RESULT_PASS) then EXIT_SUCCESS else EXIT_FAILURE).

End CuTest.

(** ** What the loops visit

    The slots of a pointer array that a scan over its first [cap] elements
    finds occupied, and those it finds before the first empty one. *)

Definition occupied {A} (cap : nat) (items : list (option A)) : list A :=
  omap id (take cap items).

Fixpoint packed_prefix {A} (items : list (option A)) : list A :=
  match items with
  | Some x :: items' => x :: packed_prefix items'
  | _ => []
  end.

(** Visiting the elements of a list in order. *)
Fixpoint iterM {A B} (f : A → B → M A) (a : A) (l : list B) : M A :=
  match l with
  | [] => mret a
  | x :: l' => a' ← f a x; iterM f a' l'
  end.

Fixpoint fold_opt {A B} (f : A → B → option A) (a : A) (l : list B) : option A :=
  match l with
  | [] => Some a
  | x :: l' => a' ← f a x; fold_opt f a' l'
  end.

(** The case objects a group, a module, a root element and a run hold, in
    the order the aggregator reaches them. *)
Definition group_cases (g : cutest_group_t) : list addr :=
  occupied CUTEST_MAX_NUM_CASES (group_ppItems g).

Definition module_cases (m : cutest_module_t) : list addr :=
  occupied CUTEST_MAX_NUM_GROUPS (module_ppItems m) ≫= group_cases.

Definition relem_cases (e : cutest_relem_t) : list addr :=
  match e with
  | RCase (Some p) => [p]
  | RGroup (Some g) => group_cases g
  | RModule (Some m) => module_cases m
  | _ => []
  end.

Definition root_cases (r : cutest_root_t) : list addr :=
  take (ulCount r) (asItems r) ≫= relem_cases.

(** Number of the cases in [l] whose result is [r]. *)
Definition count_result (h : gmap addr cutest_case_t) (r : cutest_result_t)
    (l : list addr) : nat :=
  length (filter (λ p, eResult <$> h !! p = Some r) l).

(** One step of the aggregation: the statistics of the case at [p] added to
    the counters. *)
Definition stats_step (h : gmap addr cutest_case_t) (acc : cutest_stats_t) (p : addr)
  : option cutest_stats_t :=
  sCase ← CuTestGetStats_Case h p; Some (stats_add acc sCase).

(** The counters after aggregating the cases of [l] one by one. *)
Definition stats_list (h : gmap addr cutest_case_t) (acc : cutest_stats_t)
    (l : list addr) : option cutest_stats_t :=
  fold_opt (stats_step h) acc l.

(** Counters that hold [unsigned long] values. *)
Definition stats_wf (st : cutest_stats_t) : Prop :=
  ulong (ulTotal st) = ulTotal st ∧ ulong (ulPassed st) = ulPassed st
  ∧ ulong (ulFailed st) = ulFailed st.

(** No case of [l] is left at [EN_CUTEST_RESULT_UNDEF]. *)
Definition all_evaluated (h : gmap addr cutest_case_t) (l : list addr) : Prop :=
  Forall (λ p, eResult <$> h !! p ≠ Some EN_CUTEST_RESULT_UNDEF) l.

(** Every pointer of [l] designates a case object. *)
Definition all_allocated (h : gmap addr cutest_case_t) (l : list addr) : Prop :=
  Forall (λ p, is_Some (h !! p)) l.

(** [passed + failed <= total], with equality exactly when the cases of [l]
    are all evaluated. *)
Definition stats_consistent (h : gmap addr cutest_case_t) (st : cutest_stats_t)
    (l : list addr) : Prop :=
  (ulPassed st + ulFailed st ≤ ulTotal st)%Z
  ∧ ((ulPassed st + ulFailed st = ulTotal st)%Z ↔ all_evaluated h l).

(** ** The demo project (test/main.c)

    Two cases, a group holding both and a module holding the group; the
    source lines of the declarations and of the assertions are those of
    main.c. *)

Definition CuPass (_tc : addr) (file : string) (line : Z) : M unit :=
  CuTest_EvalAssert _tc file line true None.

Definition CuFail (_tc : addr) (file : string) (line : Z) (message : string) : M unit :=
  CuTest_EvalAssert _tc file line false (Some message).

Definition TEST_Module_MyGroup_Case1 : addr := 1%positive.
Definition TEST_Module_MyGroup_Case2 : addr := 2%positive.

Definition _TEST_Module_MyGroup_Case1__TestFn (_tc : addr) : M unit :=
  CuPass _tc "main.c" 23.

Definition _TEST_Module_MyGroup_Case2__TestFn (_tc : addr) : M unit :=
  CuFail _tc "main.c" 28 "always fails".

(** The [TEST_CASE] initialiser. *)
Definition TEST_CASE (x file : string) (line : Z) (fn : fn_ptr) : cutest_case_t :=
  {| pszName := x; pszFile := file; ulLine := line; pfvTestFn := Some fn;
     eResult := EN_CUTEST_RESULT_UNDEF; acMessage := "";
     pszMsgFile := file; ulMsgLine := line; bPrintResult := true |}.

Definition _TEST_Module_MyGroup_Case1__TestCase : cutest_case_t :=
  TEST_CASE "TEST_Module_MyGroup_Case1" "main.c" 21 1%positive.

Definition _TEST_Module_MyGroup_Case2__TestCase : cutest_case_t :=
  TEST_CASE "TEST_Module_MyGroup_Case2" "main.c" 26 2%positive.

Definition TestMyModule_MyGroup : cutest_group_t :=
  {| group_pszName := "TestMyModule_MyGroup"; group_pszFile := "main.c";
     group_ulLine := 31;
     group_ppItems := [Some TEST_Module_MyGroup_Case1; Some TEST_Module_MyGroup_Case2] |}.

Definition TestMyModule : cutest_module_t :=
  {| module_pszName := "TestMyModule"; module_pszFile := "main.c";
     module_ulLine := 37;
     module_ppItems := [Some TestMyModule_MyGroup] |}.

(** The test functions of main.c at their addresses. *)
Definition main_text (f : fn_ptr) : option (addr → M unit) :=
  match f with
  | 1%positive => Some _TEST_Module_MyGroup_Case1__TestFn
  | 2%positive => Some _TEST_Module_MyGroup_Case2__TestFn
  | _ => None
  end.

(** The machine when [main] is entered. *)
Definition main_start : machine :=
  {| cases := {[ TEST_Module_MyGroup_Case1 := _TEST_Module_MyGroup_Case1__TestCase;
                 TEST_Module_MyGroup_Case2 := _TEST_Module_MyGroup_Case2__TestCase ]};
     stdout := ""; files := ∅; unwritable := ∅; acTimestampBuffer := "" |}.

Definition RUN_TEST_MODULE (text : fn_ptr → option (addr → M unit))
    (_root : cutest_root_t) (x : cutest_module_t) : M cutest_root_t :=
  match CuTest_AppendRootItem _root (RModule (Some x)) with
  | Some _root => CuTest_RunTestModule text x;; mret _root
  | None => abort
  end.

(** The root that [main] has built when it reaches [END_TEST_RUN]. *)
Definition main_root : cutest_root_t :=
  default (BEGIN_TEST_RUN "Unnamed Project")
    (CuTest_AppendRootItem (BEGIN_TEST_RUN "Unnamed Project") (RModule (Some TestMyModule))).

(** The machine after [RUN_TEST_MODULE(TestMyModule)]. *)
Definition main_after_run : machine :=
  (RUN_TEST_MODULE main_text (BEGIN_TEST_RUN "Unnamed Project") TestMyModule main_start).2.

(** The machine in which [CuTest_RunTestCase] enters the test function of
    the case [c] at [psTc]: result undefined, message buffer cleared. *)
Definition reset_case (psTc : addr) (c : cutest_case_t) (s : machine) : machine :=
  set_cases
    (<[psTc := set_acMessage "" (set_eResult EN_CUTEST_RESULT_UNDEF c)]> (cases s)) s.

(** The case object an evaluation function leaves behind when it fails with
    the formatted text [formatted] at [pszFile]:[ulLine]. *)
Definition failed_case (formatted pszFile : string) (ulLine : Z) (c : cutest_case_t)
  : cutest_case_t :=
  set_eResult EN_CUTEST_RESULT_FAIL
    (set_ulMsgLine ulLine
       (set_pszMsgFile pszFile
          (set_acMessage (snprintf CUTEST_MAX_LEN_MESSAGE formatted) c))).

(** A message longer than the message buffer. *)
Definition long_message : string :=
  String.concat "" (replicate 300 "x").


(** A group whose first slot is empty and whose second slot holds the first
    case of main.c, and a module whose first slot is empty and whose second
    slot holds that group. *)
Definition GroupWithHole : cutest_group_t :=
  {| group_pszName := "GroupWithHole"; group_pszFile := "main.c"; group_ulLine := 31;
     group_ppItems := [None; Some TEST_Module_MyGroup_Case1] |}.

Definition ModuleWithHole : cutest_module_t :=
  {| module_pszName := "ModuleWithHole"; module_pszFile := "main.c"; module_ulLine := 37;
     module_ppItems := [None; Some GroupWithHole] |}.

(** Two buffers of three bytes that differ at offsets 1 and 2. *)
Definition expected_bytes : list byte := [Byte.x01; Byte.x02; Byte.x03].
Definition actual_bytes : list byte := [Byte.x01; Byte.xff; Byte.x00].

(** A group that runs the failing case of main.c before the passing one. *)
Definition FailingFirst : cutest_group_t :=
  {| group_pszName := "FailingFirst"; group_pszFile := "main.c"; group_ulLine := 31;
     group_ppItems := [Some TEST_Module_MyGroup_Case2; Some TEST_Module_MyGroup_Case1] |}.

(** ** The other result evaluation functions (CuTest.c)

    [intmax_t] is 64 bits wide.  A [const void*] is NULL or an address, and
    [%p] renders it in an implementation-defined way, given by [fmt_p]. *)

Definition INTMAX_MOD : Z := 2 ^ 64.

(** Value of an [intmax_t] expression: the 64 bits read as a signed number. *)
Definition as_intmax (z : Z) : Z :=
  ((z + 2 ^ 63) mod INTMAX_MOD - 2 ^ 63)%Z.

(** [%jd] *)
Definition fmt_jd (z : Z) : string :=
  let v := as_intmax z in
  if (v <? 0)%Z then "-" +:+ dec_digits 20 (Z.to_N (- v)) ""
  else dec_digits 20 (Z.to_N v) "".

(** Evaluate integers to be equal. *)
Definition CuTest_EvalAssertIntEquals (psTc : addr) (pszFile : string) (ulLine : Z)
    (llExpected llActual : Z) : M unit :=
  deref psTc;;
  if decide (as_intmax llActual = as_intmax llExpected) then CuTestAssertPassed psTc
  else
    record_failure psTc
      ("expected <" +:+ fmt_jd llExpected +:+ ">, but was <" +:+ fmt_jd llActual +:+ ">")
      pszFile ulLine;;
    CuTestAssertFailed psTc.

(** Evaluate pointers to be equal. *)
Definition CuTest_EvalAssertPtrEquals (fmt_p : option positive → string)
    (psTc : addr) (pszFile : string) (ulLine : Z)
    (pExpected pActual : option positive) : M unit :=
  deref psTc;;
  if decide (pExpected = pActual) then CuTestAssertPassed psTc
  else
    let formatted :=
      match pExpected, pActual with
      | None, _ => "expected <NULL>, but was <" +:+ fmt_p pActual +:+ ">"
      | _, None => "expected <" +:+ fmt_p pExpected +:+ ">, but was <NULL>"
      | _, _ =>
          "expected <" +:+ fmt_p pExpected +:+ ">, but was <" +:+ fmt_p pActual +:+ ">"
      end in
    record_failure psTc formatted pszFile ulLine;;
    CuTestAssertFailed psTc.

(** Evaluate pointer to not be NULL. *)
Definition CuTest_EvalAssertPtrNotNull (psTc : addr) (pszFile : string) (ulLine : Z)
    (pActual : option positive) : M unit :=
  deref psTc;;
  if decide (pActual ≠ None) then CuTestAssertPassed psTc
  else
    record_failure psTc "<NULL> unexpected" pszFile ulLine;;
    CuTestAssertFailed psTc.

(** The C library's [strcmp] on the characters two pointers designate: zero
    when they agree up to the terminator, otherwise the difference of the
    first two characters that differ. *)
Fixpoint strcmp (s1 s2 : string) : Z :=
  match s1, s2 with
  | "", "" => 0
  | "", String c2 _ => (- Z.of_N (N_of_ascii c2))%Z
  | String c1 _, "" => Z.of_N (N_of_ascii c1)
  | String c1 s1', String c2 s2' =>
      if Ascii.eqb c1 c2 then
        if Ascii.eqb c1 Ascii.zero then 0%Z else strcmp s1' s2'
      else (Z.of_N (N_of_ascii c1) - Z.of_N (N_of_ascii c2))%Z
  end.

(** Evaluate strings to be equal. *)
Definition CuTest_EvalAssertStrEquals (psTc : addr) (pszFile : string) (ulLine : Z)
    (pszExpected pszActual : option string) : M unit :=
  deref psTc;;
  match pszExpected with
  | None => abort
  | Some expected =>
      if match pszActual with
         | Some actual => (strcmp expected actual =? 0)%Z
         | None => false
         end
      then CuTestAssertPassed psTc
      else
        let formatted :=
          match pszActual with
          | None => "expected <" +:+ c_str expected +:+ ">, but was <NULL>"
          | Some actual =>
              "expected <" +:+ c_str expected +:+ ">, but was <" +:+ c_str actual +:+ ">"
          end in
        record_failure psTc formatted pszFile ulLine;;
        CuTestAssertFailed psTc
  end.

(** The result evaluation macros of CuTest.h with their arguments. *)
Inductive assertion :=
  | CuAssert (condition : bool) (message : option string)
  | CuAssertIntEquals (expected actual : Z)
  | CuAssertFltEquals (expected actual tolerance : PrimFloat.float)
  | CuAssertPtrEquals (expected actual : option positive)
  | CuAssertPtrNotNull (actual : option positive)
  | CuAssertStrEquals (expected actual : option string)
  | CuAssertMemEquals (expected actual : option (list byte)) (size : nat).

(** The expansion of a macro used in the test function of [_tc] at
    [file]:[line]. *)
Definition evaluate (fmt_Lf : PrimFloat.float → string) (fmt_p : option positive → string)
    (_tc : addr) (file : string) (line : Z) (a : assertion) : M unit :=
  match a with
  | CuAssert condition message => CuTest_EvalAssert _tc file line condition message
  | CuAssertIntEquals expected actual =>
      CuTest_EvalAssertIntEquals _tc file line expected actual
  | CuAssertFltEquals expected actual tolerance =>
      CuTest_EvalAssertFltEquals fmt_Lf _tc file line expected actual tolerance
  | CuAssertPtrEquals expected actual =>
      CuTest_EvalAssertPtrEquals fmt_p _tc file line expected actual
  | CuAssertPtrNotNull actual => CuTest_EvalAssertPtrNotNull _tc file line actual
  | CuAssertStrEquals expected actual =>
      CuTest_EvalAssertStrEquals _tc file line expected actual
  | CuAssertMemEquals expected actual size =>
      CuTest_EvalAssertMemEquals _tc file line expected actual size
  end.

(** A test function that is a sequence of such macros, each with the source
    location of its use. *)
Definition assertions (fmt_Lf : PrimFloat.float → string)
    (fmt_p : option positive → string) (body : list (string * Z * assertion))
    (_tc : addr) : M unit :=
  iterM (λ _ site, evaluate fmt_Lf fmt_p _tc site.1.1 site.1.2 site.2) tt body.

(** What a result evaluation function called for the case [c] at [psTc] can
    do to the machine [s]: mark the case passed and return, record a failure
    in the case and leave through [longjmp] to it, or stop with the machine
    as it was. *)
Definition assertion_outcome (psTc : addr) (pszFile : string) (ulLine : Z)
    (c : cutest_case_t) (s : machine) (r : outcome unit * machine) : Prop :=
  r = (Ret tt, set_cases (<[psTc := set_eResult EN_CUTEST_RESULT_PASS c]> (cases s)) s)
  ∨ (∃ formatted,
       r = (LongJmp psTc,
            set_cases (<[psTc := failed_case formatted pszFile ulLine c]> (cases s)) s))
  ∨ r = (Abort, s).

(** The fields of a case object that no function of the framework writes. *)
Definition same_declaration (c c' : cutest_case_t) : Prop :=
  pszName c' = pszName c ∧ pszFile c' = pszFile c ∧ ulLine c' = ulLine c
  ∧ pfvTestFn c' = pfvTestFn c ∧ bPrintResult c' = bPrintResult c.

(** A test function of two assertion macros, the second of which fails, and
    a program text whose functions are all that function. *)
Definition two_assertions : list (string * Z * assertion) :=
  [("main.c", 23%Z, CuAssert true None); ("main.c", 24%Z, CuAssertIntEquals 1 2)].

Definition two_assertions_text (f : fn_ptr) : option (addr → M unit) :=
  Some (assertions (λ _, "") (λ _, "") two_assertions).

(** ** Building the root

    What a sequence of [RUN_TEST_CASE], [RUN_TEST_GROUP] and
    [RUN_TEST_MODULE] lines does to the root: one call of
    [CuTest_AppendRootItem] for each, in the order of the lines. *)
Definition register (r : cutest_root_t) (items : list cutest_relem_t)
  : option cutest_root_t :=
  fold_opt CuTest_AppendRootItem r items.

(** The invariant of a root object: the array has its declared size and the
    count does not exceed it. *)
Definition root_wf (r : cutest_root_t) : Prop :=
  length (asItems r) = CUTEST_MAX_NUM_ROOT_ITEM
  ∧ (ulCount r ≤ CUTEST_MAX_NUM_ROOT_ITEM)%nat.

(** ** What a computation leaves alone

    A computation preserves a relation between machines when the machine it
    leaves behind, however it ends, is related to the one it started from. *)
Definition preserves {A} (R : machine → machine → Prop) (m : M A) : Prop :=
  ∀ s, R s (m s).2.

(** The second machine differs from the first at most in text appended to
    standard output and in the timestamp buffer. *)
Definition console_frame (s s' : machine) : Prop :=
  cases s' = cases s ∧ files s' = files s ∧ unwritable s' = unwritable s
  ∧ ∃ out, stdout s' = stdout s +:+ out.

(** The second machine differs from the first at most in text appended to
    the file [f]. *)
Definition file_frame (f : string) (s s' : machine) : Prop :=
  cases s' = cases s ∧ stdout s' = stdout s ∧ unwritable s' = unwritable s
  ∧ acTimestampBuffer s' = acTimestampBuffer s
  ∧ (∀ k, k ≠ f → files s' !! k = files s !! k)
  ∧ ∃ out, default "" (files s' !! f) = default "" (files s !! f) +:+ out.

(** The second machine differs from the first at most in the file [f] and in
    the timestamp buffer. *)
Definition report_frame (f : string) (s s' : machine) : Prop :=
  cases s' = cases s ∧ stdout s' = stdout s ∧ unwritable s' = unwritable s
  ∧ ∀ k, k ≠ f → files s' !! k = files s !! k.

(** ** Programs whose test functions are sequences of assertion macros

    [bodies] gives the sequence of each test function by its address; the
    program text is read off it. *)
Definition assertion_text (fmt_Lf : PrimFloat.float → string)
    (fmt_p : option positive → string)
    (bodies : fn_ptr → option (list (string * Z * assertion))) (fn : fn_ptr)
  : option (addr → M unit) :=
  assertions fmt_Lf fmt_p <$> bodies fn.

(** The assertions that the test function of the case at [p] runs. *)
Definition case_body (bodies : fn_ptr → option (list (string * Z * assertion)))
    (h : gmap addr cutest_case_t) (p : addr) : option (list (string * Z * assertion)) :=
  c ← h !! p; fn ← pfvTestFn c; bodies fn.

(** What running test cases may change: the case objects keep their
    declarations and no case object appears or disappears, standard output
    grows, and the files and the timestamp buffer stay as they are. *)
Definition run_frame (s s' : machine) : Prop :=
  files s' = files s ∧ unwritable s' = unwritable s
  ∧ acTimestampBuffer s' = acTimestampBuffer s
  ∧ (∃ out, stdout s' = stdout s +:+ out)
  ∧ ∀ p, option_Forall2 same_declaration (cases s !! p) (cases s' !! p).

(** The case at [p] is as its runner leaves it: the result is evaluated
    unless the test function runs no assertion, and the message buffer is
    empty unless the case failed. *)
Definition ran (bodies : fn_ptr → option (list (string * Z * assertion)))
    (h : gmap addr cutest_case_t) (p : addr) : Prop :=
  ∃ c body, h !! p = Some c ∧ case_body bodies h p = Some body
            ∧ (eResult c = EN_CUTEST_RESULT_UNDEF ↔ body = [])
            ∧ (eResult c ≠ EN_CUTEST_RESULT_FAIL → acMessage c = "").

(** The computation [m] runs the cases of [l]: started where each of them
    designates a case object whose test function is known, it stops on a
    violated contract or returns inside [run_frame] with the cases of [l]
    run and every other case object untouched. *)
Definition runs_cases (bodies : fn_ptr → option (list (string * Z * assertion)))
    (l : list addr) (m : M unit) : Prop :=
  ∀ s, (∀ p, p ∈ l → is_Some (case_body bodies (cases s) p)) →
       (∃ s', m s = (Abort, s'))
       ∨ ∃ s', m s = (Ret tt, s') ∧ run_frame s s'
               ∧ (∀ q, q ∉ l → cases s' !! q = cases s !! q)
               ∧ ∀ p, p ∈ l → ran bodies (cases s') p.

(** The test functions of main.c as sequences of assertion macros. *)
Definition main_bodies (f : fn_ptr) : option (list (string * Z * assertion)) :=
  match f with
  | 1%positive => Some [("main.c", 23%Z, CuAssert true None)]
  | 2%positive => Some [("main.c", 28%Z, CuAssert false (Some "always fails"))]
  | _ => None
  end.

(** ** The details listing

    The entry that [CuTestPrintDetails_Case] prints under the number [ulNum]
    for a case that did not pass: the place and text of the failure for a
    failed case, the place of the declaration for one that was not
    evaluated. *)
Definition details_entry (ulNum : Z) (c : cutest_case_t) : string :=
  match eResult c with
  | EN_CUTEST_RESULT_FAIL =>
      TAB +:+ fmt_ld ulNum +:+ ") " +:+ c_str (pszName c) +:+ " -- "
      +:+ c_str (pszMsgFile c) +:+ ":" +:+ fmt_ld (ulMsgLine c) +:+ ": "
      +:+ c_str (acMessage c) +:+ LF
  | _ =>
      TAB +:+ fmt_ld ulNum +:+ ") " +:+ c_str (pszName c) +:+ " -- "
      +:+ c_str (pszFile c) +:+ ":" +:+ fmt_ld (ulLine c)
      +:+ ": not evaluated" +:+ LF
  end.

(** The case objects of [l] that did not pass, in the order of [l]. *)
Definition not_passed (h : gmap addr cutest_case_t) (l : list addr)
  : list cutest_case_t :=
  filter (λ c, eResult c ≠ EN_CUTEST_RESULT_PASS) (omap (λ p, h !! p) l).

(** Their entries, the first under the number [n + 1], the next under
    [n + 2], and so on. *)
Definition details_entries (n : Z) (cs : list cutest_case_t) : list string :=
  imap (λ k c, details_entry (n + Z.of_nat k + 1) c) cs.

(** ** The summary tape

    The mark that stands for a result, and the marks of the cases of [l] in
    order. *)
Definition mark (r : cutest_result_t) : ascii :=
  match r with
  | EN_CUTEST_RESULT_PASS => CUTEST_SUMMARY_CHR_PASSED
  | EN_CUTEST_RESULT_FAIL => CUTEST_SUMMARY_CHR_FAILED
  | EN_CUTEST_RESULT_UNDEF => CUTEST_SUMMARY_CHR_INVALID
  end.

Definition tape (h : gmap addr cutest_case_t) (l : list addr) : string :=
  string_of_list_ascii (omap (λ p, mark ∘ eResult <$> h !! p) l).

(** Holders whose occupied slots come first: no slot is occupied after an
    empty one. *)
Definition group_packed (g : cutest_group_t) : Prop :=
  packed_prefix (take CUTEST_MAX_NUM_CASES (group_ppItems g)) = group_cases g.

Definition module_packed (m : cutest_module_t) : Prop :=
  packed_prefix (take CUTEST_MAX_NUM_GROUPS (module_ppItems m))
  = occupied CUTEST_MAX_NUM_GROUPS (module_ppItems m)
  ∧ Forall group_packed (occupied CUTEST_MAX_NUM_GROUPS (module_ppItems m)).

(** A root element that is not NULL and is packed throughout. *)
Definition relem_packed (e : cutest_relem_t) : Prop :=
  pItem_set e = true
  ∧ match e with
    | RGroup (Some g) => group_packed g
    | RModule (Some m) => module_packed m
    | _ => True
    end.

(** ** The tables of the report

    The text that a report writer appends to the open file [f]. *)
Definition appended (f out : string) (s : machine) : machine :=
  set_files (<[f := default "" (files s !! f) +:+ out]> (files s)) s.

(** The table heading that [CuTestGenerateReport_CaseHeader] writes. *)
Definition report_table_head : string :=
  "<table border=" +:+ DQ +:+ "1" +:+ DQ
  +:+ "><tr><th>Nr.</th><th>Name</th><th>File</th><th>Result</th><th>Message</th></tr>".

(** The table row that [CuTestGenerateReport_CaseLine] formats for the case
    [c] under the number [ulNum]. *)
Definition report_row (ulNum : Z) (c : cutest_case_t) : string :=
  let '(pszColor, pszResult, bPrintMsg) :=
    match eResult c with
    | EN_CUTEST_RESULT_PASS => ("lime", "pass", false)
    | EN_CUTEST_RESULT_FAIL => ("red", "fail", true)
    | _ => ("silver", "invalid", false)
    end in
  let file := if bPrintMsg then pszMsgFile c else pszFile c in
  let line := if bPrintMsg then ulMsgLine c else ulLine c in
  let pszMessage := if bPrintMsg then acMessage c else "" in
  "<tr><td>" +:+ fmt_ld ulNum +:+ "</td><td>" +:+ c_str (pszName c)
  +:+ "</td><td><a href=" +:+ DQ +:+ c_str file +:+ "#L" +:+ fmt_ld line +:+ DQ
  +:+ ">" +:+ c_str file +:+ "#L" +:+ fmt_ld line
  +:+ "</a></td><td style=" +:+ DQ +:+ "background-color: " +:+ pszColor +:+ DQ
  +:+ ">" +:+ pszResult +:+ "</td><td>" +:+ c_str pszMessage +:+ "</td></tr>".

(** The rows of the cases of [l] in order, the first under the number
    [n + 1], the next under [n + 2], and so on; [n] is the number of the
    rows written before. *)
Definition report_cases (h : gmap addr cutest_case_t) (n : Z) (l : list addr) : string :=
  String.concat ""
    (imap (λ k c, report_row (n + Z.of_nat k + 1) c) (omap (λ p, h !! p) l)).

(** The section of a group: its title and the table of its cases. *)
Definition report_group (h : gmap addr cutest_case_t) (n : Z) (g : cutest_group_t)
  : string :=
  ("<h3>" +:+ c_str (group_pszName g) +:+ "</h3>")
  +:+ report_table_head +:+ report_cases h n (group_cases g) +:+ "</table>".

(** The sections of the groups [gs] one after the other; the numbering goes
    on from each group to the next. *)
Fixpoint report_groups (h : gmap addr cutest_case_t) (n : Z) (gs : list cutest_group_t)
  : string :=
  match gs with
  | [] => ""
  | g :: gs' =>
      report_group h n g
      +:+ report_groups h (n + Z.of_nat (length (group_cases g))) gs'
  end.

(** The section of a module: its title and the sections of its groups. *)
Definition report_module (h : gmap addr cutest_case_t) (n : Z) (m : cutest_module_t)
  : string :=
  ("<h2>" +:+ c_str (module_pszName m) +:+ "</h2>")
  +:+ report_groups h n (occupied CUTEST_MAX_NUM_GROUPS (module_ppItems m)).

(** What the report holds for one registered element. *)
Definition report_relem (h : gmap addr cutest_case_t) (n : Z) (e : cutest_relem_t)
  : string :=
  match e with
  | RCase (Some p) => report_table_head +:+ report_cases h n [p] +:+ "</table>"
  | RGroup (Some g) => report_group h n g
  | RModule (Some m) => report_module h n m
  | _ => ""
  end.

(** The tables of the registered elements [es] one after the other; the
    numbering goes on from each element to the next. *)
Fixpoint report_tables (h : gmap addr cutest_case_t) (n : Z) (es : list cutest_relem_t)
  : string :=
  match es with
  | [] => ""
  | e :: es' =>
      report_relem h n e
      +:+ report_tables h (n + Z.of_nat (length (relem_cases e))) es'
  end.

(** The writer [m], given the number [n] of the rows written so far, appends
    the text [out] to the file and hands back the number increased by the
    number of the cases of [l]. *)
Definition writes (f : string) (l : list addr)
    (out : gmap addr cutest_case_t → Z → string) (m : Z → M Z) : Prop :=
  ∀ n s,
    is_Some (files s !! f) → all_allocated (cases s) l →
    (0 ≤ n)%Z → (n + Z.of_nat (length l) < ULONG_MOD)%Z →
    m n s = (Ret (n + Z.of_nat (length l))%Z, appended f (out (cases s) n) s).

(** The text of the report before and after its tables, as
    [CuTest_GenerateRunReport] formats it. *)
Definition report_head (name timestamp : string) : string :=
  "<!DOCTYPE html>" +:+ LF +:+ "<html>" +:+ LF
  +:+ "    <head>" +:+ LF
  +:+ "        <title>Unit Test Report</title>" +:+ LF
  +:+ "    </head>" +:+ LF
  +:+ "    <body>" +:+ LF
  +:+ "        <h1>Unit Test Report &ndash; " +:+ c_str name
  +:+ "</h1><hr/>"
  +:+ "        <p><b>Framework Version:</b> CuTest " +:+ CUTEST_VERSION
  +:+ "<br/>"
  +:+ "           <b>Test run completed at:</b> " +:+ timestamp +:+ "</p>" +:+ LF.

Definition report_foot (sStats : cutest_stats_t) : string :=
  "        <hr/><p>" +:+ fmt_ld (ulTotal sStats) +:+ " runs, "
  +:+ fmt_ld (ulPassed sStats) +:+ " passes, "
  +:+ fmt_ld (ulFailed sStats) +:+ " fails" +:+ LF +:+ "</p>"
  +:+ "    </body>" +:+ LF +:+ "</html>".


(** * Properties *)

(** ** Computing with the monad *)

Lemma bind_Ret {A B} (m : M A) (k : A → M B) s a s' :
  m s = (Ret a, s') → (m ≫= k) s = k a s'.
Proof. intros H. unfold mbind, M_bind. by rewrite H. Qed.

Lemma bind_LongJmp {A B} (m : M A) (k : A → M B) s env s' :
  m s = (LongJmp env, s') → (m ≫= k) s = (LongJmp env, s').
Proof. intros H. unfold mbind, M_bind. by rewrite H. Qed.

Lemma bind_Abort {A B} (m : M A) (k : A → M B) s s' :
  m s = (Abort, s') → (m ≫= k) s = (Abort, s').
Proof. intros H. unfold mbind, M_bind. by rewrite H. Qed.

Lemma bind_ext {A B} (m : M A) (k1 k2 : A → M B) s :
  (∀ a s', k1 a s' = k2 a s') → (m ≫= k1) s = (m ≫= k2) s.
Proof.
  intros H. unfold mbind, M_bind. destruct (m s) as [[a| |] s']; auto.
Qed.


Lemma deref_Some p s c : cases s !! p = Some c → deref p s = (Ret c, s).
Proof. intros H. unfold deref. by rewrite H. Qed.

Lemma modify_Some p f s c :
  cases s !! p = Some c →
  modify p f s = (Ret tt, set_cases (<[p := f c]> (cases s)) s).
Proof. intros H. unfold modify. by rewrite H. Qed.

Lemma cases_set_cases h s : cases (set_cases h s) = h.
Proof. done. Qed.

(** *** Loops over pointer arrays *)


Lemma occupied_step_None {A} (items : list (option A)) n i :
  slot items i = None →
  omap id (take (S n) (drop i items)) = omap id (take n (drop (S i) items)).
Proof.
  unfold slot. destruct (items !! i) as [o|] eqn:Hi; simpl.
  - intros ->. by rewrite (drop_S _ _ _ Hi).
  - intros _. apply lookup_ge_None in Hi.
    by rewrite !drop_ge, !take_nil by lia.
Qed.

Lemma occupied_step_Some {A} (items : list (option A)) n i x :
  slot items i = Some x →
  omap id (take (S n) (drop i items)) = x :: omap id (take n (drop (S i) items)).
Proof.
  unfold slot. destruct (items !! i) as [o|] eqn:Hi; simpl; [|done].
  intros ->. by rewrite (drop_S _ _ _ Hi).
Qed.

Lemma packed_step_None {A} (items : list (option A)) n i :
  slot items i = None → packed_prefix (take (S n) (drop i items)) = [].
Proof.
  unfold slot. destruct (items !! i) as [o|] eqn:Hi; simpl.
  - intros ->. by rewrite (drop_S _ _ _ Hi).
  - intros _. apply lookup_ge_None in Hi. by rewrite drop_ge by lia.
Qed.

Lemma packed_step_Some {A} (items : list (option A)) n i x :
  slot items i = Some x →
  packed_prefix (take (S n) (drop i items))
  = x :: packed_prefix (take n (drop (S i) items)).
Proof.
  unfold slot. destruct (items !! i) as [o|] eqn:Hi; simpl; [|done].
  intros ->. by rewrite (drop_S _ _ _ Hi).
Qed.

(** A loop that skips the empty slots visits the occupied ones. *)
Lemma for_loop_skip {A B} (items : list (option B)) (f : A → B → M A)
    (body : nat → A → M (bool * A)) :
  (∀ i a s, body i a s =
     match slot items i with
     | Some x => (f a x ≫= λ a', mret (true, a')) s
     | None => (Ret (true, a), s)
     end) →
  ∀ n i a s,
    for_loop n i body a s = iterM f a (omap id (take n (drop i items))) s.
Proof.
  intros Hbody. induction n as [|n IH]; intros i a s; [done|].
  simpl for_loop. unfold mbind at 1, M_bind at 1. rewrite Hbody.
  destruct (slot items i) as [x|] eqn:Hi.
  - rewrite (occupied_step_Some _ _ _ _ Hi). simpl iterM.
    unfold mbind, M_bind. destruct (f a x s) as [[a'| |] s']; simpl; auto.
  - rewrite (occupied_step_None _ _ _ Hi). simpl. apply IH.
Qed.

(** A loop that leaves at an empty slot visits the packed prefix. *)
Lemma for_loop_break {A B} (items : list (option B)) (f : A → B → M A)
    (body : nat → A → M (bool * A)) :
  (∀ i a s, body i a s =
     match slot items i with
     | Some x => (f a x ≫= λ a', mret (true, a')) s
     | None => (Ret (false, a), s)
     end) →
  ∀ n i a s,
    for_loop n i body a s = iterM f a (packed_prefix (take n (drop i items))) s.
Proof.
  intros Hbody. induction n as [|n IH]; intros i a s; [done|].
  simpl for_loop. unfold mbind at 1, M_bind at 1. rewrite Hbody.
  destruct (slot items i) as [x|] eqn:Hi.
  - rewrite (packed_step_Some _ _ _ _ Hi). simpl iterM.
    unfold mbind, M_bind. destruct (f a x s) as [[a'| |] s']; simpl; auto.
  - by rewrite (packed_step_None _ _ _ Hi).
Qed.

Lemma for_acc_skip {A B} (items : list (option B)) (f : A → B → option A)
    (body : nat → A → option A) :
  (∀ i a, body i a =
     match slot items i with Some x => f a x | None => Some a end) →
  ∀ n i a,
    for_acc n i body a = fold_opt f a (omap id (take n (drop i items))).
Proof.
  intros Hbody. induction n as [|n IH]; intros i a; [done|].
  simpl for_acc. rewrite Hbody.
  destruct (slot items i) as [x|] eqn:Hi.
  - rewrite (occupied_step_Some _ _ _ _ Hi). simpl.
    destruct (f a x); simpl; auto.
  - rewrite (occupied_step_None _ _ _ Hi). simpl. apply IH.
Qed.

(** A loop over the first elements of an array. *)
Lemma for_acc_array {A B} (l : list B) (f : A → B → option A)
    (body : nat → A → option A) :
  (∀ i a, body i a = l !! i ≫= f a) →
  ∀ n i a,
    for_acc n i body a =
      if decide (n ≤ length (drop i l))%nat
      then fold_opt f a (take n (drop i l)) else None.
Proof.
  intros Hbody. induction n as [|n IH]; intros i a.
  - cbn [for_acc take fold_opt]. rewrite take_0. by rewrite decide_True by lia.
  - simpl for_acc. rewrite Hbody.
    destruct (l !! i) as [x|] eqn:Hi; simpl.
    + rewrite (drop_S _ _ _ Hi). simpl.
      destruct (f a x) as [a'|]; simpl.
      * rewrite IH. repeat case_decide; done || lia.
      * by case_decide.
    + apply lookup_ge_None in Hi. rewrite drop_ge by lia.
      destruct (decide _) as [Hle|]; [simpl in Hle; lia | done].
Qed.

(** *** Arithmetic of the counters *)

Lemma ulong_small z : (0 ≤ z < ULONG_MOD)%Z → ulong z = z.
Proof. intros H. unfold ulong. by apply Z.mod_small. Qed.

Lemma ul_add_ulong_r a b : ul_add a (ulong b) = ul_add a b.
Proof. unfold ul_add, ulong. by rewrite Zplus_mod_idemp_r. Qed.

Lemma ul_add_ulong_l a b : ul_add (ulong a) b = ul_add a b.
Proof. unfold ul_add, ulong. by rewrite Zplus_mod_idemp_l. Qed.

Lemma ul_add_assoc a b c : ul_add a (ul_add b c) = ul_add (ul_add a b) c.
Proof.
  unfold ul_add at 2 4. rewrite ul_add_ulong_r, ul_add_ulong_l.
  unfold ul_add. f_equal. lia.
Qed.

Lemma stats_add_assoc a b c :
  stats_add a (stats_add b c) = stats_add (stats_add a b) c.
Proof. unfold stats_add; simpl. by rewrite !ul_add_assoc. Qed.

Lemma stats_zero_wf : stats_wf stats_zero.
Proof. by repeat split. Qed.

Lemma stats_add_wf a b : stats_wf (stats_add a b).
Proof.
  unfold stats_wf, stats_add, ul_add, ulong; simpl.
  by rewrite !Z.mod_mod.
Qed.

Lemma stats_add_zero a : stats_wf a → stats_add a stats_zero = a.
Proof.
  intros (Ht & Hp & Hf). destruct a as [t p f]; simpl in *.
  unfold stats_add, ul_add; simpl. rewrite !Z.add_0_r. congruence.
Qed.

(** *** The aggregator computes [stats_list] over the cases it reaches *)

Lemma stats_list_cons h acc p l :
  stats_list h acc (p :: l)
  = CuTestGetStats_Case h p ≫= λ sCase, stats_list h (stats_add acc sCase) l.
Proof.
  unfold stats_list. cbn [fold_opt]. unfold stats_step.
  by destruct (CuTestGetStats_Case h p).
Qed.

Lemma stats_list_app h acc l1 l2 :
  stats_list h acc (l1 ++ l2) = stats_list h acc l1 ≫= λ a, stats_list h a l2.
Proof.
  revert acc. induction l1 as [|p l1 IH]; intros acc; [done|].
  rewrite <- app_comm_cons, !stats_list_cons.
  destruct (CuTestGetStats_Case h p); simpl; auto.
Qed.

Lemma stats_list_wf h acc l st :
  stats_wf acc → stats_list h acc l = Some st → stats_wf st.
Proof.
  revert acc. induction l as [|p l IH]; intros acc Hacc.
  - intros [= <-]. done.
  - rewrite stats_list_cons.
    destruct (CuTestGetStats_Case h p) as [sc|]; simpl; [|done].
    apply IH, stats_add_wf.
Qed.

Lemma stats_list_absorb h l acc acc0 :
  (stats_list h acc0 l ≫= λ sub, Some (stats_add acc sub))
  = stats_list h (stats_add acc acc0) l.
Proof.
  revert acc0. induction l as [|p l IH]; intros acc0; [reflexivity|].
  rewrite !stats_list_cons.
  destruct (CuTestGetStats_Case h p) as [sc|]; simpl; [|done].
  by rewrite IH, stats_add_assoc.
Qed.

Lemma stats_list_from h l acc :
  stats_wf acc →
  (stats_list h stats_zero l ≫= λ sub, Some (stats_add acc sub)) = stats_list h acc l.
Proof. intros Hacc. by rewrite stats_list_absorb, stats_add_zero. Qed.

Lemma CuTestGetStats_Group_list h g :
  CuTestGetStats_Group h g = stats_list h stats_zero (group_cases g).
Proof.
  unfold CuTestGetStats_Group, group_cases, occupied, stats_list.
  rewrite (for_acc_skip (group_ppItems g) (stats_step h)); [by rewrite drop_0|].
  intros i a. by destruct (slot _ i).
Qed.

Lemma fold_groups_list h gs acc :
  stats_wf acc →
  fold_opt (λ a g, CuTestGetStats_Group h g ≫= λ sGroup, Some (stats_add a sGroup)) acc gs
  = stats_list h acc (gs ≫= group_cases).
Proof.
  revert acc. induction gs as [|g gs IH]; intros acc Hacc; [done|].
  simpl. rewrite CuTestGetStats_Group_list, (stats_list_from _ _ _ Hacc).
  rewrite stats_list_app.
  destruct (stats_list h acc (group_cases g)) as [a'|] eqn:Ha; simpl; [|done].
  apply IH. by eapply stats_list_wf.
Qed.

Lemma CuTestGetStats_Module_list h m :
  CuTestGetStats_Module h m = stats_list h stats_zero (module_cases m).
Proof.
  unfold CuTestGetStats_Module, module_cases, occupied.
  rewrite (for_acc_skip (module_ppItems m)
             (λ a g, CuTestGetStats_Group h g ≫= λ sGroup, Some (stats_add a sGroup))).
  - rewrite drop_0. apply fold_groups_list, stats_zero_wf.
  - intros i a. by destruct (slot _ i).
Qed.

(** The statistics of one root element, as the [switch] of [CuTestGetStats]
    selects them. *)
Lemma relem_stats_list h e acc :
  stats_wf acc →
  (match e with
   | RCase (Some psCase) => CuTestGetStats_Case h psCase
   | RGroup (Some psGroup) => CuTestGetStats_Group h psGroup
   | RModule (Some psModule) => CuTestGetStats_Module h psModule
   | _ => Some stats_zero
   end ≫= λ sItem, Some (stats_add acc sItem))
  = stats_list h acc (relem_cases e).
Proof.
  intros Hacc. destruct e as [[p|]|[g|]|[m|]]; simpl;
    rewrite ?CuTestGetStats_Group_list, ?CuTestGetStats_Module_list,
      ?(stats_list_from _ _ _ Hacc), ?(stats_add_zero _ Hacc); try done.
  unfold stats_list; simpl. unfold stats_step.
  by destruct (CuTestGetStats_Case h p).
Qed.

Lemma fold_relems_list h es acc :
  stats_wf acc →
  fold_opt (λ a e,
      match e with
      | RCase (Some psCase) => CuTestGetStats_Case h psCase
      | RGroup (Some psGroup) => CuTestGetStats_Group h psGroup
      | RModule (Some psModule) => CuTestGetStats_Module h psModule
      | _ => Some stats_zero
      end ≫= λ sItem, Some (stats_add a sItem)) acc es
  = stats_list h acc (es ≫= relem_cases).
Proof.
  revert acc. induction es as [|e es IH]; intros acc Hacc; [done|].
  cbn [fold_opt]. rewrite (relem_stats_list _ _ _ Hacc).
  change ((e :: es) ≫= relem_cases) with (relem_cases e ++ (es ≫= relem_cases))%list.
  rewrite stats_list_app.
  destruct (stats_list h acc (relem_cases e)) as [a'|] eqn:Ha; simpl; [|done].
  apply IH. by eapply stats_list_wf.
Qed.

(** [CuTestGetStats] answers inside its asserted contract and the bounds of
    the array, and then aggregates the cases of the run. *)
Lemma CuTestGetStats_list h r :
  CuTestGetStats h r =
    if decide (ulCount r < CUTEST_MAX_NUM_ROOT_ITEM ∧ ulCount r ≤ length (asItems r))%nat
    then stats_list h stats_zero (root_cases r) else None.
Proof.
  unfold CuTestGetStats, root_cases.
  destruct (decide (ulCount r < CUTEST_MAX_NUM_ROOT_ITEM)) as [Hlt|Hge].
  - rewrite option_guard_True by done. simpl.
    erewrite for_acc_array; [|intros i a; reflexivity].
    rewrite drop_0.
    destruct (decide (ulCount r ≤ length (asItems r))%nat).
    + rewrite decide_True by done.
      rewrite <- (fold_relems_list h _ stats_zero stats_zero_wf).
      f_equal.
    + by rewrite decide_False by tauto.
  - rewrite option_guard_False by done. simpl.
    by rewrite decide_False by tauto.
Qed.

(** *** Counting *)

Lemma count_result_cons h r p l :
  count_result h r (p :: l)
  = ((if decide (eResult <$> h !! p = Some r) then 1 else 0) + count_result h r l)%nat.
Proof.
  unfold count_result. rewrite filter_cons. by case_decide.
Qed.

Lemma count_result_le h r l : (count_result h r l ≤ length l)%nat.
Proof. unfold count_result. apply length_filter. Qed.

Lemma stats_list_counts h l acc st :
  stats_wf acc → stats_list h acc l = Some st →
  all_allocated h l
  ∧ ulTotal st = ulong (ulTotal acc + Z.of_nat (length l))
  ∧ ulPassed st = ulong (ulPassed acc + Z.of_nat (count_result h EN_CUTEST_RESULT_PASS l))
  ∧ ulFailed st = ulong (ulFailed acc + Z.of_nat (count_result h EN_CUTEST_RESULT_FAIL l)).
Proof.
  revert acc. induction l as [|p l IH]; intros acc Hacc.
  - intros [= <-]. destruct Hacc as (Ht & Hp & Hf).
    unfold count_result; simpl. rewrite !Z.add_0_r.
    repeat split; [constructor|done..].
  - rewrite stats_list_cons. unfold CuTestGetStats_Case.
    destruct (h !! p) as [c|] eqn:Hp; simpl; [|done].
    intros Hst. apply IH in Hst as (Hall & Ht & Hps & Hfl); [|apply stats_add_wf].
    simpl in Ht, Hps, Hfl. rewrite !count_result_cons, Hp. simpl.
    split; [constructor; [by rewrite Hp|done]|].
    rewrite Ht, Hps, Hfl. unfold ul_add.
    repeat split; unfold ulong; rewrite Zplus_mod_idemp_l; f_equal;
      destruct (eResult c); simpl; lia.
Qed.

Lemma count_results_total h l :
  all_allocated h l →
  (count_result h EN_CUTEST_RESULT_PASS l + count_result h EN_CUTEST_RESULT_FAIL l
   + count_result h EN_CUTEST_RESULT_UNDEF l = length l)%nat.
Proof.
  induction 1 as [|p l [c Hp] _ IH]; [done|].
  rewrite !count_result_cons, Hp. simpl.
  destruct (eResult c); simpl; lia.
Qed.

Lemma count_undef_zero h l :
  count_result h EN_CUTEST_RESULT_UNDEF l = 0%nat ↔ all_evaluated h l.
Proof.
  unfold all_evaluated. induction l as [|p l IH]; [by split; [constructor|]|].
  rewrite count_result_cons, Forall_cons. case_decide; split.
  - lia.
  - intros [? _]. done.
  - intros Hc. split; [done|]. apply IH. lia.
  - intros [_ Hl]. apply IH in Hl. lia.
Qed.

(** Below 2^32 cases the counters are the exact counts. *)
Lemma stats_list_exact h l st :
  (Z.of_nat (length l) < ULONG_MOD)%Z →
  stats_list h stats_zero l = Some st →
  ulTotal st = Z.of_nat (length l)
  ∧ ulPassed st = Z.of_nat (count_result h EN_CUTEST_RESULT_PASS l)
  ∧ ulFailed st = Z.of_nat (count_result h EN_CUTEST_RESULT_FAIL l)
  ∧ all_allocated h l.
Proof.
  intros Hlen Hst.
  apply stats_list_counts in Hst as (Hall & Ht & Hp & Hf); [|apply stats_zero_wf].
  simpl in Ht, Hp, Hf.
  pose proof (count_result_le h EN_CUTEST_RESULT_PASS l).
  pose proof (count_result_le h EN_CUTEST_RESULT_FAIL l).
  rewrite ulong_small in Ht, Hp, Hf by lia. done.
Qed.

Lemma stats_list_consistent h l st :
  (Z.of_nat (length l) < ULONG_MOD)%Z →
  stats_list h stats_zero l = Some st →
  stats_consistent h st l.
Proof.
  intros Hlen Hst.
  apply stats_list_exact in Hst as (Ht & Hp & Hf & Hall); [|done].
  pose proof (count_results_total h l Hall) as Hsum.
  unfold stats_consistent. rewrite Ht, Hp, Hf, <- count_undef_zero.
  split; [lia|]. split; lia.
Qed.

Lemma stats_list_total h l acc :
  all_allocated h l → is_Some (stats_list h acc l).
Proof.
  intros Hall. revert acc. induction Hall as [|p l [c Hp] _ IH]; intros acc; [by eexists|].
  rewrite stats_list_cons. unfold CuTestGetStats_Case. rewrite Hp. simpl. apply IH.
Qed.

(** *** How many cases a scan can reach *)

Lemma length_occupied {A} cap (items : list (option A)) :
  (length (occupied cap items) ≤ cap)%nat.
Proof.
  unfold occupied.
  assert (Hle : ∀ l : list (option A), (length (omap id l) ≤ length l)%nat).
  { induction l as [|[x|] l IH]; csimpl; lia. }
  etrans; [apply Hle|]. rewrite length_take. lia.
Qed.

Lemma length_group_cases g : (length (group_cases g) ≤ CUTEST_MAX_NUM_CASES)%nat.
Proof. apply length_occupied. Qed.

Lemma length_bind_le {A B} (f : A → list B) (l : list A) k :
  (∀ x, length (f x) ≤ k)%nat → (length (l ≫= f) ≤ length l * k)%nat.
Proof.
  intros Hf. induction l as [|x l IH]; [done|].
  change ((x :: l) ≫= f) with (f x ++ (l ≫= f))%list.
  rewrite length_app. specialize (Hf x). simpl. lia.
Qed.

Lemma length_module_cases m :
  (length (module_cases m) ≤ CUTEST_MAX_NUM_GROUPS * CUTEST_MAX_NUM_CASES)%nat.
Proof.
  unfold module_cases.
  etrans; [apply (length_bind_le _ _ CUTEST_MAX_NUM_CASES), length_group_cases|].
  apply Nat.mul_le_mono_r, length_occupied.
Qed.

Lemma length_relem_cases e :
  (length (relem_cases e) ≤ CUTEST_MAX_NUM_GROUPS * CUTEST_MAX_NUM_CASES)%nat.
Proof.
  assert (1 ≤ CUTEST_MAX_NUM_GROUPS)%nat by (unfold CUTEST_MAX_NUM_GROUPS; lia).
  assert (1 ≤ CUTEST_MAX_NUM_CASES)%nat by (unfold CUTEST_MAX_NUM_CASES; lia).
  destruct e as [[p|]|[g|]|[m|]]; cbn [relem_cases length]; try nia.
  - pose proof (length_group_cases g). nia.
  - apply length_module_cases.
Qed.

Lemma length_root_cases r :
  (length (root_cases r)
   ≤ ulCount r * (CUTEST_MAX_NUM_GROUPS * CUTEST_MAX_NUM_CASES))%nat.
Proof.
  unfold root_cases.
  etrans; [apply (length_bind_le _ _ _ length_relem_cases)|].
  apply Nat.mul_le_mono_r. rewrite length_take. lia.
Qed.

Lemma root_cases_small r :
  (ulCount r < CUTEST_MAX_NUM_ROOT_ITEM)%nat →
  (Z.of_nat (length (root_cases r)) < ULONG_MOD)%Z.
Proof.
  intros Hlt. pose proof (length_root_cases r) as Hle.
  change ULONG_MOD with 4294967296%Z.
  unfold CUTEST_MAX_NUM_ROOT_ITEM, CUTEST_MAX_NUM_GROUPS, CUTEST_MAX_NUM_CASES in *.
  nia.
Qed.

Lemma group_cases_small g : (Z.of_nat (length (group_cases g)) < ULONG_MOD)%Z.
Proof.
  pose proof (length_group_cases g) as Hle.
  change ULONG_MOD with 4294967296%Z. unfold CUTEST_MAX_NUM_CASES in *. lia.
Qed.

Lemma module_cases_small m : (Z.of_nat (length (module_cases m)) < ULONG_MOD)%Z.
Proof.
  pose proof (length_module_cases m) as Hle.
  change ULONG_MOD with 4294967296%Z.
  unfold CUTEST_MAX_NUM_GROUPS, CUTEST_MAX_NUM_CASES in *. lia.
Qed.

Lemma CuTestGetStats_Some h r st :
  CuTestGetStats h r = Some st →
  (ulCount r < CUTEST_MAX_NUM_ROOT_ITEM)%nat
  ∧ stats_list h stats_zero (root_cases r) = Some st.
Proof.
  rewrite CuTestGetStats_list. case_decide; [|done]. tauto.
Qed.

Lemma CuTestGetStats_Case_list h p :
  CuTestGetStats_Case h p = stats_list h stats_zero [p].
Proof.
  rewrite stats_list_cons. unfold CuTestGetStats_Case.
  destruct (h !! p) as [c|]; simpl; [|done].
  unfold stats_list; simpl. by destruct (eResult c).
Qed.

(** Inside its contract, and with every registered pointer designating a
    case object, the aggregator answers. *)
Lemma CuTestGetStats_total h r :
  (ulCount r < CUTEST_MAX_NUM_ROOT_ITEM)%nat →
  (ulCount r ≤ length (asItems r))%nat →
  all_allocated h (root_cases r) →
  is_Some (CuTestGetStats h r).
Proof.
  intros Hlt Hle Hall. rewrite CuTestGetStats_list, decide_True by done.
  by apply stats_list_total.
Qed.

(** ** Statistics and the overall result *)

(** C9: for every case, group, module and run, the statistics the aggregator
    computes satisfy [passed + failed <= total], with equality exactly when
    no counted case has the result [EN_CUTEST_RESULT_UNDEF]. *)
Theorem C9_stats_consistent (h : gmap addr cutest_case_t) :
  (∀ psCase st,
     CuTestGetStats_Case h psCase = Some st → stats_consistent h st [psCase])
  ∧ (∀ psGroup st,
       CuTestGetStats_Group h psGroup = Some st →
       stats_consistent h st (group_cases psGroup))
  ∧ (∀ psModule st,
       CuTestGetStats_Module h psModule = Some st →
       stats_consistent h st (module_cases psModule))
  ∧ (∀ psRoot st,
       CuTestGetStats h psRoot = Some st →
       stats_consistent h st (root_cases psRoot)).
Proof.
  split; [|split; [|split]].
  - intros p st. rewrite CuTestGetStats_Case_list.
    by apply stats_list_consistent.
  - intros g st. rewrite CuTestGetStats_Group_list.
    apply stats_list_consistent, group_cases_small.
  - intros m st. rewrite CuTestGetStats_Module_list.
    apply stats_list_consistent, module_cases_small.
  - intros r st [Hlt Hst]%CuTestGetStats_Some.
    by apply stats_list_consistent; [apply root_cases_small|].
Qed.

Lemma C9_witness :
  CuTestGetStats (cases main_after_run) main_root
    = Some {| ulTotal := 2; ulPassed := 1; ulFailed := 1 |}
  ∧ stats_consistent (cases main_after_run)
      {| ulTotal := 2; ulPassed := 1; ulFailed := 1 |} (root_cases main_root).
Proof.
  split; [vm_compute; reflexivity|].
  apply (proj2 (proj2 (proj2 (C9_stats_consistent (cases main_after_run)))) main_root).
  vm_compute; reflexivity.
Defined.

(** C2: the overall run result is [EN_CUTEST_RESULT_PASS] if and only if the
    statistics of the run have [passed = total]; a run that counts a case
    left at [EN_CUTEST_RESULT_UNDEF] yields [EN_CUTEST_RESULT_FAIL], whatever
    its failed count. *)
Theorem C2_run_result (h : gmap addr cutest_case_t) (psRoot : cutest_root_t) :
  (CuTest_GetRunResult h psRoot = Some EN_CUTEST_RESULT_PASS
   ↔ ∃ st, CuTestGetStats h psRoot = Some st ∧ ulPassed st = ulTotal st)
  ∧ (∀ st p c,
       CuTestGetStats h psRoot = Some st →
       p ∈ root_cases psRoot → h !! p = Some c →
       eResult c = EN_CUTEST_RESULT_UNDEF →
       CuTest_GetRunResult h psRoot = Some EN_CUTEST_RESULT_FAIL).
Proof.
  unfold CuTest_GetRunResult. split.
  - destruct (CuTestGetStats h psRoot) as [st|]; simpl.
    + case_decide; split; try done.
      * intros _. by exists st.
      * intros (st' & [= <-] & ?). done.
    + split; [done|]. by intros (? & ? & _).
  - intros st' p c Hst Hin Hp Hundef. rewrite Hst. simpl.
    apply CuTestGetStats_Some in Hst as [Hlt Hst].
    apply stats_list_exact in Hst as (Ht & Hps & Hfl & Hall);
      [|by apply root_cases_small].
    pose proof (count_results_total h _ Hall) as Hsum.
    assert (count_result h EN_CUTEST_RESULT_UNDEF (root_cases psRoot) ≠ 0%nat) as Hne.
    { rewrite count_undef_zero. unfold all_evaluated. rewrite Forall_forall.
      intros Hev. apply (Hev p Hin). by rewrite Hp, <- Hundef. }
    rewrite decide_False by lia. done.
Qed.

Lemma C2_witness :
  CuTestGetStats (cases main_start) main_root
    = Some {| ulTotal := 2; ulPassed := 0; ulFailed := 0 |}
  ∧ CuTest_GetRunResult (cases main_start) main_root = Some EN_CUTEST_RESULT_FAIL.
Proof.
  split; [vm_compute; reflexivity|].
  apply (proj2 (C2_run_result (cases main_start) main_root)
           {| ulTotal := 2; ulPassed := 0; ulFailed := 0 |}
           TEST_Module_MyGroup_Case1 _TEST_Module_MyGroup_Case1__TestCase).
  - vm_compute; reflexivity.
  - vm_compute. apply list_elem_of_here.
  - vm_compute; reflexivity.
  - reflexivity.
Defined.

(** C10: for a run with no registered item the statistics are all zero,
    [CuTest_GetRunResult] answers [EN_CUTEST_RESULT_PASS], and
    [GET_RUN_RESULT] gives the success exit code. *)
Theorem C10_empty_run (h : gmap addr cutest_case_t) (psRoot : cutest_root_t) :
  ulCount psRoot = 0%nat →
  CuTestGetStats h psRoot = Some stats_zero
  ∧ CuTest_GetRunResult h psRoot = Some EN_CUTEST_RESULT_PASS
  ∧ GET_RUN_RESULT h psRoot = Some EXIT_SUCCESS.
Proof.
  intros Hcount.
  assert (CuTestGetStats h psRoot = Some stats_zero) as Hst.
  { rewrite CuTestGetStats_list, Hcount.
    rewrite decide_True by (unfold CUTEST_MAX_NUM_ROOT_ITEM; lia).
    unfold root_cases. by rewrite Hcount, take_0. }
  assert (CuTest_GetRunResult h psRoot = Some EN_CUTEST_RESULT_PASS) as Hres.
  { unfold CuTest_GetRunResult. by rewrite Hst. }
  repeat split; [done..|].
  unfold GET_RUN_RESULT. by rewrite Hres.
Qed.

Lemma C10_witness :
  CuTestGetStats (cases main_start) (BEGIN_TEST_RUN "Unnamed Project") = Some stats_zero
  ∧ CuTest_GetRunResult (cases main_start) (BEGIN_TEST_RUN "Unnamed Project")
    = Some EN_CUTEST_RESULT_PASS
  ∧ GET_RUN_RESULT (cases main_start) (BEGIN_TEST_RUN "Unnamed Project")
    = Some EXIT_SUCCESS.
Proof.
  apply (C10_empty_run (cases main_start) (BEGIN_TEST_RUN "Unnamed Project")).
  reflexivity.
Defined.

(** ** The case runner and the boolean assertion *)

Lemma set_cases_set_cases h1 h2 s : set_cases h2 (set_cases h1 s) = set_cases h2 s.
Proof. done. Qed.

Lemma record_failure_Some psTc formatted pszFile ulLine s c :
  cases s !! psTc = Some c →
  record_failure psTc formatted pszFile ulLine s
  = (Ret tt,
     set_cases
       (<[psTc := set_ulMsgLine ulLine
                    (set_pszMsgFile pszFile
                       (set_acMessage (snprintf CUTEST_MAX_LEN_MESSAGE formatted) c))]>
          (cases s)) s).
Proof.
  intros Hc. unfold record_failure.
  erewrite bind_Ret; [|by apply modify_Some].
  erewrite bind_Ret; [|apply modify_Some; apply lookup_insert_eq].
  erewrite modify_Some; [|apply lookup_insert_eq].
  by rewrite !set_cases_set_cases, !cases_set_cases, !insert_insert_eq.
Qed.

(** Every evaluation function fails in the same way. *)
Lemma fail_with psTc formatted pszFile ulLine s c {A} :
  cases s !! psTc = Some c →
  (record_failure psTc formatted pszFile ulLine;; CuTestAssertFailed (A:=A) psTc) s
  = (LongJmp psTc,
     set_cases (<[psTc := failed_case formatted pszFile ulLine c]> (cases s)) s).
Proof.
  intros Hc.
  erewrite bind_Ret; [|by apply record_failure_Some].
  unfold CuTestAssertFailed.
  erewrite bind_Ret; [|apply modify_Some; apply lookup_insert_eq].
  unfold longjmp, failed_case.
  by rewrite !set_cases_set_cases, !cases_set_cases, !insert_insert_eq.
Qed.

Lemma pass_with psTc s c :
  cases s !! psTc = Some c →
  CuTestAssertPassed psTc s
  = (Ret tt, set_cases (<[psTc := set_eResult EN_CUTEST_RESULT_PASS c]> (cases s)) s).
Proof. apply modify_Some. Qed.

Lemma string_take_all n s : (String.length s ≤ n)%nat → string_take n s = s.
Proof.
  revert n. induction s as [|ch s IH]; intros [|n] Hlen; simpl in *; try done; try lia.
  rewrite IH; [done|lia].
Qed.

Lemma c_str_has_text m :
  m ≠ "" → c_str m = m → has_text (Some m) = true.
Proof.
  destruct m as [|ch m]; [done|]. intros _. simpl.
  destruct (Ascii.eqb ch Ascii.zero); [done|]. done.
Qed.

(** C3, amended: a true condition sets the result to
    [EN_CUTEST_RESULT_PASS] and returns to the caller; a false condition sets
    it to [EN_CUTEST_RESULT_FAIL], stores the first 255 characters of the
    supplied message when it has text (the whole message when it is shorter
    than the buffer) and [assert failed.] otherwise, records the source
    location, and leaves through [longjmp]: whatever follows the assertion in
    the test function is not executed, and the [setjmp] of the runner
    resumes. *)
Theorem C3_boolean_assert (psTc : addr) (pszFile : string) (ulLine : Z)
    (pszMessage : option string) (s : machine) (c : cutest_case_t) :
  cases s !! psTc = Some c →
  let formatted :=
    if has_text pszMessage then c_str (default "" pszMessage) else "assert failed." in
  let failed :=
    set_cases (<[psTc := failed_case formatted pszFile ulLine c]> (cases s)) s in
  CuTest_EvalAssert psTc pszFile ulLine true pszMessage s
    = (Ret tt, set_cases (<[psTc := set_eResult EN_CUTEST_RESULT_PASS c]> (cases s)) s)
  ∧ CuTest_EvalAssert psTc pszFile ulLine false pszMessage s = (LongJmp psTc, failed)
  ∧ (∀ rest : unit → M unit,
       (CuTest_EvalAssert psTc pszFile ulLine false pszMessage ≫= rest) s
         = (LongJmp psTc, failed)
       ∧ setjmp psTc (CuTest_EvalAssert psTc pszFile ulLine false pszMessage ≫= rest) s
         = (Ret tt, failed))
  ∧ eResult (failed_case formatted pszFile ulLine c) = EN_CUTEST_RESULT_FAIL
  ∧ pszMsgFile (failed_case formatted pszFile ulLine c) = pszFile
  ∧ ulMsgLine (failed_case formatted pszFile ulLine c) = ulLine
  ∧ acMessage (failed_case formatted pszFile ulLine c) = string_take 255 formatted
  ∧ (∀ m, pszMessage = Some m → m ≠ "" → c_str m = m →
          (String.length m < CUTEST_MAX_LEN_MESSAGE)%nat →
          acMessage (failed_case formatted pszFile ulLine c) = m)
  ∧ (has_text pszMessage = false →
     acMessage (failed_case formatted pszFile ulLine c) = "assert failed.").
Proof.
  intros Hc formatted failed.
  assert (CuTest_EvalAssert psTc pszFile ulLine false pszMessage s = (LongJmp psTc, failed))
    as Hfail.
  { unfold CuTest_EvalAssert.
    erewrite bind_Ret; [|by apply deref_Some]. by apply fail_with. }
  split; [|split; [done|split; [|repeat split]]].
  - unfold CuTest_EvalAssert.
    erewrite bind_Ret; [|by apply deref_Some]. by apply pass_with.
  - intros rest. split.
    + by apply bind_LongJmp.
    + unfold setjmp. erewrite bind_LongJmp by done. by rewrite decide_True.
  - intros m -> Hne Hcstr Hlen.
    change (acMessage (failed_case formatted pszFile ulLine c))
      with (string_take 255 formatted).
    unfold formatted. rewrite c_str_has_text by done.
    cbn [default id]. rewrite Hcstr.
    apply string_take_all. unfold CUTEST_MAX_LEN_MESSAGE in *. lia.
  - intros Htext.
    change (acMessage (failed_case formatted pszFile ulLine c))
      with (string_take 255 formatted).
    unfold formatted. by rewrite Htext.
Qed.

Lemma C3_witness :
  CuFail TEST_Module_MyGroup_Case2 "main.c" 28 "always fails" main_start
  = (LongJmp TEST_Module_MyGroup_Case2,
     set_cases
       (<[TEST_Module_MyGroup_Case2 :=
            failed_case "always fails" "main.c" 28 _TEST_Module_MyGroup_Case2__TestCase]>
          (cases main_start)) main_start).
Proof.
  apply (C3_boolean_assert TEST_Module_MyGroup_Case2 "main.c" 28 (Some "always fails")
           main_start _TEST_Module_MyGroup_Case2__TestCase).
  vm_compute; reflexivity.
Defined.

(** C3 as stated fails: a supplied message longer than the buffer is not
    stored verbatim. *)
Lemma C3_counterexample :
  acMessage <$>
    cases (CuFail TEST_Module_MyGroup_Case2 "main.c" 28 long_message main_start).2
      !! TEST_Module_MyGroup_Case2
  = Some (string_take 255 long_message)
  ∧ string_take 255 long_message ≠ long_message.
Proof. split; [vm_compute; reflexivity|]. vm_compute. discriminate. Qed.

(** C7: the case runner resets the result to [EN_CUTEST_RESULT_UNDEF] and
    clears the message buffer before it invokes the test function; so a test
    function that returns without having touched the case object (one that
    calls no assertion) leaves the result at [EN_CUTEST_RESULT_UNDEF],
    whatever the case object held before the run. *)
Theorem C7_runner_resets (text : fn_ptr → option (addr → M unit)) (psTc : addr)
    (s : machine) (c : cutest_case_t) (fn : fn_ptr) (pfv : addr → M unit) :
  cases s !! psTc = Some c → pfvTestFn c = Some fn → text fn = Some pfv →
  CuTest_RunTestCase text psTc s
    = (setjmp psTc (pfv psTc);;
       c' ← deref psTc;
       if bPrintResult c' then print_case_result c' else mret tt) (reset_case psTc c s)
  ∧ eResult <$> cases (reset_case psTc c s) !! psTc = Some EN_CUTEST_RESULT_UNDEF
  ∧ acMessage <$> cases (reset_case psTc c s) !! psTc = Some ""
  ∧ (∀ s2,
       pfv psTc (reset_case psTc c s) = (Ret tt, s2) →
       cases s2 !! psTc = cases (reset_case psTc c s) !! psTc →
       ∃ s3, CuTest_RunTestCase text psTc s = (Ret tt, s3)
             ∧ eResult <$> cases s3 !! psTc = Some EN_CUTEST_RESULT_UNDEF
             ∧ acMessage <$> cases s3 !! psTc = Some "").
Proof.
  intros Hc Hfn Htext.
  assert (CuTest_RunTestCase text psTc s
    = (setjmp psTc (pfv psTc);;
       c' ← deref psTc;
       if bPrintResult c' then print_case_result c' else mret tt) (reset_case psTc c s))
    as Hrun.
  { unfold CuTest_RunTestCase.
    erewrite bind_Ret; [|by apply deref_Some].
    rewrite Hfn. simpl. rewrite Htext.
    erewrite bind_Ret; [|reflexivity].
    erewrite bind_Ret; [|by apply modify_Some].
    erewrite bind_Ret; [|apply modify_Some; apply lookup_insert_eq].
    unfold reset_case.
    by rewrite !set_cases_set_cases, !cases_set_cases, !insert_insert_eq. }
  assert (cases (reset_case psTc c s) !! psTc
          = Some (set_acMessage "" (set_eResult EN_CUTEST_RESULT_UNDEF c))) as Hreset.
  { unfold reset_case. rewrite cases_set_cases. apply lookup_insert_eq. }
  split; [done|]. rewrite Hreset. split; [done|]. split; [done|].
  intros s2 Hpfv Hsame. rewrite Hrun.
  erewrite bind_Ret; [|unfold setjmp; by rewrite Hpfv].
  erewrite bind_Ret; [|by apply deref_Some].
  simpl. destruct (bPrintResult c).
  - eexists. split; [reflexivity|]. simpl. by rewrite Hsame.
  - eexists. split; [reflexivity|]. by rewrite Hsame.
Qed.

Lemma C7_witness :
  ∃ s3,
    CuTest_RunTestCase (λ _, Some (λ _, mret tt)) TEST_Module_MyGroup_Case2 main_after_run
      = (Ret tt, s3)
    ∧ eResult <$> cases main_after_run !! TEST_Module_MyGroup_Case2
      = Some EN_CUTEST_RESULT_FAIL
    ∧ eResult <$> cases s3 !! TEST_Module_MyGroup_Case2 = Some EN_CUTEST_RESULT_UNDEF.
Proof.
  destruct (C7_runner_resets (λ _, Some (λ _, mret tt)) TEST_Module_MyGroup_Case2
              main_after_run
              (failed_case "always fails" "main.c" 28 _TEST_Module_MyGroup_Case2__TestCase)
              2%positive (λ _, mret tt)) as (_ & _ & _ & Hrun).
  - vm_compute; reflexivity.
  - reflexivity.
  - reflexivity.
  - destruct (Hrun _ eq_refl eq_refl) as (s3 & Hs3 & Hres & _).
    exists s3. split; [done|]. split; [vm_compute; reflexivity|done].
Defined.




(** ** The scans of the slot arrays *)

Lemma bind_cong_l {A B} (m1 m2 : M A) (k : A → M B) s :
  m1 s = m2 s → (m1 ≫= k) s = (m2 ≫= k) s.
Proof. intros H. unfold mbind, M_bind. by rewrite H. Qed.


Ltac loop_body :=
  let i := fresh "i" in let a := fresh "a" in let s := fresh "s" in
  intros i a s; destruct (slot _ i); [|by destruct a];
  unfold mbind, M_bind;
  match goal with |- context [?m s] => destruct (m s) as [[[]| |] ?] end;
  by try destruct a.

Lemma CuTest_RunTestGroup_occupied text g s :
  CuTest_RunTestGroup text g s
  = iterM (λ _ p, CuTest_RunTestCase text p) tt
      (occupied CUTEST_MAX_NUM_CASES (group_ppItems g)) s.
Proof.
  unfold CuTest_RunTestGroup, occupied.
  rewrite (for_loop_skip (group_ppItems g) (λ _ p, CuTest_RunTestCase text p));
    [by rewrite drop_0|loop_body].
Qed.

Lemma CuTest_RunTestModule_occupied text m s :
  CuTest_RunTestModule text m s
  = iterM (λ _ g, CuTest_RunTestGroup text g) tt
      (occupied CUTEST_MAX_NUM_GROUPS (module_ppItems m)) s.
Proof.
  unfold CuTest_RunTestModule, occupied.
  rewrite (for_loop_skip (module_ppItems m) (λ _ g, CuTest_RunTestGroup text g));
    [by rewrite drop_0|loop_body].
Qed.

Lemma CuTestPrintSummaryTape_Group_packed g s :
  CuTestPrintSummaryTape_Group g s
  = iterM (λ _ p, CuTestPrintSummaryTape_Case p) tt
      (packed_prefix (take CUTEST_MAX_NUM_CASES (group_ppItems g))) s.
Proof.
  unfold CuTestPrintSummaryTape_Group.
  rewrite (for_loop_break (group_ppItems g) (λ _ p, CuTestPrintSummaryTape_Case p));
    [by rewrite drop_0|loop_body].
Qed.

Lemma CuTestPrintSummaryTape_Module_packed m s :
  CuTestPrintSummaryTape_Module m s
  = iterM (λ _ g, CuTestPrintSummaryTape_Group g) tt
      (packed_prefix (take CUTEST_MAX_NUM_GROUPS (module_ppItems m))) s.
Proof.
  unfold CuTestPrintSummaryTape_Module.
  rewrite (for_loop_break (module_ppItems m) (λ _ g, CuTestPrintSummaryTape_Group g));
    [by rewrite drop_0|loop_body].
Qed.

Lemma CuTestPrintDetails_Group_occupied ulNum g s :
  CuTestPrintDetails_Group ulNum g s
  = iterM CuTestPrintDetails_Case ulNum
      (occupied CUTEST_MAX_NUM_CASES (group_ppItems g)) s.
Proof.
  unfold CuTestPrintDetails_Group, occupied.
  rewrite (for_loop_skip (group_ppItems g) CuTestPrintDetails_Case);
    [by rewrite drop_0|].
  intros i a s'. by destruct (slot _ i).
Qed.

Lemma CuTestPrintDetails_Module_occupied ulNum m s :
  CuTestPrintDetails_Module ulNum m s
  = iterM CuTestPrintDetails_Group ulNum
      (occupied CUTEST_MAX_NUM_GROUPS (module_ppItems m)) s.
Proof.
  unfold CuTestPrintDetails_Module, occupied.
  rewrite (for_loop_skip (module_ppItems m) CuTestPrintDetails_Group);
    [by rewrite drop_0|].
  intros i a s'. by destruct (slot _ i).
Qed.

Lemma CuTestGenerateReport_Group_occupied f ulNum g s :
  CuTestGenerateReport_Group f ulNum g s
  = (fprintf f ("<h3>" +:+ c_str (group_pszName g) +:+ "</h3>");;
     CuTestGenerateReport_CaseHeader f;;
     ulNum ← iterM (CuTestGenerateReport_CaseLine f) ulNum
               (occupied CUTEST_MAX_NUM_CASES (group_ppItems g));
     CuTestGenerateReport_CaseFooter f;;
     mret ulNum) s.
Proof.
  unfold CuTestGenerateReport_Group, occupied.
  apply bind_ext; intros _ s1. apply bind_ext; intros _ s2. apply bind_cong_l.
  rewrite (for_loop_skip (group_ppItems g) (CuTestGenerateReport_CaseLine f));
    [by rewrite drop_0|].
  intros i a s'. by destruct (slot _ i).
Qed.

Lemma CuTestGenerateReport_Module_occupied f ulNum m s :
  CuTestGenerateReport_Module f ulNum m s
  = (fprintf f ("<h2>" +:+ c_str (module_pszName m) +:+ "</h2>");;
     iterM (CuTestGenerateReport_Group f) ulNum
       (occupied CUTEST_MAX_NUM_GROUPS (module_ppItems m))) s.
Proof.
  unfold CuTestGenerateReport_Module, occupied.
  apply bind_ext; intros _ s1.
  rewrite (for_loop_skip (module_ppItems m) (CuTestGenerateReport_Group f));
    [by rewrite drop_0|].
  intros i a s'. by destruct (slot _ i).
Qed.

(** An occupied slot inside the capacity is among the visited ones, whatever
    precedes it. *)
Lemma elem_of_occupied {A} cap (items : list (option A)) j x :
  (j < cap)%nat → items !! j = Some (Some x) → x ∈ occupied cap items.
Proof.
  intros Hj Hx. unfold occupied. apply list_elem_of_omap.
  exists (Some x). split; [|done].
  apply list_elem_of_lookup. exists j. by rewrite lookup_take_lt.
Qed.

(** On a prefix-packed array the two scans visit the same slots. *)
Lemma packed_prefix_occupied {A} cap (items : list (option A)) :
  (∀ i j, (i < j)%nat → slot items i = None → slot items j = None) →
  packed_prefix (take cap items) = occupied cap items.
Proof.
  unfold occupied. revert cap. induction items as [|[x|] items IH]; intros cap Hp.
  - by rewrite take_nil.
  - destruct cap as [|cap]; [done|]. simpl. csimpl. f_equal. apply IH.
    intros i j Hij Hi. apply (Hp (S i) (S j)); [lia|done].
  - destruct cap as [|cap]; [done|]. simpl. csimpl.
    assert (∀ j, items !! j = None ∨ items !! j = Some None) as Hnone.
    { intros j. specialize (Hp 0%nat (S j) ltac:(lia) eq_refl).
      unfold slot in Hp. simpl in Hp. destruct (items !! j) as [[y|]|]; auto. done. }
    clear -Hnone. revert cap. induction items as [|o items IH]; intros cap.
    + by rewrite take_nil.
    + destruct cap as [|cap]; [done|]. simpl. csimpl.
      destruct (Hnone 0%nat) as [?|[= ->]]; [done|].
      apply IH. intros j. apply (Hnone (S j)).
Qed.

(** C1, amended: the group runner, the statistics aggregator, the detail
    listing and the HTML report scan the whole capacity of a group and skip
    its empty slots, so they run, count and report every occupied slot, also
    one that follows an empty slot; the module runner, aggregator, listing
    and report do the same with the groups of a module.  The summary tape
    alone stops at the first empty slot.  On a prefix-packed array the two
    scans visit the same slots. *)
Theorem C1_scans_skip_empty_slots (text : fn_ptr → option (addr → M unit))
    (h : gmap addr cutest_case_t) (psGroup : cutest_group_t)
    (psModule : cutest_module_t) (f : string) (ulNum : Z) (s : machine) :
  let cases_visited := occupied CUTEST_MAX_NUM_CASES (group_ppItems psGroup) in
  let groups_visited := occupied CUTEST_MAX_NUM_GROUPS (module_ppItems psModule) in
  (CuTestGetStats_Group h psGroup = stats_list h stats_zero cases_visited
   ∧ CuTest_RunTestGroup text psGroup s
     = iterM (λ _ p, CuTest_RunTestCase text p) tt cases_visited s
   ∧ CuTestPrintDetails_Group ulNum psGroup s
     = iterM CuTestPrintDetails_Case ulNum cases_visited s
   ∧ CuTestGenerateReport_Group f ulNum psGroup s
     = (fprintf f ("<h3>" +:+ c_str (group_pszName psGroup) +:+ "</h3>");;
        CuTestGenerateReport_CaseHeader f;;
        ulNum ← iterM (CuTestGenerateReport_CaseLine f) ulNum cases_visited;
        CuTestGenerateReport_CaseFooter f;;
        mret ulNum) s
   ∧ CuTestPrintSummaryTape_Group psGroup s
     = iterM (λ _ p, CuTestPrintSummaryTape_Case p) tt
         (packed_prefix (take CUTEST_MAX_NUM_CASES (group_ppItems psGroup))) s)
  ∧ (CuTestGetStats_Module h psModule
     = stats_list h stats_zero (groups_visited ≫= group_cases)
     ∧ CuTest_RunTestModule text psModule s
       = iterM (λ _ g, CuTest_RunTestGroup text g) tt groups_visited s
     ∧ CuTestPrintDetails_Module ulNum psModule s
       = iterM CuTestPrintDetails_Group ulNum groups_visited s
     ∧ CuTestGenerateReport_Module f ulNum psModule s
       = (fprintf f ("<h2>" +:+ c_str (module_pszName psModule) +:+ "</h2>");;
          iterM (CuTestGenerateReport_Group f) ulNum groups_visited) s
     ∧ CuTestPrintSummaryTape_Module psModule s
       = iterM (λ _ g, CuTestPrintSummaryTape_Group g) tt
           (packed_prefix (take CUTEST_MAX_NUM_GROUPS (module_ppItems psModule))) s)
  ∧ (∀ j p, (j < CUTEST_MAX_NUM_CASES)%nat →
            group_ppItems psGroup !! j = Some (Some p) → p ∈ cases_visited)
  ∧ (∀ j g, (j < CUTEST_MAX_NUM_GROUPS)%nat →
            module_ppItems psModule !! j = Some (Some g) → g ∈ groups_visited)
  ∧ ((∀ i j, (i < j)%nat → slot (group_ppItems psGroup) i = None →
             slot (group_ppItems psGroup) j = None) →
     packed_prefix (take CUTEST_MAX_NUM_CASES (group_ppItems psGroup)) = cases_visited).
Proof.
  intros cases_visited groups_visited.
  split; [|split; [|split; [|split]]].
  - split; [apply CuTestGetStats_Group_list|].
    split; [apply CuTest_RunTestGroup_occupied|].
    split; [apply CuTestPrintDetails_Group_occupied|].
    split; [apply CuTestGenerateReport_Group_occupied|].
    apply CuTestPrintSummaryTape_Group_packed.
  - split; [apply CuTestGetStats_Module_list|].
    split; [apply CuTest_RunTestModule_occupied|].
    split; [apply CuTestPrintDetails_Module_occupied|].
    split; [apply CuTestGenerateReport_Module_occupied|].
    apply CuTestPrintSummaryTape_Module_packed.
  - intros j p. apply elem_of_occupied.
  - intros j g. apply elem_of_occupied.
  - apply packed_prefix_occupied.
Qed.

Lemma C1_witness :
  TEST_Module_MyGroup_Case1 ∈ occupied CUTEST_MAX_NUM_CASES (group_ppItems GroupWithHole).
Proof.
  apply (proj1 (proj2 (proj2
           (C1_scans_skip_empty_slots main_text (cases main_start) GroupWithHole
              ModuleWithHole "report.html" 0 main_start))) 1%nat).
  - unfold CUTEST_MAX_NUM_CASES. lia.
  - reflexivity.
Defined.

(** C1 as stated fails: the second slot of [GroupWithHole] follows an empty
    slot, and its case is counted by the aggregator, run by the group runner
    (its result goes from undefined to passed and its line is printed) and
    listed in the details. *)
Lemma C1_counterexample :
  slot (group_ppItems GroupWithHole) 0 = None
  ∧ slot (group_ppItems GroupWithHole) 1 = Some TEST_Module_MyGroup_Case1
  ∧ CuTestGetStats_Group (cases main_start) GroupWithHole
    = Some {| ulTotal := 1; ulPassed := 0; ulFailed := 0 |}
  ∧ eResult <$> cases main_start !! TEST_Module_MyGroup_Case1
    = Some EN_CUTEST_RESULT_UNDEF
  ∧ eResult <$> cases (CuTest_RunTestGroup main_text GroupWithHole main_start).2
                  !! TEST_Module_MyGroup_Case1
    = Some EN_CUTEST_RESULT_PASS
  ∧ stdout (CuTest_RunTestGroup main_text GroupWithHole main_start).2
    = "main.c:21:0: info: TEST_Module_MyGroup_Case1 passed." +:+ LF
  ∧ stdout (CuTestPrintDetails_Group 0 GroupWithHole main_start).2
    = TAB +:+ "1) TEST_Module_MyGroup_Case1 -- main.c:21: not evaluated" +:+ LF
  ∧ stdout (CuTestPrintSummaryTape_Group GroupWithHole main_start).2 = "".
Proof. repeat split; vm_compute; reflexivity. Qed.

(** C4: the code prints the two lines of a failed case with a blank after
    each newline, so the second line starts with a blank and a blank is left
    at the start of whatever is printed next: the output is not the two lines
    [file:line:0: error: name failed.] and [file:line:0: error: message], and
    the line of a passed case that runs next starts with that blank. *)
Theorem C4_failed_case_output :
  stdout (CuTest_RunTestCase main_text TEST_Module_MyGroup_Case2 main_start).2
  = "main.c:26:0: error: TEST_Module_MyGroup_Case2 failed." +:+ LF
    +:+ " main.c:28:0: error: always fails" +:+ LF +:+ " "
  ∧ stdout (CuTest_RunTestCase main_text TEST_Module_MyGroup_Case2 main_start).2
    ≠ "main.c:26:0: error: TEST_Module_MyGroup_Case2 failed." +:+ LF
      +:+ "main.c:28:0: error: always fails" +:+ LF
  ∧ stdout (CuTest_RunTestGroup main_text FailingFirst main_start).2
    = "main.c:26:0: error: TEST_Module_MyGroup_Case2 failed." +:+ LF
      +:+ " main.c:28:0: error: always fails" +:+ LF
      +:+ " main.c:21:0: info: TEST_Module_MyGroup_Case1 passed." +:+ LF
  ∧ stdout (CuTest_RunTestCase main_text TEST_Module_MyGroup_Case1 main_start).2
    = "main.c:21:0: info: TEST_Module_MyGroup_Case1 passed." +:+ LF.
Proof.
  split; [vm_compute; reflexivity|].
  split; [vm_compute; discriminate|].
  split; vm_compute; reflexivity.
Qed.

(** ** The formatted numbers read back *)

Lemma read_digits_app value base acc s1 s2 :
  read_digits value base acc (s1 +:+ s2)
  = read_digits value base (read_digits value base acc s1) s2.
Proof. revert acc. induction s1 as [|c s1 IH]; intros acc; simpl; [done|]. apply IH. Qed.

Lemma digit_value_char d : (d < 10)%N → digit_value (digit_char d) = d.
Proof.
  intros Hd. unfold digit_value, digit_char.
  rewrite N_ascii_embedding by lia. lia.
Qed.

Lemma dec_digits_reads fuel n acc :
  (n < 10 ^ N.of_nat fuel)%N →
  ∃ digits k,
    dec_digits fuel n acc = digits +:+ acc
    ∧ ∀ v, read_digits digit_value 10 v digits = (v * 10 ^ k + n)%N.
Proof.
  revert n acc. induction fuel as [|fuel IH]; intros n acc Hn.
  - exists "", 0%N. split; [done|]. intros v. simpl in *. lia.
  - cbn [dec_digits]. pose proof (N.mod_lt n 10 ltac:(lia)) as Hmod.
    destruct (n / 10 =? 0)%N eqn:Hq.
    + apply N.eqb_eq in Hq. exists (String (digit_char (n mod 10)) ""), 1%N.
      split; [done|]. intros v. cbn [read_digits].
      rewrite digit_value_char by done.
      pose proof (N.div_mod n 10 ltac:(lia)). lia.
    + assert (n / 10 < 10 ^ N.of_nat fuel)%N as Hdiv.
      { apply N.Div0.div_lt_upper_bound.
        rewrite Nat2N.inj_succ, N.pow_succ_r' in Hn. lia. }
      destruct (IH (n / 10)%N (String (digit_char (n mod 10)) acc) Hdiv)
        as (digits & k & Hdigits & Hread).
      exists (digits +:+ String (digit_char (n mod 10)) ""), (k + 1)%N. split.
      * rewrite Hdigits. clear.
        induction digits as [|c digits IHd]; [done|].
        change (String c (digits +:+ String (digit_char (n mod 10)) acc)
                = String c ((digits +:+ String (digit_char (n mod 10)) "") +:+ acc)).
        by f_equal.
      * intros v. rewrite read_digits_app, Hread. cbn [read_digits].
        rewrite digit_value_char by done.
        pose proof (N.div_mod n 10 ltac:(lia)).
        rewrite N.pow_add_r. lia.
Qed.

(** [%ld] prints the decimal digits of a value below 2^31. *)
Lemma fmt_ld_reads z :
  (0 ≤ z < 2 ^ 31)%Z → read_digits digit_value 10 0 (fmt_ld z) = Z.to_N z.
Proof.
  intros Hz. unfold fmt_ld, as_long.
  rewrite ulong_small by (change ULONG_MOD with 4294967296%Z; lia).
  change (2 ^ (ULONG_BITS - 1))%Z with 2147483648%Z.
  destruct (Z.ltb_spec z 2147483648); [|lia].
  destruct (Z.ltb_spec z 0); [lia|].
  unfold fmt_lu.
  destruct (dec_digits_reads 10 (Z.to_N z) "") as (digits & k & Hdigits & Hread).
  { change (10 ^ N.of_nat 10)%N with 10000000000%N. lia. }
  rewrite Hdigits, read_digits_app, Hread. simpl. lia.
Qed.

(** [%02X] prints the two hexadecimal digits of a byte. *)
Lemma fmt_02X_reads b : read_digits hex_value 16 0 (fmt_02X b) = Byte.to_N b.
Proof. by destruct b. Qed.

(** ** The byte-buffer assertion *)

Lemma for_loop_all_continue {A} (body : nat → A → M (bool * A)) a s n i :
  (∀ j, (i ≤ j < i + n)%nat → body j a s = (Ret (true, a), s)) →
  for_loop n i body a s = (Ret a, s).
Proof.
  revert i. induction n as [|n IH]; intros i Hbody; [done|].
  simpl. erewrite bind_Ret; [|apply Hbody; lia]. simpl.
  apply IH. intros j Hj. apply Hbody. lia.
Qed.

Lemma for_loop_first_exit {A} (body : nat → A → M (bool * A)) a s env s' n i k :
  (i ≤ k < i + n)%nat →
  (∀ j, (i ≤ j < k)%nat → body j a s = (Ret (true, a), s)) →
  body k a s = (LongJmp env, s') →
  for_loop n i body a s = (LongJmp env, s').
Proof.
  revert i. induction n as [|n IH]; intros i Hk Hbefore Hexit; [lia|].
  simpl. destruct (decide (i = k)) as [->|Hne].
  - by erewrite bind_LongJmp.
  - erewrite bind_Ret; [|apply Hbefore; lia]. simpl.
    apply IH; [lia| |done]. intros j Hj. apply Hbefore. lia.
Qed.

Lemma take_eq_lookup {A} (l1 l2 : list A) n j :
  take n l1 = take n l2 → (j < n)%nat → l1 !! j = l2 !! j.
Proof.
  intros Heq Hj.
  by rewrite <- (lookup_take_lt l1 n j), <- (lookup_take_lt l2 n j), Heq by done.
Qed.

Lemma dec_digits_length fuel n acc :
  (String.length (dec_digits fuel n acc) ≤ fuel + String.length acc)%nat.
Proof.
  revert n acc. induction fuel as [|fuel IH]; intros n acc; simpl; [lia|].
  destruct (n / 10 =? 0)%N; simpl; [lia|].
  etrans; [apply IH|]. simpl. lia.
Qed.

Lemma append_length (s1 s2 : string) :
  String.length (s1 +:+ s2) = (String.length s1 + String.length s2)%nat.
Proof. induction s1 as [|ch s1 IH]; simpl; [done|]. by rewrite IH. Qed.

Lemma fmt_lu_length n : (String.length (fmt_lu n) ≤ 10)%nat.
Proof.
  unfold fmt_lu. etrans; [apply dec_digits_length|].
  change (String.length "") with 0%nat. lia.
Qed.

Lemma fmt_ld_length z : (String.length (fmt_ld z) ≤ 11)%nat.
Proof.
  unfold fmt_ld. destruct (as_long z <? 0)%Z.
  - rewrite append_length. change (String.length "-") with 1%nat.
    pose proof (fmt_lu_length (Z.to_N (- as_long z))). lia.
  - pose proof (fmt_lu_length (Z.to_N (as_long z))). lia.
Qed.

(** The mismatch message always fits the message buffer. *)
Lemma mismatch_message_fits k x y :
  snprintf CUTEST_MAX_LEN_MESSAGE
    ("mismatch at offset <" +:+ fmt_ld k +:+ ">: expected <0x" +:+ fmt_02X x
     +:+ ">, but was <0x" +:+ fmt_02X y +:+ ">")
  = "mismatch at offset <" +:+ fmt_ld k +:+ ">: expected <0x" +:+ fmt_02X x
    +:+ ">, but was <0x" +:+ fmt_02X y +:+ ">".
Proof.
  unfold snprintf, CUTEST_MAX_LEN_MESSAGE. apply string_take_all.
  rewrite !append_length. pose proof (fmt_ld_length k).
  change (String.length (fmt_02X x)) with 2%nat.
  change (String.length (fmt_02X y)) with 2%nat.
  cbn [String.length]. lia.
Qed.

(** C6: with a non-null expected buffer, when the first [uSize] bytes of the
    two buffers are equal the assertion sets the result to
    [EN_CUTEST_RESULT_PASS] and returns; otherwise it fails at the smallest
    offset [k] where they differ, with the message citing [k], the expected
    byte and the actual byte there, whatever the buffers hold past [k]. *)
Theorem C6_memory_equals (psTc : addr) (pszFile : string) (ulLine : Z)
    (pExpected pActual : list byte) (uSize : nat) (s : machine) (c : cutest_case_t) :
  cases s !! psTc = Some c →
  ((uSize ≤ length pExpected)%nat →
   take uSize pExpected = take uSize pActual →
   CuTest_EvalAssertMemEquals psTc pszFile ulLine (Some pExpected) (Some pActual) uSize s
   = (Ret tt, set_cases (<[psTc := set_eResult EN_CUTEST_RESULT_PASS c]> (cases s)) s))
  ∧ (∀ k x y,
       (k < uSize)%nat →
       take k pExpected = take k pActual →
       pExpected !! k = Some x → pActual !! k = Some y → x ≠ y →
       let message :=
         "mismatch at offset <" +:+ fmt_ld (Z.of_nat k) +:+ ">: expected <0x"
         +:+ fmt_02X x +:+ ">, but was <0x" +:+ fmt_02X y +:+ ">" in
       CuTest_EvalAssertMemEquals psTc pszFile ulLine (Some pExpected) (Some pActual)
         uSize s
       = (LongJmp psTc,
          set_cases (<[psTc := failed_case message pszFile ulLine c]> (cases s)) s)
       ∧ eResult (failed_case message pszFile ulLine c) = EN_CUTEST_RESULT_FAIL
       ∧ acMessage (failed_case message pszFile ulLine c) = message).
Proof.
  intros Hc. unfold CuTest_EvalAssertMemEquals.
  erewrite bind_Ret; [|by apply deref_Some].
  erewrite bind_Ret; [|reflexivity].
  set (body := λ (i : nat) (_ : ()), _).
  assert (∀ j b, pExpected !! j = Some b → pActual !! j = Some b →
                 body j tt s = (Ret (true, tt), s)) as Hsame.
  { intros j b He Ha. unfold body, read_byte. simpl. rewrite He, Ha.
    erewrite bind_Ret; [|reflexivity]. erewrite bind_Ret; [|reflexivity].
    by rewrite decide_False by (intros ?; done). }
  split.
  - intros Hlen Heq.
    erewrite bind_Ret; [by apply pass_with|].
    apply for_loop_all_continue. intros j Hj.
    destruct (lookup_lt_is_Some_2 pExpected j ltac:(lia)) as [b Hb].
    apply (Hsame j b Hb). by rewrite <- (take_eq_lookup _ _ _ _ Heq) by lia.
  - intros k x y Hk Heq Hx Hy Hne.
    split; [|split; [done|]].
    + apply bind_LongJmp.
      apply (for_loop_first_exit body tt s psTc _ uSize 0 k); [lia| |].
      * intros j Hj.
        destruct (lookup_lt_is_Some_2 pExpected j) as [b Hb].
        { apply lookup_lt_Some in Hx. lia. }
        apply (Hsame j b Hb). by rewrite <- (take_eq_lookup _ _ _ _ Heq) by lia.
      * unfold body, read_byte. simpl. rewrite Hx, Hy.
        erewrite bind_Ret; [|reflexivity]. erewrite bind_Ret; [|reflexivity].
        rewrite decide_True by done. by apply fail_with.
    + apply mismatch_message_fits.
Qed.

Lemma C6_witness :
  CuTest_EvalAssertMemEquals TEST_Module_MyGroup_Case1 "main.c" 23
    (Some expected_bytes) (Some actual_bytes) 3 main_start
  = (LongJmp TEST_Module_MyGroup_Case1,
     set_cases
       (<[TEST_Module_MyGroup_Case1 :=
            failed_case "mismatch at offset <1>: expected <0x02>, but was <0xFF>"
              "main.c" 23 _TEST_Module_MyGroup_Case1__TestCase]> (cases main_start))
       main_start)
  ∧ CuTest_EvalAssertMemEquals TEST_Module_MyGroup_Case1 "main.c" 23
      (Some expected_bytes) (Some expected_bytes) 3 main_start
    = (Ret tt,
       set_cases
         (<[TEST_Module_MyGroup_Case1 :=
              set_eResult EN_CUTEST_RESULT_PASS _TEST_Module_MyGroup_Case1__TestCase]>
            (cases main_start)) main_start).
Proof.
  split.
  - apply (proj2 (C6_memory_equals TEST_Module_MyGroup_Case1 "main.c" 23
                    expected_bytes actual_bytes 3 main_start
                    _TEST_Module_MyGroup_Case1__TestCase eq_refl)
             1%nat Byte.x02 Byte.xff).
    + lia.
    + reflexivity.
    + reflexivity.
    + reflexivity.
    + discriminate.
  - apply (proj1 (C6_memory_equals TEST_Module_MyGroup_Case1 "main.c" 23
                    expected_bytes expected_bytes 3 main_start
                    _TEST_Module_MyGroup_Case1__TestCase eq_refl)).
    + simpl. lia.
    + reflexivity.
Defined.

(** ** The floating-point assertion *)

Lemma SFcompare_antisym x y :
  SpecFloat.SFcompare y x = option_map CompOpp (SpecFloat.SFcompare x y).
Proof.
  destruct x as [sx|sx| |sx mx ex], y as [sy|sy| |sy my ey]; simpl; try done;
    try (by destruct sx); try (by destruct sy); try (by destruct sx, sy).
  destruct sx, sy; simpl; try done;
    rewrite (Z.compare_antisym ex ey); destruct (ex ?= ey)%Z; simpl; try done;
    rewrite (Pos.compare_cont_antisym mx my Eq); simpl;
    by destruct (Pos.compare_cont Eq mx my).
Qed.

Lemma is_nan_false_compare x y :
  PrimFloat.is_nan x = false → PrimFloat.is_nan y = false →
  ∃ c, SpecFloat.SFcompare (FloatOps.Prim2SF x) (FloatOps.Prim2SF y) = Some c.
Proof.
  unfold PrimFloat.is_nan. rewrite !FloatAxioms.eqb_spec. unfold SpecFloat.SFeqb.
  destruct (FloatOps.Prim2SF x) as [sx|sx| |sx mx ex],
    (FloatOps.Prim2SF y) as [sy|sy| |sy my ey]; simpl; try done; eauto.
Qed.

(** Between two numbers, [x > y] fails exactly when [x <= y]. *)
Lemma ltb_false_leb x y :
  PrimFloat.is_nan x = false → PrimFloat.is_nan y = false →
  PrimFloat.ltb y x = negb (PrimFloat.leb x y).
Proof.
  intros Hx Hy. destruct (is_nan_false_compare x y Hx Hy) as [c Hc].
  rewrite FloatAxioms.ltb_spec, FloatAxioms.leb_spec.
  unfold SpecFloat.SFltb, SpecFloat.SFleb.
  rewrite (SFcompare_antisym (FloatOps.Prim2SF x) (FloatOps.Prim2SF y)), Hc.
  by destruct c.
Qed.

Lemma eqb_true_ltb x y :
  PrimFloat.eqb x y = true → PrimFloat.ltb y x = false.
Proof.
  rewrite FloatAxioms.eqb_spec, FloatAxioms.ltb_spec.
  unfold SpecFloat.SFeqb, SpecFloat.SFltb.
  rewrite (SFcompare_antisym (FloatOps.Prim2SF x) (FloatOps.Prim2SF y)).
  by destruct (SpecFloat.SFcompare _ _) as [[]|].
Qed.

(** An absolute value that is a number exceeds a zero unless it is zero. *)
Lemma abs_ltb_zero t x :
  PrimFloat.is_zero t = true →
  PrimFloat.is_nan (PrimFloat.abs x) = false →
  PrimFloat.ltb t (PrimFloat.abs x) = negb (PrimFloat.is_zero (PrimFloat.abs x)).
Proof.
  unfold PrimFloat.is_nan, PrimFloat.is_zero.
  rewrite !FloatAxioms.eqb_spec, FloatAxioms.ltb_spec, FloatAxioms.abs_spec.
  unfold SpecFloat.SFeqb, SpecFloat.SFltb.
  change (FloatOps.Prim2SF PrimFloat.zero) with (SpecFloat.S754_zero false).
  destruct (FloatOps.Prim2SF t) as [st|st| |st mt et]; simpl; try done;
    try (by destruct st).
  by destruct (FloatOps.Prim2SF x) as [sx|sx| |sx mx ex].
Qed.

(** *** The deviation is zero only between equal values *)

(** Iterating with [iter_pos] is iterating the number of times. *)
Lemma iter_pos_nat {A} (f : A → A) p x :
  SpecFloat.iter_pos f p x = Nat.iter (Pos.to_nat p) f x.
Proof.
  revert x. induction p as [p IH|p IH|]; intros x; cbn [SpecFloat.iter_pos].
  - rewrite !IH, Pos2Nat.inj_xI, <- Nat.iter_succ_r.
    replace (S (2 * Pos.to_nat p)) with (Pos.to_nat p + S (Pos.to_nat p))%nat by lia.
    by rewrite Nat.iter_add.
  - rewrite !IH, Pos2Nat.inj_xO.
    replace (2 * Pos.to_nat p)%nat with (Pos.to_nat p + Pos.to_nat p)%nat by lia.
    by rewrite Nat.iter_add.
  - done.
Qed.

Lemma digits2_pos_iter_xO m d :
  Zpos (SpecFloat.digits2_pos (Pos.iter xO m d)) = (Zpos (SpecFloat.digits2_pos m) + Zpos d)%Z.
Proof.
  induction d as [|d IH] using Pos.peano_ind.
  - simpl. lia.
  - rewrite Pos.iter_succ. simpl. lia.
Qed.

(** Shifting right by fewer places than there are digits leaves a positive
    mantissa. *)
Lemma shr_1_iter_pos n m r s :
  (Z.of_nat n < Zpos (SpecFloat.digits2_pos m))%Z →
  ∃ m', SpecFloat.shr_m
          (Nat.iter n SpecFloat.shr_1
             {| SpecFloat.shr_m := Zpos m; SpecFloat.shr_r := r; SpecFloat.shr_s := s |})
        = Zpos m'.
Proof.
  revert m r s. induction n as [|n IH]; intros m r s Hn; [by eexists|].
  rewrite Nat.iter_succ_r.
  destruct m as [m|m|]; simpl in Hn; [| |lia]; simpl SpecFloat.shr_1; apply IH; lia.
Qed.

Lemma shr_fexp_positive m e l :
  (SpecFloat.emin prec emax ≤ e)%Z →
  ∃ m', SpecFloat.shr_m (SpecFloat.shr_fexp prec emax (Zpos m) e l).1 = Zpos m'
        ∧ (SpecFloat.emin prec emax ≤ (SpecFloat.shr_fexp prec emax (Zpos m) e l).2)%Z.
Proof.
  intros He. unfold SpecFloat.shr_fexp, SpecFloat.shr. cbn [SpecFloat.Zdigits2].
  set (k := (Zpos (SpecFloat.digits2_pos m) + e)%Z).
  assert (SpecFloat.fexp prec emax k - e < Zpos (SpecFloat.digits2_pos m))%Z as Hlt.
  { unfold SpecFloat.fexp, SpecFloat.emin, prec, emax, k in *. lia. }
  assert (SpecFloat.emin prec emax ≤ SpecFloat.fexp prec emax k)%Z as Hge.
  { unfold SpecFloat.fexp. lia. }
  destruct (SpecFloat.fexp prec emax k - e)%Z as [|p|p] eqn:Hn; cbn [fst snd].
  - exists m. split; [by destruct l as [|[]]|done].
  - rewrite iter_pos_nat.
    assert (∃ m', SpecFloat.shr_m
                    (Nat.iter (Pos.to_nat p) SpecFloat.shr_1
                       (SpecFloat.shr_record_of_loc (Zpos m) l)) = Zpos m') as [m' Hm'].
    { destruct l as [|[]]; apply shr_1_iter_pos; lia. }
    exists m'. split; [done|lia].
  - exists m. split; [by destruct l as [|[]]|done].
Qed.

Lemma binary_round_aux_not_zero s m e l sz :
  (SpecFloat.emin prec emax ≤ e)%Z →
  SpecFloat.binary_round_aux prec emax s (Zpos m) e l ≠ SpecFloat.S754_zero sz.
Proof.
  intros He. unfold SpecFloat.binary_round_aux.
  destruct (shr_fexp_positive m e l He) as (m1 & Hm1 & He1).
  destruct (SpecFloat.shr_fexp prec emax (Zpos m) e l) as [mrs' e']. cbn [fst snd] in *.
  rewrite Hm1.
  assert (∃ m2, SpecFloat.round_nearest_even (Zpos m1) (SpecFloat.loc_of_shr_record mrs')
                = Zpos m2) as [m2 ->].
  { unfold SpecFloat.round_nearest_even.
    destruct (SpecFloat.loc_of_shr_record mrs') as [|[]]; try by eexists.
    destruct (Z.even (Zpos m1)); by eexists. }
  destruct (shr_fexp_positive m2 e' SpecFloat.loc_Exact He1) as (m3 & Hm3 & _).
  destruct (SpecFloat.shr_fexp prec emax (Zpos m2) e' SpecFloat.loc_Exact) as [mrs'' e''].
  cbn [fst snd] in *. rewrite Hm3. by destruct (_ <=? _)%Z.
Qed.

Lemma binary_normalize_zero d e sz :
  (SpecFloat.emin prec emax ≤ e)%Z →
  SpecFloat.binary_normalize prec emax d e false = SpecFloat.S754_zero sz → d = 0%Z.
Proof.
  intros He. destruct d as [|m|m]; [done| |]; unfold SpecFloat.binary_normalize,
    SpecFloat.binary_round, SpecFloat.shl_align.
  all: set (k := SpecFloat.fexp prec emax (Zpos (SpecFloat.digits2_pos m) + e));
    assert (SpecFloat.emin prec emax ≤ k)%Z by (unfold k, SpecFloat.fexp; lia);
    destruct (k - e)%Z; intros Hz; by apply binary_round_aux_not_zero in Hz.
Qed.

Lemma bounded_canonical m e :
  SpecFloat.bounded prec emax m e = true →
  SpecFloat.fexp prec emax (Zpos (SpecFloat.digits2_pos m) + e) = e.
Proof.
  unfold SpecFloat.bounded, SpecFloat.canonical_mantissa.
  intros [H _]%andb_prop. by apply Z.eqb_eq.
Qed.

Lemma SFeqb_finite sx mx ex sy my ey :
  SpecFloat.SFeqb (SpecFloat.S754_finite sx mx ex) (SpecFloat.S754_finite sy my ey) = true
  ↔ sx = sy ∧ mx = my ∧ ex = ey.
Proof.
  unfold SpecFloat.SFeqb, SpecFloat.SFcompare. split.
  - destruct sx, sy; try done; destruct (ex ?= ey)%Z eqn:He; try done;
      apply Z.compare_eq_iff in He; fold (Pos.compare mx my);
      destruct (mx ?= my)%positive eqn:Hm; try done;
      apply Pos.compare_eq_iff in Hm; by subst.
  - intros (-> & -> & ->). rewrite Z.compare_refl. fold (Pos.compare my my).
    rewrite Pos.compare_refl. by destruct sy.
Qed.

(** The difference of two finite numbers is a zero only when they are the
    same number. *)
Lemma SFsub_finite_zero sx mx ex sy my ey sz :
  SpecFloat.bounded prec emax mx ex = true →
  SpecFloat.bounded prec emax my ey = true →
  SpecFloat.SFsub prec emax (SpecFloat.S754_finite sx mx ex) (SpecFloat.S754_finite sy my ey)
  = SpecFloat.S754_zero sz →
  sx = sy ∧ mx = my ∧ ex = ey.
Proof.
  intros Hx%bounded_canonical Hy%bounded_canonical. cbn [SpecFloat.SFsub].
  intros Hz%binary_normalize_zero.
  2: { unfold SpecFloat.fexp in Hx, Hy. lia. }
  revert Hz. unfold SpecFloat.shl_align.
  destruct (Z.min ex ey - ex)%Z as [|d|d] eqn:Hdx;
    destruct (Z.min ex ey - ey)%Z as [|d'|d'] eqn:Hdy; cbn [fst]; try lia.
  - intros Hz. assert (sx = sy ∧ mx = my) as [-> ->]; [|repeat split; lia].
    destruct sx, sy; unfold SpecFloat.cond_Zopp in Hz; split; try done; lia.
  - intros Hz. exfalso.
    assert (mx = Pos.iter xO my d') as ->.
    { destruct sx, sy; unfold SpecFloat.cond_Zopp in Hz; lia. }
    rewrite digits2_pos_iter_xO in Hx. unfold SpecFloat.fexp in Hx, Hy. lia.
  - intros Hz. exfalso.
    assert (my = Pos.iter xO mx d) as ->.
    { destruct sx, sy; unfold SpecFloat.cond_Zopp in Hz; lia. }
    rewrite digits2_pos_iter_xO in Hy. unfold SpecFloat.fexp in Hx, Hy. lia.
Qed.

Lemma SFsub_diag s m e :
  SpecFloat.SFsub prec emax (SpecFloat.S754_finite s m e) (SpecFloat.S754_finite s m e)
  = SpecFloat.S754_zero false.
Proof. cbn [SpecFloat.SFsub]. by rewrite Z.sub_diag. Qed.

(** When the deviation is a number, it is zero exactly when the two values
    compare equal. *)
Lemma deviation_zero_eqb a e :
  PrimFloat.is_nan (PrimFloat.abs (PrimFloat.sub a e)) = false →
  PrimFloat.is_zero (PrimFloat.abs (PrimFloat.sub a e)) = PrimFloat.eqb a e.
Proof.
  unfold PrimFloat.is_nan, PrimFloat.is_zero.
  rewrite !FloatAxioms.eqb_spec, !FloatAxioms.abs_spec, FloatAxioms.sub_spec.
  change (FloatOps.Prim2SF PrimFloat.zero) with (SpecFloat.S754_zero false).
  pose proof (FloatAxioms.Prim2SF_valid a) as Ha.
  pose proof (FloatAxioms.Prim2SF_valid e) as He.
  unfold FloatAxioms.SF64sub.
  destruct (FloatOps.Prim2SF a) as [sx|sx| |sx mx ex],
    (FloatOps.Prim2SF e) as [sy|sy| |sy my ey];
    try (solve [repeat match goal with s : bool |- _ => destruct s end; done]).
  cbn [SpecFloat.valid_binary] in Ha, He. intros _.
  destruct (SpecFloat.SFeqb (SpecFloat.S754_finite sx mx ex) (SpecFloat.S754_finite sy my ey))
    eqn:Heq.
  - apply SFeqb_finite in Heq as (-> & -> & ->). by rewrite SFsub_diag.
  - destruct (SpecFloat.SFsub prec emax _ _) as [sz|sz| |sz mz ez] eqn:Hsub; try done.
    apply SFsub_finite_zero in Hsub; [|done..].
    apply SFeqb_finite in Hsub. congruence.
Qed.

(** A NaN compares false with everything. *)
Lemma is_nan_true_compare x y :
  PrimFloat.is_nan x = true →
  PrimFloat.ltb y x = false ∧ PrimFloat.leb x y = false.
Proof.
  unfold PrimFloat.is_nan.
  rewrite FloatAxioms.eqb_spec, FloatAxioms.ltb_spec, FloatAxioms.leb_spec.
  unfold SpecFloat.SFeqb, SpecFloat.SFltb, SpecFloat.SFleb.
  destruct (FloatOps.Prim2SF x) as [sx|sx| |sx mx ex]; cbn [SpecFloat.SFcompare].
  - done.
  - by destruct sx.
  - intros _. by destruct (FloatOps.Prim2SF y).
  - rewrite Z.compare_refl, Pos.compare_cont_refl. by destruct sx.
Qed.

(** C5: the assertion against the claim, on every input.  A NaN tolerance
    trips the assertion of the contract.  With a tolerance that is a number,
    and when the computed deviation [fabsl(actual - expected)] is a number
    too, the code does what the claim says: it sets the result to
    [EN_CUTEST_RESULT_PASS] if and only if the deviation is at most the
    tolerance and fails through [longjmp] otherwise, a deviation equal to the
    tolerance passes, and with a zero tolerance it passes exactly when the
    actual value equals the expected one.  When the deviation is NaN (a NaN
    actual or expected value, or both the same infinity) the code breaks the
    claim: the deviation is not at most the tolerance, and the result is set
    to [EN_CUTEST_RESULT_PASS] all the same, because only [deviation >
    tolerance] fails and the NaN guard covers the tolerance alone. *)
Theorem C5_float_equals (fmt_Lf : PrimFloat.float → string) (psTc : addr)
    (pszFile : string) (ulLine : Z)
    (llfExpected llfActual llfTolerance : PrimFloat.float)
    (s : machine) (c : cutest_case_t) :
  cases s !! psTc = Some c →
  let llfDeviation := PrimFloat.abs (PrimFloat.sub llfActual llfExpected) in
  let r := CuTest_EvalAssertFltEquals fmt_Lf psTc pszFile ulLine
             llfExpected llfActual llfTolerance s in
  (PrimFloat.is_nan llfTolerance = true → r = (Abort, s))
  ∧ (PrimFloat.is_nan llfTolerance = false →
     PrimFloat.is_nan llfDeviation = false →
     (eResult <$> cases r.2 !! psTc = Some EN_CUTEST_RESULT_PASS
      ↔ PrimFloat.leb llfDeviation llfTolerance = true)
     ∧ (PrimFloat.leb llfDeviation llfTolerance = true →
        r = (Ret tt,
             set_cases (<[psTc := set_eResult EN_CUTEST_RESULT_PASS c]> (cases s)) s))
     ∧ (PrimFloat.leb llfDeviation llfTolerance = false →
        r.1 = LongJmp psTc
        ∧ eResult <$> cases r.2 !! psTc = Some EN_CUTEST_RESULT_FAIL)
     ∧ (PrimFloat.eqb llfDeviation llfTolerance = true →
        eResult <$> cases r.2 !! psTc = Some EN_CUTEST_RESULT_PASS)
     ∧ (PrimFloat.is_zero llfTolerance = true →
        (eResult <$> cases r.2 !! psTc = Some EN_CUTEST_RESULT_PASS
         ↔ PrimFloat.eqb llfActual llfExpected = true)))
  ∧ (PrimFloat.is_nan llfTolerance = false →
     PrimFloat.is_nan llfDeviation = true →
     PrimFloat.leb llfDeviation llfTolerance = false
     ∧ r = (Ret tt,
            set_cases (<[psTc := set_eResult EN_CUTEST_RESULT_PASS c]> (cases s)) s)).
Proof.
  intros Hc llfDeviation r.
  assert (PrimFloat.is_nan llfTolerance = false →
          r = if PrimFloat.ltb llfTolerance llfDeviation
              then (LongJmp psTc,
                    set_cases
                      (<[psTc := failed_case
                           ("expected <" +:+ fmt_Lf llfExpected +:+ ">, but was <"
                            +:+ fmt_Lf llfActual +:+ "> (Deviation <"
                            +:+ fmt_Lf llfDeviation +:+ "> exceeds <"
                            +:+ fmt_Lf llfTolerance +:+ ">)") pszFile ulLine c]>
                         (cases s)) s)
              else (Ret tt,
                    set_cases
                      (<[psTc := set_eResult EN_CUTEST_RESULT_PASS c]> (cases s)) s))
    as Hrun.
  { intros Htol. unfold r, CuTest_EvalAssertFltEquals.
    erewrite bind_Ret; [|by apply deref_Some].
    erewrite bind_Ret; [|by rewrite Htol].
    fold llfDeviation. destruct (PrimFloat.ltb llfTolerance llfDeviation).
    - by apply fail_with.
    - by apply pass_with. }
  split; [|split].
  - intros Hnan. unfold r, CuTest_EvalAssertFltEquals.
    erewrite bind_Ret; [|by apply deref_Some].
    apply bind_Abort. by rewrite Hnan.
  - intros Htol Hdev. pose proof (Hrun Htol) as Hr.
    assert (eResult <$> cases r.2 !! psTc = Some EN_CUTEST_RESULT_PASS
            ↔ PrimFloat.ltb llfTolerance llfDeviation = false) as Hpass.
    { rewrite Hr. destruct (PrimFloat.ltb llfTolerance llfDeviation);
        cbn [snd]; rewrite cases_set_cases, lookup_insert_eq; by split. }
    rewrite (ltb_false_leb _ _ Hdev Htol) in Hpass, Hr.
    split; [|split; [|split; [|split]]].
    + rewrite Hpass. by destruct (PrimFloat.leb llfDeviation llfTolerance).
    + intros Hle. by rewrite Hr, Hle.
    + intros Hle. rewrite Hr, Hle. cbn [negb fst snd].
      by rewrite cases_set_cases, lookup_insert_eq.
    + intros Heq. apply Hpass.
      rewrite <- (ltb_false_leb _ _ Hdev Htol). by apply eqb_true_ltb.
    + intros Hzero. rewrite Hpass, <- (ltb_false_leb _ _ Hdev Htol).
      unfold llfDeviation in *.
      rewrite (abs_ltb_zero _ _ Hzero Hdev), (deviation_zero_eqb _ _ Hdev).
      destruct (PrimFloat.eqb llfActual llfExpected); simpl; split; congruence.
  - intros Htol Hdev.
    destruct (is_nan_true_compare llfDeviation llfTolerance Hdev) as [Hlt Hle].
    split; [done|]. by rewrite (Hrun Htol), Hlt.
Qed.

(** The failing input: an actual value that is NaN against the expected
    value 1 with tolerance 0. *)
Lemma C5_witness :
  PrimFloat.leb (PrimFloat.abs (PrimFloat.sub PrimFloat.nan 1%float)) 0%float = false
  ∧ CuTest_EvalAssertFltEquals (λ _, "") TEST_Module_MyGroup_Case1 "main.c" 23
      1%float PrimFloat.nan 0%float main_start
    = (Ret tt,
       set_cases
         (<[TEST_Module_MyGroup_Case1 :=
              set_eResult EN_CUTEST_RESULT_PASS _TEST_Module_MyGroup_Case1__TestCase]>
            (cases main_start)) main_start).
Proof.
  apply (proj2 (proj2 (C5_float_equals (λ _, "") TEST_Module_MyGroup_Case1 "main.c" 23
                         1%float PrimFloat.nan 0%float main_start
                         _TEST_Module_MyGroup_Case1__TestCase eq_refl))).
  - reflexivity.
  - reflexivity.
Defined.

(** * Further properties *)

(** ** The other result evaluation functions *)

Lemma string_take_length n s : (String.length (string_take n s) ≤ n)%nat.
Proof.
  revert s. induction n as [|n IH]; intros [|ch s]; simpl; try lia.
  specialize (IH s). lia.
Qed.

Lemma as_intmax_small z : (- 2 ^ 63 ≤ z < 2 ^ 63)%Z → as_intmax z = z.
Proof.
  intros Hz. unfold as_intmax, INTMAX_MOD. rewrite Z.mod_small; lia.
Qed.

Lemma as_intmax_range z : (- 2 ^ 63 ≤ as_intmax z < 2 ^ 63)%Z.
Proof.
  unfold as_intmax, INTMAX_MOD.
  pose proof (Z.mod_pos_bound (z + 2 ^ 63) (2 ^ 64) ltac:(lia)). lia.
Qed.

Lemma fmt_jd_length z : (String.length (fmt_jd z) ≤ 21)%nat.
Proof.
  unfold fmt_jd. destruct (as_intmax z <? 0)%Z.
  - rewrite append_length. change (String.length "-") with 1%nat.
    pose proof (dec_digits_length 20 (Z.to_N (- as_intmax z)) "") as H.
    change (String.length "") with 0%nat in H. lia.
  - pose proof (dec_digits_length 20 (Z.to_N (as_intmax z)) "") as H.
    change (String.length "") with 0%nat in H. lia.
Qed.

(** [%jd] prints the digits of the magnitude, after a minus sign for a
    negative value. *)
Lemma fmt_jd_reads z :
  ∃ digits,
    fmt_jd z = (if (as_intmax z <? 0)%Z then "-" else "") +:+ digits
    ∧ read_digits digit_value 10 0 digits = Z.to_N (Z.abs (as_intmax z)).
Proof.
  pose proof (as_intmax_range z) as Hr. unfold fmt_jd.
  destruct (Z.ltb_spec (as_intmax z) 0).
  - destruct (dec_digits_reads 20 (Z.to_N (- as_intmax z)) "")
      as (digits & k & Hdigits & Hread).
    { change (10 ^ N.of_nat 20)%N with 100000000000000000000%N. lia. }
    exists digits. rewrite Hdigits, Hread.
    split; [|lia]. f_equal. clear. induction digits as [|c d IH]; [done|].
    change (String c (d +:+ "") = String c d). by f_equal.
  - destruct (dec_digits_reads 20 (Z.to_N (as_intmax z)) "")
      as (digits & k & Hdigits & Hread).
    { change (10 ^ N.of_nat 20)%N with 100000000000000000000%N. lia. }
    exists digits. rewrite Hdigits, Hread.
    split; [|lia]. change ("" +:+ digits) with digits.
    clear. induction digits as [|c d IH]; [done|].
    change (String c (d +:+ "") = String c d). by f_equal.
Qed.

(** X1: the integer assertion passes exactly when the two [intmax_t] values
    are equal; when they differ it fails with the message
    [expected <E>, but was <A>], which is never truncated. *)
Theorem X1_int_equals (psTc : addr) (pszFile : string) (ulLine : Z)
    (llExpected llActual : Z) (s : machine) (c : cutest_case_t) :
  cases s !! psTc = Some c →
  let message :=
    "expected <" +:+ fmt_jd llExpected +:+ ">, but was <" +:+ fmt_jd llActual +:+ ">" in
  (as_intmax llActual = as_intmax llExpected →
   CuTest_EvalAssertIntEquals psTc pszFile ulLine llExpected llActual s
   = (Ret tt, set_cases (<[psTc := set_eResult EN_CUTEST_RESULT_PASS c]> (cases s)) s))
  ∧ (as_intmax llActual ≠ as_intmax llExpected →
     CuTest_EvalAssertIntEquals psTc pszFile ulLine llExpected llActual s
     = (LongJmp psTc,
        set_cases (<[psTc := failed_case message pszFile ulLine c]> (cases s)) s)
     ∧ acMessage (failed_case message pszFile ulLine c) = message).
Proof.
  intros Hc message. unfold CuTest_EvalAssertIntEquals.
  erewrite bind_Ret; [|by apply deref_Some]. split.
  - intros Heq. rewrite decide_True by done. by apply pass_with.
  - intros Hne. rewrite decide_False by done. split; [by apply fail_with|].
    change (acMessage (failed_case message pszFile ulLine c))
      with (string_take 255 message).
    apply string_take_all. unfold message. rewrite !append_length.
    pose proof (fmt_jd_length llExpected). pose proof (fmt_jd_length llActual).
    cbn [String.length]. lia.
Qed.

Lemma X1_witness :
  CuTest_EvalAssertIntEquals TEST_Module_MyGroup_Case1 "main.c" 23 (-7) 42 main_start
  = (LongJmp TEST_Module_MyGroup_Case1,
     set_cases
       (<[TEST_Module_MyGroup_Case1 :=
            failed_case "expected <-7>, but was <42>" "main.c" 23
              _TEST_Module_MyGroup_Case1__TestCase]> (cases main_start)) main_start).
Proof.
  apply (proj2 (X1_int_equals TEST_Module_MyGroup_Case1 "main.c" 23 (-7) 42 main_start
                  _TEST_Module_MyGroup_Case1__TestCase eq_refl)).
  vm_compute. discriminate.
Defined.

Lemma N_of_ascii_zero ch : N_of_ascii ch = 0%N ↔ ch = Ascii.zero.
Proof.
  split; [|by intros ->].
  intros H. rewrite <- (ascii_N_embedding ch), H. done.
Qed.

(** [strcmp] answers zero exactly when the two strings have the same
    characters before their terminators. *)
Lemma strcmp_zero s1 s2 : strcmp s1 s2 = 0%Z ↔ c_str s1 = c_str s2.
Proof.
  revert s2. induction s1 as [|c1 s1 IH]; intros [|c2 s2]; cbn [strcmp c_str].
  - done.
  - destruct (Ascii.eqb_spec c2 Ascii.zero) as [->|Hne]; [done|].
    split; [|done]. intros H. exfalso. apply Hne, N_of_ascii_zero. lia.
  - destruct (Ascii.eqb_spec c1 Ascii.zero) as [->|Hne]; [done|].
    split; [|done]. intros H. exfalso. apply Hne, N_of_ascii_zero. lia.
  - destruct (Ascii.eqb_spec c1 c2) as [->|Hne].
    + destruct (Ascii.eqb_spec c2 Ascii.zero) as [->|Hnz]; [done|].
      rewrite IH. split; [by intros ->|]. by intros [= ->].
    + assert (N_of_ascii c1 ≠ N_of_ascii c2) as Hn.
      { intros H. apply Hne.
        by rewrite <- (ascii_N_embedding c1), <- (ascii_N_embedding c2), H. }
      split; [lia|].
      destruct (Ascii.eqb_spec c1 Ascii.zero) as [->|H1],
        (Ascii.eqb_spec c2 Ascii.zero) as [->|H2]; try done.
      intros [= ? _]. done.
Qed.

(** X2: the string assertion stops on a NULL expected string; otherwise it
    passes exactly when the actual string is not NULL and has the same
    characters as the expected one, and fails through [longjmp] in every
    other case, a NULL actual string included. *)
Theorem X2_str_equals (psTc : addr) (pszFile : string) (ulLine : Z)
    (pszExpected pszActual : option string) (s : machine) (c : cutest_case_t) :
  cases s !! psTc = Some c →
  let r := CuTest_EvalAssertStrEquals psTc pszFile ulLine pszExpected pszActual s in
  (pszExpected = None → r = (Abort, s))
  ∧ (∀ expected, pszExpected = Some expected →
       (r = (Ret tt,
             set_cases (<[psTc := set_eResult EN_CUTEST_RESULT_PASS c]> (cases s)) s)
        ↔ ∃ actual, pszActual = Some actual ∧ c_str expected = c_str actual)
       ∧ (pszActual = None →
          r = (LongJmp psTc,
               set_cases
                 (<[psTc := failed_case
                      ("expected <" +:+ c_str expected +:+ ">, but was <NULL>")
                      pszFile ulLine c]> (cases s)) s))
       ∧ (∀ actual, pszActual = Some actual → c_str expected ≠ c_str actual →
          r = (LongJmp psTc,
               set_cases
                 (<[psTc := failed_case
                      ("expected <" +:+ c_str expected +:+ ">, but was <"
                       +:+ c_str actual +:+ ">") pszFile ulLine c]> (cases s)) s))).
Proof.
  intros Hc r. unfold r, CuTest_EvalAssertStrEquals.
  erewrite bind_Ret; [|by apply deref_Some]. split; [by intros ->|].
  intros expected ->. destruct pszActual as [actual|].
  - destruct (Z.eqb_spec (strcmp expected actual) 0) as [Hz|Hnz].
    + apply strcmp_zero in Hz. rewrite (pass_with _ _ _ Hc).
      split; [|split; [done|]].
      * split; [by exists actual|done].
      * intros ? [= <-] ?. done.
    + rewrite strcmp_zero in Hnz. rewrite (fail_with _ _ _ _ _ _ Hc).
      split; [|split; [done|]].
      * split; [done|]. intros (? & [= <-] & ?). done.
      * by intros ? [= <-] _.
  - rewrite (fail_with _ _ _ _ _ _ Hc). split; [|split; [done|done]].
    split; [done|]. by intros (? & ? & _).
Qed.

Lemma X2_witness :
  CuTest_EvalAssertStrEquals TEST_Module_MyGroup_Case1 "main.c" 23
    (Some "abc") (Some "abc") main_start
  = (Ret tt,
     set_cases
       (<[TEST_Module_MyGroup_Case1 :=
            set_eResult EN_CUTEST_RESULT_PASS _TEST_Module_MyGroup_Case1__TestCase]>
          (cases main_start)) main_start).
Proof.
  apply (proj1 (proj2 (X2_str_equals TEST_Module_MyGroup_Case1 "main.c" 23
                         (Some "abc") (Some "abc") main_start
                         _TEST_Module_MyGroup_Case1__TestCase eq_refl)
                  "abc" eq_refl)).
  exists "abc". split; reflexivity.
Defined.

(** ** What every result evaluation function does *)

Lemma for_loop_exit {A} (body : nat → A → M (bool * A)) a s n i :
  (∀ j, body j a s = (Ret (true, a), s)
        ∨ (∃ env s', body j a s = (LongJmp env, s')) ∨ body j a s = (Abort, s)) →
  for_loop n i body a s = (Ret a, s)
  ∨ (∃ j env s', body j a s = (LongJmp env, s')
                 ∧ for_loop n i body a s = (LongJmp env, s'))
  ∨ for_loop n i body a s = (Abort, s).
Proof.
  intros Hbody. revert i. induction n as [|n IH]; intros i; [by left|].
  cbn [for_loop]. destruct (Hbody i) as [Hc|[(env & s' & Hj)|Ha]].
  - erewrite bind_Ret by done. apply IH.
  - right; left. exists i, env, s'. split; [done|]. by apply bind_LongJmp.
  - right; right. by apply bind_Abort.
Qed.

Lemma evaluate_outcome (fmt_Lf : PrimFloat.float → string)
    (fmt_p : option positive → string) (psTc : addr) (pszFile : string) (ulLine : Z)
    (a : assertion) (s : machine) (c : cutest_case_t) :
  cases s !! psTc = Some c →
  assertion_outcome psTc pszFile ulLine c s (evaluate fmt_Lf fmt_p psTc pszFile ulLine a s).
Proof.
  intros Hc. unfold assertion_outcome.
  pose proof (pass_with psTc s c Hc) as Hpass.
  pose proof (λ formatted, fail_with psTc formatted pszFile ulLine s c (A:=unit) Hc)
    as Hfail.
  destruct a as [b m|e a|e a tol|e a|a|e a|e a n]; cbn [evaluate].
  - unfold CuTest_EvalAssert. erewrite bind_Ret; [|by apply deref_Some].
    destruct b; [by left|]. right; left. by eexists.
  - unfold CuTest_EvalAssertIntEquals. erewrite bind_Ret; [|by apply deref_Some].
    case_decide; [by left|]. right; left. by eexists.
  - unfold CuTest_EvalAssertFltEquals. erewrite bind_Ret; [|by apply deref_Some].
    destruct (PrimFloat.is_nan tol) eqn:Hnan.
    + right; right. by apply bind_Abort.
    + erewrite bind_Ret; [|reflexivity].
      destruct (PrimFloat.ltb _ _); [|by left]. right; left. by eexists.
  - unfold CuTest_EvalAssertPtrEquals. erewrite bind_Ret; [|by apply deref_Some].
    case_decide; [by left|]. right; left. by eexists.
  - unfold CuTest_EvalAssertPtrNotNull. erewrite bind_Ret; [|by apply deref_Some].
    case_decide; [by left|]. right; left. by eexists.
  - unfold CuTest_EvalAssertStrEquals. erewrite bind_Ret; [|by apply deref_Some].
    destruct e as [e|]; [|by right; right].
    destruct (match a with Some actual => _ | None => false end); [by left|].
    right; left. by eexists.
  - unfold CuTest_EvalAssertMemEquals. erewrite bind_Ret; [|by apply deref_Some].
    destruct e as [e|]; [|by right; right].
    erewrite bind_Ret; [|reflexivity].
    set (body := λ (i : nat) (_ : ()), _).
    destruct (for_loop_exit body tt s n 0) as [Hl|[(j & env & s' & Hj & Hl)|Hl]].
    + intros j. unfold body, read_byte. cbn [mbind option_bind].
      destruct (e !! j) as [x|]; [|by right; right].
      erewrite bind_Ret; [|reflexivity].
      destruct (a ≫= (.!! j)) as [y|]; [|by right; right].
      erewrite bind_Ret; [|reflexivity].
      case_decide; [|by left]. right; left.
      erewrite (fail_with psTc _ pszFile ulLine s c) by done. by eexists _, _.
    + erewrite bind_Ret by done. by left.
    + right; left. erewrite bind_LongJmp by done.
      revert Hj. unfold body, read_byte. cbn [mbind option_bind].
      destruct (e !! j) as [x|]; [|done].
      erewrite bind_Ret; [|reflexivity].
      destruct (a ≫= (.!! j)) as [y|]; [|done].
      erewrite bind_Ret; [|reflexivity].
      case_decide; [|done].
      erewrite (fail_with psTc _ pszFile ulLine s c) by done.
      intros [= <- <-]. by eexists.
    + right; right. by apply bind_Abort.
Qed.

(** X3: called for an allocated case, each of the seven result evaluation
    functions does one of three things and nothing else: it sets the result
    to passed and returns (message, location and every other object
    untouched); or it stores a message of at most 255 characters and the
    source location, sets the result to failed and leaves through [longjmp]
    to that case; or it stops (a contract violation, or a read through NULL
    or past the end of a buffer) with the machine unchanged. *)
Theorem X3_assertion_outcomes (fmt_Lf : PrimFloat.float → string)
    (fmt_p : option positive → string) (psTc : addr) (pszFile : string) (ulLine : Z)
    (a : assertion) (s : machine) (c : cutest_case_t) :
  cases s !! psTc = Some c →
  assertion_outcome psTc pszFile ulLine c s (evaluate fmt_Lf fmt_p psTc pszFile ulLine a s)
  ∧ ∀ formatted,
      let c' := failed_case formatted pszFile ulLine c in
      eResult c' = EN_CUTEST_RESULT_FAIL
      ∧ (String.length (acMessage c') < CUTEST_MAX_LEN_MESSAGE)%nat
      ∧ pszMsgFile c' = pszFile ∧ ulMsgLine c' = ulLine
      ∧ same_declaration c c'.
Proof.
  intros Hc. split; [by apply evaluate_outcome|].
  intros formatted c'. repeat split.
  change (acMessage c') with (string_take 255 formatted).
  pose proof (string_take_length 255 formatted).
  unfold CUTEST_MAX_LEN_MESSAGE. lia.
Qed.

Lemma X3_witness :
  assertion_outcome TEST_Module_MyGroup_Case1 "main.c" 23
    _TEST_Module_MyGroup_Case1__TestCase main_start
    (evaluate (λ _, "") (λ _, "") TEST_Module_MyGroup_Case1 "main.c" 23
       (CuAssertPtrNotNull None) main_start).
Proof.
  apply (X3_assertion_outcomes (λ _, "") (λ _, "") TEST_Module_MyGroup_Case1 "main.c" 23
           (CuAssertPtrNotNull None) main_start _TEST_Module_MyGroup_Case1__TestCase).
  reflexivity.
Defined.

(** ** A test function made of assertions, under the case runner *)

Lemma append_nil_r (s : string) : s +:+ "" = s.
Proof.
  induction s as [|ch s IH]; [done|].
  change (String ch (s +:+ "") = String ch s). by f_equal.
Qed.

Lemma machine_eq (s s' : machine) :
  cases s = cases s' → stdout s = stdout s' → files s = files s' →
  unwritable s = unwritable s' → acTimestampBuffer s = acTimestampBuffer s' →
  s = s'.
Proof. destruct s, s'; cbn; intros; by subst. Qed.

Lemma set_stdout_same s : set_stdout (stdout s +:+ "") s = s.
Proof. apply machine_eq; cbn; try done. apply append_nil_r. Qed.

Lemma CuTest_RunTestCase_enter text psTc s c fn pfv :
  cases s !! psTc = Some c → pfvTestFn c = Some fn → text fn = Some pfv →
  CuTest_RunTestCase text psTc s
  = (setjmp psTc (pfv psTc);;
     c' ← deref psTc;
     if bPrintResult c' then print_case_result c' else mret tt) (reset_case psTc c s).
Proof.
  intros Hc Hfn Htext. unfold CuTest_RunTestCase.
  erewrite bind_Ret; [|by apply deref_Some].
  rewrite Hfn. simpl. rewrite Htext.
  erewrite bind_Ret; [|reflexivity].
  erewrite bind_Ret; [|by apply modify_Some].
  erewrite bind_Ret; [|apply modify_Some; apply lookup_insert_eq].
  unfold reset_case.
  by rewrite !set_cases_set_cases, !cases_set_cases, !insert_insert_eq.
Qed.

Lemma append_assoc (s1 s2 s3 : string) : (s1 +:+ s2) +:+ s3 = s1 +:+ s2 +:+ s3.
Proof.
  induction s1 as [|ch s1 IH]; [done|].
  change (String ch ((s1 +:+ s2) +:+ s3) = String ch (s1 +:+ s2 +:+ s3)). by f_equal.
Qed.

Lemma printf_printf a b s :
  (printf a;; printf b) s = (Ret tt, set_stdout (stdout s +:+ a +:+ b) s).
Proof.
  erewrite bind_Ret; [|reflexivity]. unfold printf. cbn [stdout set_stdout].
  by rewrite append_assoc.
Qed.

Lemma print_case_result_stdout c s :
  ∃ out, print_case_result c s = (Ret tt, set_stdout (stdout s +:+ out) s).
Proof.
  unfold print_case_result. destruct (eResult c); try by eexists.
  rewrite printf_printf. by eexists.
Qed.

Lemma assertions_outcome fmt_Lf fmt_p psTc body s c :
  cases s !! psTc = Some c →
  let r := assertions fmt_Lf fmt_p body psTc s in
  (body = [] ∧ r = (Ret tt, s))
  ∨ (body ≠ []
     ∧ r = (Ret tt,
            set_cases (<[psTc := set_eResult EN_CUTEST_RESULT_PASS c]> (cases s)) s))
  ∨ (∃ site formatted c0,
       site ∈ body ∧ (c0 = c ∨ c0 = set_eResult EN_CUTEST_RESULT_PASS c)
       ∧ r = (LongJmp psTc,
              set_cases
                (<[psTc := failed_case formatted site.1.1 site.1.2 c0]> (cases s)) s))
  ∨ (∃ s', r = (Abort, s')).
Proof.
  revert s c. induction body as [|site body IH]; intros s c Hc; [by left|].
  cbn zeta. unfold assertions. cbn [iterM].
  destruct (evaluate_outcome fmt_Lf fmt_p psTc site.1.1 site.1.2 site.2 s c Hc)
    as [Hpass|[[formatted Hfail]|Habort]].
  - erewrite bind_Ret by done.
    set (s1 := set_cases _ s).
    assert (cases s1 !! psTc = Some (set_eResult EN_CUTEST_RESULT_PASS c)) as Hc1.
    { unfold s1. rewrite cases_set_cases. apply lookup_insert_eq. }
    pose proof (IH s1 _ Hc1) as IH1. cbn zeta in IH1. unfold assertions in IH1.
    destruct IH1
      as [[-> Hr]|[[Hne Hr]|[(site' & formatted & c0 & Hin & Hc0 & Hr)|[s' Hr]]]].
    + right; left. by split.
    + right; left. split; [done|]. rewrite Hr. unfold s1.
      by rewrite set_cases_set_cases, cases_set_cases, insert_insert_eq.
    + right; right; left.
      exists site', formatted, (set_eResult EN_CUTEST_RESULT_PASS c).
      split; [by apply list_elem_of_further|]. split; [by right|].
      rewrite Hr. unfold s1.
      rewrite set_cases_set_cases, cases_set_cases, insert_insert_eq.
      by destruct Hc0 as [->| ->].
    + right; right; right. by exists s'.
  - right; right; left. exists site, formatted, c.
    split; [apply list_elem_of_here|]. split; [by left|]. by apply bind_LongJmp.
  - right; right; right. exists s. by apply bind_Abort.
Qed.

(** What the case runner leaves behind when the test function is a sequence
    of assertion macros. *)
Lemma CuTest_RunTestCase_assertions fmt_Lf fmt_p text psTc s c fn body :
  cases s !! psTc = Some c → pfvTestFn c = Some fn →
  text fn = Some (assertions fmt_Lf fmt_p body) →
  (∃ s', CuTest_RunTestCase text psTc s = (Abort, s'))
  ∨ ∃ c' out,
      CuTest_RunTestCase text psTc s
      = (Ret tt, set_stdout (stdout s +:+ out) (set_cases (<[psTc := c']> (cases s)) s))
      ∧ same_declaration c c'
      ∧ (eResult c' = EN_CUTEST_RESULT_UNDEF ↔ body = [])
      ∧ (eResult c' ≠ EN_CUTEST_RESULT_FAIL → acMessage c' = "")
      ∧ (eResult c' = EN_CUTEST_RESULT_FAIL →
         ∃ site, site ∈ body ∧ pszMsgFile c' = site.1.1 ∧ ulMsgLine c' = site.1.2
                 ∧ (String.length (acMessage c') < CUTEST_MAX_LEN_MESSAGE)%nat).
Proof.
  intros Hc Hfn Htext.
  rewrite (CuTest_RunTestCase_enter _ _ _ _ _ _ Hc Hfn Htext).
  set (c1 := set_acMessage "" (set_eResult EN_CUTEST_RESULT_UNDEF c)).
  assert (cases (reset_case psTc c s) !! psTc = Some c1) as Hc1.
  { unfold reset_case. rewrite cases_set_cases. apply lookup_insert_eq. }
  assert (∀ c',
            setjmp psTc (assertions fmt_Lf fmt_p body psTc) (reset_case psTc c s)
            = (Ret tt, set_cases (<[psTc := c']> (cases s)) s) →
            ∃ out, (setjmp psTc (assertions fmt_Lf fmt_p body psTc);;
                    c' ← deref psTc;
                    if bPrintResult c' then print_case_result c' else mret tt)
                     (reset_case psTc c s)
                   = (Ret tt, set_stdout (stdout s +:+ out)
                                (set_cases (<[psTc := c']> (cases s)) s))) as Htail.
  { intros c' Hset. erewrite bind_Ret by done.
    erewrite bind_Ret;
      [|apply deref_Some; rewrite cases_set_cases; apply lookup_insert_eq].
    destruct (bPrintResult c').
    - destruct (print_case_result_stdout c' (set_cases (<[psTc := c']> (cases s)) s))
        as [out ->]. by exists out.
    - exists "". f_equal. symmetry.
      apply (set_stdout_same (set_cases (<[psTc := c']> (cases s)) s)). }
  assert (∀ c0 : cutest_case_t,
            set_cases (<[psTc := c0]> (cases (reset_case psTc c s))) (reset_case psTc c s)
            = set_cases (<[psTc := c0]> (cases s)) s) as Hins.
  { intros c0. unfold reset_case.
    by rewrite set_cases_set_cases, cases_set_cases, insert_insert_eq. }
  destruct (assertions_outcome fmt_Lf fmt_p psTc body _ c1 Hc1)
    as [[-> Hr]|[[Hne Hr]|[(site & formatted & c0 & Hin & Hc0 & Hr)|[s' Hr]]]];
    cbn zeta in Hr; rewrite ?Hins in Hr.
  - right. destruct (Htail c1) as [out ->]; [unfold setjmp; by rewrite Hr|].
    exists c1, out. split; [done|]. split; [done|]. split; [done|]. split; done.
  - right.
    destruct (Htail (set_eResult EN_CUTEST_RESULT_PASS c1)) as [out ->];
      [unfold setjmp; by rewrite Hr|].
    exists (set_eResult EN_CUTEST_RESULT_PASS c1), out.
    split; [done|]. split; [done|]. split; [by split|]. split; done.
  - right.
    destruct (Htail (failed_case formatted site.1.1 site.1.2 c0)) as [out ->];
      [unfold setjmp; rewrite Hr; by rewrite decide_True|].
    exists (failed_case formatted site.1.1 site.1.2 c0), out.
    split; [done|]. split; [by destruct Hc0 as [->| ->]|].
    split; [split; [done|]; intros ->; by apply not_elem_of_nil in Hin|].
    split; [done|].
    intros _. exists site. split; [done|]. split; [done|]. split; [done|].
    change (acMessage (failed_case formatted site.1.1 site.1.2 c0))
      with (string_take 255 formatted).
    pose proof (string_take_length 255 formatted).
    unfold CUTEST_MAX_LEN_MESSAGE. lia.
  - left. exists s'. apply bind_Abort. unfold setjmp. by rewrite Hr.
Qed.

(** X4: when the test function of a case is a sequence of assertion macros
    and no contract is violated, the case runner returns normally and never
    leaves through [longjmp]; it writes no other case object and no file, and
    leaves the declaration fields of the case alone.  The result is undefined
    exactly when the sequence is empty; unless the result is failed the
    message buffer is empty; and a failed result carries the source location
    of one of the assertions and a message of at most 255 characters. *)
Theorem X4_runner_result (fmt_Lf : PrimFloat.float → string)
    (fmt_p : option positive → string) (text : fn_ptr → option (addr → M unit))
    (psTc : addr) (s : machine) (c : cutest_case_t) (fn : fn_ptr)
    (body : list (string * Z * assertion)) :
  cases s !! psTc = Some c → pfvTestFn c = Some fn →
  text fn = Some (assertions fmt_Lf fmt_p body) →
  let r := CuTest_RunTestCase text psTc s in
  (∃ s', r = (Abort, s'))
  ∨ (∃ c',
       r.1 = Ret tt ∧ cases r.2 !! psTc = Some c' ∧ same_declaration c c'
       ∧ (∀ p, p ≠ psTc → cases r.2 !! p = cases s !! p)
       ∧ files r.2 = files s
       ∧ (eResult c' = EN_CUTEST_RESULT_UNDEF ↔ body = [])
       ∧ (eResult c' ≠ EN_CUTEST_RESULT_FAIL → acMessage c' = "")
       ∧ (eResult c' = EN_CUTEST_RESULT_FAIL →
          ∃ site, site ∈ body ∧ pszMsgFile c' = site.1.1 ∧ ulMsgLine c' = site.1.2
                  ∧ (String.length (acMessage c') < CUTEST_MAX_LEN_MESSAGE)%nat)).
Proof.
  intros Hc Hfn Htext r. unfold r.
  destruct (CuTest_RunTestCase_assertions fmt_Lf fmt_p text psTc s c fn body Hc Hfn Htext)
    as [[s' ->]|(c' & out & -> & Hd & Hu & Hm & Hf)].
  - left. by exists s'.
  - right. exists c'. cbn [fst snd set_stdout set_cases cases files].
    rewrite lookup_insert_eq.
    split; [done|]. split; [done|]. split; [done|].
    split; [intros p Hp; by rewrite lookup_insert_ne|]. done.
Qed.

Lemma X4_witness :
  let r := CuTest_RunTestCase two_assertions_text TEST_Module_MyGroup_Case1 main_start in
  (∃ s', r = (Abort, s'))
  ∨ (∃ c',
       r.1 = Ret tt ∧ cases r.2 !! TEST_Module_MyGroup_Case1 = Some c'
       ∧ same_declaration _TEST_Module_MyGroup_Case1__TestCase c'
       ∧ (∀ p, p ≠ TEST_Module_MyGroup_Case1 → cases r.2 !! p = cases main_start !! p)
       ∧ files r.2 = files main_start
       ∧ (eResult c' = EN_CUTEST_RESULT_UNDEF ↔ two_assertions = [])
       ∧ (eResult c' ≠ EN_CUTEST_RESULT_FAIL → acMessage c' = "")
       ∧ (eResult c' = EN_CUTEST_RESULT_FAIL →
          ∃ site, site ∈ two_assertions ∧ pszMsgFile c' = site.1.1
                  ∧ ulMsgLine c' = site.1.2
                  ∧ (String.length (acMessage c') < CUTEST_MAX_LEN_MESSAGE)%nat)).
Proof.
  apply (X4_runner_result (λ _, "") (λ _, "") two_assertions_text
           TEST_Module_MyGroup_Case1 main_start _TEST_Module_MyGroup_Case1__TestCase
           1%positive two_assertions); reflexivity.
Defined.

(** ** Building the root *)

Lemma CuTest_AppendRootItem_Some r item r' :
  CuTest_AppendRootItem r item = Some r'
  ↔ pItem_set item = true ∧ (ulCount r < CUTEST_MAX_NUM_ROOT_ITEM)%nat
    ∧ r' = {| root_pszName := root_pszName r; ulCount := S (ulCount r);
              asItems := <[ulCount r := item]> (asItems r) |}.
Proof.
  unfold CuTest_AppendRootItem.
  destruct (decide (pItem_set item = true)) as [Hp|Hp].
  - rewrite (option_guard_True (pItem_set item = true)) by done. cbn [mbind option_bind].
    destruct (decide (ulCount r < CUTEST_MAX_NUM_ROOT_ITEM)%nat) as [Hc|Hc].
    + rewrite option_guard_True by done. cbn [mbind option_bind].
      split; [by intros [= <-]|]. by intros (_ & _ & ->).
    + rewrite option_guard_False by done. cbn [mbind option_bind].
      split; [done|]. by intros (_ & ? & _).
  - rewrite (option_guard_False (pItem_set item = true)) by done. cbn [mbind option_bind].
    split; [done|]. by intros (? & _).
Qed.

Lemma CuTest_AppendRootItem_wf r item r' :
  root_wf r → CuTest_AppendRootItem r item = Some r' →
  root_wf r' ∧ root_pszName r' = root_pszName r ∧ ulCount r' = S (ulCount r)
  ∧ take (ulCount r') (asItems r') = (take (ulCount r) (asItems r) ++ [item])%list.
Proof.
  intros [Hlen Hcount] (Hp & Hlt & ->)%CuTest_AppendRootItem_Some.
  cbn [root_pszName ulCount asItems]. unfold root_wf. cbn [ulCount asItems].
  rewrite length_insert.
  split; [split; [done|lia]|]. split; [done|]. split; [done|].
  erewrite take_S_r; [|apply list_lookup_insert_eq; lia].
  by rewrite take_insert_ge by lia.
Qed.

Lemma register_wf r items r' :
  root_wf r → register r items = Some r' →
  root_wf r' ∧ root_pszName r' = root_pszName r
  ∧ ulCount r' = (ulCount r + length items)%nat
  ∧ take (ulCount r') (asItems r') = (take (ulCount r) (asItems r) ++ items)%list.
Proof.
  revert r. induction items as [|item items IH]; intros r Hwf.
  - intros [= <-]. rewrite app_nil_r, Nat.add_0_r. done.
  - unfold register. cbn [fold_opt].
    destruct (CuTest_AppendRootItem r item) as [r1|] eqn:H1; [|done].
    cbn [mbind option_bind]. intros Hrest.
    destruct (CuTest_AppendRootItem_wf r item r1 Hwf H1) as (Hwf1 & Hn1 & Hc1 & Ht1).
    destruct (IH r1 Hwf1 Hrest) as (Hwf' & Hn' & Hc' & Ht').
    split; [done|]. split; [congruence|]. split; [cbn [length]; lia|].
    rewrite Ht', Ht1, <- app_assoc. done.
Qed.

Lemma register_is_Some r items :
  root_wf r →
  is_Some (register r items)
  ↔ (ulCount r + length items ≤ CUTEST_MAX_NUM_ROOT_ITEM)%nat
    ∧ Forall (λ e, pItem_set e = true) items.
Proof.
  revert r. induction items as [|item items IH]; intros r Hwf.
  - cbn [length]. rewrite Nat.add_0_r. split; [|by eexists].
    intros _. split; [apply Hwf|constructor].
  - unfold register. cbn [fold_opt length].
    destruct (CuTest_AppendRootItem r item) as [r1|] eqn:H1; cbn [mbind option_bind].
    + destruct (CuTest_AppendRootItem_wf r item r1 Hwf H1) as (Hwf1 & _ & Hc1 & _).
      apply CuTest_AppendRootItem_Some in H1 as (Hp & Hlt & _).
      fold (register r1 items). rewrite (IH r1 Hwf1), Hc1, Forall_cons.
      split; [intros [? ?]; split; [lia|done]|intros [? [? ?]]; split; [lia|done]].
    + split; [by intros [? ?]|]. intros [Hle [Hp Hall]%Forall_cons]. exfalso.
      assert (is_Some (CuTest_AppendRootItem r item)) as [? ?]; [|congruence].
      eexists. apply CuTest_AppendRootItem_Some. split; [done|]. split; [lia|done].
Qed.

Lemma BEGIN_TEST_RUN_wf name : root_wf (BEGIN_TEST_RUN name).
Proof.
  unfold root_wf, BEGIN_TEST_RUN. cbn [asItems ulCount].
  rewrite length_replicate. split; [done|lia].
Qed.

(** X5: registration keeps the order and respects the capacity.  Starting
    from [BEGIN_TEST_RUN], a sequence of append calls goes through exactly
    when it has at most [CUTEST_MAX_NUM_ROOT_ITEM] elements and none of them
    is NULL; the root then counts them all and holds them in the order of the
    calls, under the project name it was given. *)
Theorem X5_registration (name : string) (items : list cutest_relem_t) :
  (is_Some (register (BEGIN_TEST_RUN name) items)
   ↔ (length items ≤ CUTEST_MAX_NUM_ROOT_ITEM)%nat
     ∧ Forall (λ e, pItem_set e = true) items)
  ∧ ∀ r, register (BEGIN_TEST_RUN name) items = Some r →
      root_pszName r = name ∧ ulCount r = length items
      ∧ take (ulCount r) (asItems r) = items
      ∧ length (asItems r) = CUTEST_MAX_NUM_ROOT_ITEM.
Proof.
  split; [apply (register_is_Some _ _ (BEGIN_TEST_RUN_wf name))|].
  intros r Hr.
  destruct (register_wf _ _ _ (BEGIN_TEST_RUN_wf name) Hr) as ([Hlen _] & Hn & Hc & Ht).
  done.
Qed.

Lemma X5_witness :
  root_pszName main_root = "Unnamed Project" ∧ ulCount main_root = 1%nat
  ∧ take (ulCount main_root) (asItems main_root) = [RModule (Some TestMyModule)]
  ∧ length (asItems main_root) = CUTEST_MAX_NUM_ROOT_ITEM.
Proof.
  apply (proj2 (X5_registration "Unnamed Project" [RModule (Some TestMyModule)])).
  reflexivity.
Defined.

(** X6: the capacity of the root can be used up, and a full root cannot be
    reported.  Registering exactly [CUTEST_MAX_NUM_ROOT_ITEM] elements goes
    through, but the resulting root violates the contract that the
    aggregator and the reporters assert: the statistics, the overall result
    and the exit code are never computed, the console report stops after its
    heading and the HTML report stops before it opens the file.  A further
    element is refused as well. *)
Theorem X6_full_root (strftime_FTz : Z → option string) (name : string)
    (items : list cutest_relem_t) (h : gmap addr cutest_case_t) (pTime : Z)
    (pszFile : string) (s : machine) :
  length items = CUTEST_MAX_NUM_ROOT_ITEM →
  Forall (λ e, pItem_set e = true) items →
  ∃ r, register (BEGIN_TEST_RUN name) items = Some r
       ∧ (∀ item, CuTest_AppendRootItem r item = None)
       ∧ CuTestGetStats h r = None
       ∧ CuTest_GetRunResult h r = None
       ∧ GET_RUN_RESULT h r = None
       ∧ CuTestPrintSummary r s = (Abort, s)
       ∧ CuTestPrintDetails r s = (Abort, s)
       ∧ (CuTest_PrintRunResults strftime_FTz r pTime s).1 = Abort
       ∧ CuTest_GenerateRunReport strftime_FTz r pTime pszFile s = (Abort, s).
Proof.
  intros Hlen Hall.
  destruct (proj2 (register_is_Some (BEGIN_TEST_RUN name) items (BEGIN_TEST_RUN_wf name)))
    as [r Hr]; [split; [cbn [BEGIN_TEST_RUN ulCount]; lia|done]|].
  destruct (register_wf _ _ _ (BEGIN_TEST_RUN_wf name) Hr) as (_ & _ & Hc & _).
  cbn [BEGIN_TEST_RUN ulCount] in Hc. rewrite Hlen in Hc. cbn [Nat.add] in Hc.
  assert (¬ (ulCount r < CUTEST_MAX_NUM_ROOT_ITEM)%nat) as Hfull by lia.
  assert (CuTestGetStats h r = None) as Hstats.
  { unfold CuTestGetStats. by rewrite option_guard_False. }
  assert (∀ A (k : unit → M A) s0,
            (assert (bool_decide (ulCount r < CUTEST_MAX_NUM_ROOT_ITEM)%nat) ≫= k) s0
            = (Abort, s0)) as Hassert.
  { intros A k s0. apply bind_Abort. unfold assert.
    by rewrite bool_decide_eq_false_2. }
  exists r. split; [done|].
  split.
  { intros item. destruct (CuTest_AppendRootItem r item) as [r'|] eqn:Hr'; [|done].
    apply CuTest_AppendRootItem_Some in Hr' as (_ & ? & _). done. }
  split; [done|].
  split; [unfold CuTest_GetRunResult; by rewrite Hstats|].
  split; [unfold GET_RUN_RESULT, CuTest_GetRunResult; by rewrite Hstats|].
  split; [apply Hassert|]. split; [apply Hassert|].
  split; [|apply Hassert].
  unfold CuTest_PrintRunResults.
  do 4 (erewrite bind_Ret; [|reflexivity]).
  erewrite bind_Abort; [done|]. apply Hassert.
Qed.

Lemma X6_witness :
  ∃ r, register (BEGIN_TEST_RUN "Unnamed Project")
         (replicate 32 (RModule (Some TestMyModule))) = Some r
       ∧ (∀ item, CuTest_AppendRootItem r item = None)
       ∧ CuTestGetStats (cases main_after_run) r = None
       ∧ CuTest_GetRunResult (cases main_after_run) r = None
       ∧ GET_RUN_RESULT (cases main_after_run) r = None
       ∧ CuTestPrintSummary r main_after_run = (Abort, main_after_run)
       ∧ CuTestPrintDetails r main_after_run = (Abort, main_after_run)
       ∧ (CuTest_PrintRunResults (λ _, Some "2023-04-26T12:00:00+0000") r 0
            main_after_run).1 = Abort
       ∧ CuTest_GenerateRunReport (λ _, Some "2023-04-26T12:00:00+0000") r 0
           "report.html" main_after_run = (Abort, main_after_run).
Proof.
  apply (X6_full_root (λ _, Some "2023-04-26T12:00:00+0000") "Unnamed Project"
           (replicate 32 (RModule (Some TestMyModule))) (cases main_after_run) 0
           "report.html" main_after_run).
  - reflexivity.
  - repeat constructor.
Defined.

(** ** Exact statistics *)

Lemma stats_list_is_Some h l acc :
  stats_wf acc → is_Some (stats_list h acc l) ↔ all_allocated h l.
Proof.
  intros Hacc. split; [|apply stats_list_total].
  intros [st Hst]. by apply stats_list_counts in Hst as [? _].
Qed.

Lemma count_result_app h r l1 l2 :
  count_result h r (l1 ++ l2) = (count_result h r l1 + count_result h r l2)%nat.
Proof. unfold count_result. by rewrite filter_app, length_app. Qed.

Lemma root_cases_append r item r' :
  root_wf r → CuTest_AppendRootItem r item = Some r' →
  root_cases r' = (root_cases r ++ relem_cases item)%list.
Proof.
  intros Hwf Hr'.
  destruct (CuTest_AppendRootItem_wf r item r' Hwf Hr') as (_ & _ & _ & Ht).
  unfold root_cases. rewrite Ht, bind_app. f_equal.
  change ([item] ≫= relem_cases) with (relem_cases item ++ [])%list.
  by rewrite app_nil_r.
Qed.

(** X7: the counters are exact.  The aggregator answers exactly when the
    root is inside its asserted contract and every case pointer it reaches
    designates a case object; its three counters are then the number of
    cases the run holds, the number of those that passed and the number of
    those that failed, with no wrap-around of the [unsigned long]
    arithmetic. *)
Theorem X7_stats_exact (h : gmap addr cutest_case_t) (r : cutest_root_t) :
  (ulCount r ≤ length (asItems r))%nat →
  (is_Some (CuTestGetStats h r)
   ↔ (ulCount r < CUTEST_MAX_NUM_ROOT_ITEM)%nat ∧ all_allocated h (root_cases r))
  ∧ ∀ st, CuTestGetStats h r = Some st →
      ulTotal st = Z.of_nat (length (root_cases r))
      ∧ ulPassed st = Z.of_nat (count_result h EN_CUTEST_RESULT_PASS (root_cases r))
      ∧ ulFailed st = Z.of_nat (count_result h EN_CUTEST_RESULT_FAIL (root_cases r)).
Proof.
  intros Hle. split.
  - rewrite CuTestGetStats_list. case_decide as Hd.
    + rewrite (stats_list_is_Some _ _ _ stats_zero_wf). tauto.
    + split; [by intros [? ?]|]. intros [? _]. tauto.
  - intros st (Hlt & Hst)%CuTestGetStats_Some.
    apply stats_list_exact in Hst as (? & ? & ? & _); [done|].
    by apply root_cases_small.
Qed.

Lemma X7_witness :
  ulTotal (default stats_zero (CuTestGetStats (cases main_after_run) main_root))
  = Z.of_nat (length (root_cases main_root)).
Proof.
  apply (proj2 (X7_stats_exact (cases main_after_run) main_root
                  ltac:(vm_compute; lia))
           (default stats_zero (CuTestGetStats (cases main_after_run) main_root))).
  reflexivity.
Defined.

(** X8: registering one more element adds that element's cases to the
    statistics.  When the aggregator answers for the root after an append,
    it also answers for the root before it, and each counter has grown by
    the number of cases (passed cases, failed cases) of the appended
    element. *)
Theorem X8_append_stats (h : gmap addr cutest_case_t) (r r' : cutest_root_t)
    (item : cutest_relem_t) (st' : cutest_stats_t) :
  root_wf r → CuTest_AppendRootItem r item = Some r' →
  CuTestGetStats h r' = Some st' →
  ∃ st, CuTestGetStats h r = Some st
        ∧ (ulTotal st' = ulTotal st + Z.of_nat (length (relem_cases item)))%Z
        ∧ (ulPassed st'
           = ulPassed st
             + Z.of_nat (count_result h EN_CUTEST_RESULT_PASS (relem_cases item)))%Z
        ∧ (ulFailed st'
           = ulFailed st
             + Z.of_nat (count_result h EN_CUTEST_RESULT_FAIL (relem_cases item)))%Z.
Proof.
  intros Hwf Hr' Hst'.
  pose proof (root_cases_append r item r' Hwf Hr') as Hcases.
  destruct (CuTest_AppendRootItem_wf r item r' Hwf Hr') as (_ & _ & Hc & _).
  apply CuTestGetStats_Some in Hst' as (Hlt' & Hst').
  pose proof Hst' as Hex.
  apply stats_list_exact in Hex as (Ht' & Hp' & Hf' & _); [|by apply root_cases_small].
  rewrite Hcases, stats_list_app in Hst'.
  destruct (stats_list h stats_zero (root_cases r)) as [st|] eqn:Hst; [|done].
  exists st. destruct Hwf as [Hlen Hcount].
  split.
  { rewrite CuTestGetStats_list, decide_True; [done|]. split; lia. }
  apply stats_list_exact in Hst as (Ht & Hp & Hf & _);
    [|apply root_cases_small; lia].
  rewrite Ht', Hp', Hf', Ht, Hp, Hf, Hcases, length_app, !count_result_app. lia.
Qed.

Lemma X8_witness :
  ∃ st, CuTestGetStats (cases main_after_run) (BEGIN_TEST_RUN "Unnamed Project")
        = Some st
        ∧ (2 = ulTotal st + Z.of_nat (length (relem_cases (RModule (Some TestMyModule)))))%Z
        ∧ (1 = ulPassed st
               + Z.of_nat (count_result (cases main_after_run) EN_CUTEST_RESULT_PASS
                             (relem_cases (RModule (Some TestMyModule)))))%Z
        ∧ (1 = ulFailed st
               + Z.of_nat (count_result (cases main_after_run) EN_CUTEST_RESULT_FAIL
                             (relem_cases (RModule (Some TestMyModule)))))%Z.
Proof.
  apply (X8_append_stats (cases main_after_run) (BEGIN_TEST_RUN "Unnamed Project")
           main_root (RModule (Some TestMyModule))
           {| ulTotal := 2; ulPassed := 1; ulFailed := 1 |}).
  - split; [reflexivity|vm_compute; lia].
  - reflexivity.
  - vm_compute. reflexivity.
Defined.

(** ** What the reporters leave alone *)

#[local] Instance console_frame_preorder : PreOrder console_frame.
Proof.
  split.
  - intros s. unfold console_frame. split; [done|]. split; [done|]. split; [done|].
    exists "". by rewrite append_nil_r.
  - intros s1 s2 s3 (Hc & Hf & Hu & out & Ho) (Hc' & Hf' & Hu' & out' & Ho').
    unfold console_frame. split; [congruence|]. split; [congruence|].
    split; [congruence|]. exists (out +:+ out'). by rewrite Ho', Ho, append_assoc.
Qed.

#[local] Instance file_frame_preorder f : PreOrder (file_frame f).
Proof.
  split.
  - intros s. unfold file_frame. split; [done|]. split; [done|]. split; [done|].
    split; [done|]. split; [done|]. exists "". by rewrite append_nil_r.
  - intros s1 s2 s3 (Hc & Ho & Hu & Ht & Hk & out & Hf)
      (Hc' & Ho' & Hu' & Ht' & Hk' & out' & Hf').
    unfold file_frame. split; [congruence|]. split; [congruence|].
    split; [congruence|]. split; [congruence|].
    split; [intros k Hne; by rewrite Hk', Hk|].
    exists (out +:+ out'). by rewrite Hf', Hf, append_assoc.
Qed.

Section frames.

Context (R : machine → machine → Prop) `{!PreOrder R}.

Lemma preserves_same {A} (m : M A) : (∀ s, (m s).2 = s) → preserves R m.
Proof. intros H s. by rewrite H. Qed.

Lemma preserves_ret {A} (a : A) : preserves R (mret a).
Proof. by apply preserves_same. Qed.

Lemma preserves_abort {A} : preserves R (abort (A:=A)).
Proof. by apply preserves_same. Qed.

Lemma preserves_assert b : preserves R (assert b).
Proof. apply preserves_same. intros s. by destruct b. Qed.

Lemma preserves_deref p : preserves R (deref p).
Proof. apply preserves_same. intros s. unfold deref. by destruct (cases s !! p). Qed.

Lemma preserves_read_cases {A} (f : gmap addr cutest_case_t → option A) :
  preserves R (read_cases f).
Proof. apply preserves_same. intros s. unfold read_cases. by destruct (f (cases s)). Qed.

Lemma preserves_root_item r i : preserves R (root_item r i).
Proof.
  apply preserves_same. intros s. unfold root_item. by destruct (asItems r !! i).
Qed.

Lemma preserves_bind {A B} (m : M A) (k : A → M B) :
  preserves R m → (∀ a, preserves R (k a)) → preserves R (m ≫= k).
Proof.
  intros Hm Hk s. specialize (Hm s). unfold mbind, M_bind.
  destruct (m s) as [[a|env|] s1]; cbn [snd] in *; [|done..].
  by etrans; [|apply Hk].
Qed.

Lemma preserves_for_loop {A} n i (body : nat → A → M (bool * A)) a :
  (∀ j b, preserves R (body j b)) → preserves R (for_loop n i body a).
Proof.
  intros Hbody. revert i a. induction n as [|n IH]; intros i a; cbn [for_loop].
  - apply preserves_ret.
  - apply preserves_bind; [done|]. intros [[] b]; cbn [fst snd]; [apply IH|].
    apply preserves_ret.
Qed.

(** *** The console reporters *)

Section console.

Hypothesis preserves_printf : ∀ formatted, preserves R (printf formatted).

Lemma preserves_SummaryTape_Case p : preserves R (CuTestPrintSummaryTape_Case p).
Proof.
  apply preserves_bind; [apply preserves_deref|]. intros c.
  destruct (eResult c); apply preserves_printf.
Qed.

Lemma preserves_SummaryTape_Group g : preserves R (CuTestPrintSummaryTape_Group g).
Proof.
  apply preserves_for_loop. intros j []. destruct (slot _ j); [|apply preserves_ret].
  apply preserves_bind; [apply preserves_SummaryTape_Case|]. intros _.
  apply preserves_ret.
Qed.

Lemma preserves_SummaryTape_Module m : preserves R (CuTestPrintSummaryTape_Module m).
Proof.
  apply preserves_for_loop. intros j []. destruct (slot _ j); [|apply preserves_ret].
  apply preserves_bind; [apply preserves_SummaryTape_Group|]. intros _.
  apply preserves_ret.
Qed.

Lemma preserves_PrintSummary r : preserves R (CuTestPrintSummary r).
Proof.
  apply preserves_bind; [apply preserves_assert|]. intros _.
  apply preserves_bind; [apply preserves_printf|]. intros _.
  apply preserves_bind; [|intros _; apply preserves_printf].
  apply preserves_for_loop. intros j [].
  apply preserves_bind; [apply preserves_root_item|].
  intros [[p|]|[g|]|[m|]]; try apply preserves_ret;
    (apply preserves_bind; [|intros _; apply preserves_ret]).
  - apply preserves_SummaryTape_Case.
  - apply preserves_SummaryTape_Group.
  - apply preserves_SummaryTape_Module.
Qed.

Lemma preserves_PrintDetails_Case ulNum p : preserves R (CuTestPrintDetails_Case ulNum p).
Proof.
  apply preserves_bind; [apply preserves_deref|]. intros c.
  destruct (eResult c); try apply preserves_ret;
    (apply preserves_bind; [apply preserves_printf|intros _; apply preserves_ret]).
Qed.

Lemma preserves_PrintDetails_Group ulNum g :
  preserves R (CuTestPrintDetails_Group ulNum g).
Proof.
  apply preserves_for_loop. intros j n. destruct (slot _ j); [|apply preserves_ret].
  apply preserves_bind; [apply preserves_PrintDetails_Case|]. intros ?.
  apply preserves_ret.
Qed.

Lemma preserves_PrintDetails_Module ulNum m :
  preserves R (CuTestPrintDetails_Module ulNum m).
Proof.
  apply preserves_for_loop. intros j n. destruct (slot _ j); [|apply preserves_ret].
  apply preserves_bind; [apply preserves_PrintDetails_Group|]. intros ?.
  apply preserves_ret.
Qed.

Lemma preserves_PrintDetails r : preserves R (CuTestPrintDetails r).
Proof.
  apply preserves_bind; [apply preserves_assert|]. intros _.
  apply preserves_bind; [apply preserves_read_cases|]. intros st.
  apply preserves_bind; [|intros _; apply preserves_printf].
  case_decide; [apply preserves_printf|].
  apply preserves_bind; [apply preserves_printf|]. intros _.
  apply preserves_bind; [|intros _; apply preserves_printf].
  apply preserves_for_loop. intros j n.
  apply preserves_bind; [apply preserves_root_item|].
  intros [[p|]|[g|]|[m|]]; try apply preserves_ret;
    (apply preserves_bind; [|intros ?; apply preserves_ret]).
  - apply preserves_PrintDetails_Case.
  - apply preserves_PrintDetails_Group.
  - apply preserves_PrintDetails_Module.
Qed.

Lemma preserves_PrintRunResults strftime_FTz r pTime :
  preserves R (CuTestGetTimestampString strftime_FTz pTime) →
  preserves R (CuTest_PrintRunResults strftime_FTz r pTime).
Proof.
  intros Hts. unfold CuTest_PrintRunResults.
  do 4 (apply preserves_bind; [apply preserves_printf|intros _]).
  apply preserves_bind; [apply preserves_PrintSummary|intros _].
  apply preserves_bind; [apply preserves_PrintDetails|intros _].
  apply preserves_bind; [apply preserves_printf|intros _].
  apply preserves_bind; [done|intros ts].
  apply preserves_bind; [apply preserves_printf|intros _]. apply preserves_printf.
Qed.

End console.

(** *** The writers of the HTML report *)

Section report.

Context (f : string).
Hypothesis preserves_fprintf : ∀ formatted, preserves R (fprintf f formatted).

Lemma preserves_Report_CaseLine ulNum p :
  preserves R (CuTestGenerateReport_CaseLine f ulNum p).
Proof.
  apply preserves_bind; [apply preserves_deref|]. intros c.
  destruct (eResult c);
    (apply preserves_bind; [apply preserves_fprintf|intros _; apply preserves_ret]).
Qed.

Lemma preserves_Report_Group ulNum g : preserves R (CuTestGenerateReport_Group f ulNum g).
Proof.
  apply preserves_bind; [apply preserves_fprintf|intros _].
  apply preserves_bind; [apply preserves_fprintf|intros _].
  apply preserves_bind.
  - apply preserves_for_loop. intros j n. destruct (slot _ j); [|apply preserves_ret].
    apply preserves_bind; [apply preserves_Report_CaseLine|]. intros ?.
    apply preserves_ret.
  - intros n. apply preserves_bind; [apply preserves_fprintf|intros _].
    apply preserves_ret.
Qed.

Lemma preserves_Report_Module ulNum m :
  preserves R (CuTestGenerateReport_Module f ulNum m).
Proof.
  apply preserves_bind; [apply preserves_fprintf|intros _].
  apply preserves_for_loop. intros j n. destruct (slot _ j); [|apply preserves_ret].
  apply preserves_bind; [apply preserves_Report_Group|]. intros ?.
  apply preserves_ret.
Qed.

End report.

End frames.

Lemma preserves_printf formatted : preserves console_frame (printf formatted).
Proof. intros s. unfold console_frame, printf. cbn. by eauto. Qed.

Lemma preserves_GetTimestamp strftime_FTz pTime :
  preserves console_frame (CuTestGetTimestampString strftime_FTz pTime).
Proof.
  intros s. unfold CuTestGetTimestampString.
  destruct (strftime_FTz pTime); [|reflexivity].
  unfold console_frame. cbn. split; [done|]. split; [done|]. split; [done|].
  exists "". by rewrite append_nil_r.
Qed.

Lemma preserves_fprintf f formatted : preserves (file_frame f) (fprintf f formatted).
Proof.
  intros s. unfold file_frame, fprintf. cbn.
  split; [done|]. split; [done|]. split; [done|]. split; [done|].
  split; [intros k Hk; by rewrite lookup_insert_ne|].
  exists formatted. by rewrite lookup_insert_eq.
Qed.

(** X9: the console report only prints.  However [CuTest_PrintRunResults]
    ends, it has changed no case object and no file, and standard output is
    what it was with text appended; the statistics and the overall result
    are therefore the same after it as before. *)
Theorem X9_console_report_prints_only (strftime_FTz : Z → option string)
    (psRoot : cutest_root_t) (pTime : Z) (s : machine) :
  let s' := (CuTest_PrintRunResults strftime_FTz psRoot pTime s).2 in
  cases s' = cases s ∧ files s' = files s ∧ unwritable s' = unwritable s
  ∧ (∃ out, stdout s' = stdout s +:+ out)
  ∧ CuTest_GetRunResult (cases s') psRoot = CuTest_GetRunResult (cases s) psRoot.
Proof.
  destruct (preserves_PrintRunResults console_frame preserves_printf strftime_FTz
              psRoot pTime (preserves_GetTimestamp strftime_FTz pTime) s)
    as (Hc & Hf & Hu & Hout).
  cbn zeta. rewrite Hc. done.
Qed.

(** *** The HTML report *)

Lemma CuTest_GenerateRunReport_shape strftime_FTz psRoot pTime pszFile :
  let G := CuTest_GenerateRunReport strftime_FTz psRoot pTime pszFile in
  let open := λ s, set_files (<[c_str pszFile := ""]> (files s)) s in
  (∀ s, G s = (Abort, s))
  ∨ ∃ K : M unit,
      (∀ s, G s = if decide (c_str pszFile ∈ unwritable s) then (Ret tt, s)
                  else K (open s))
      ∧ (∀ s, report_frame (c_str pszFile) s (K s).2)
      ∧ (∀ s s', cases s' = cases s → stdout s' = stdout s → files s' = files s →
                 unwritable s' = unwritable s →
                 acTimestampBuffer s' = acTimestampBuffer (K s).2 →
                 K s' = K s).
Proof.
  intros G open.
  destruct (decide (ulCount psRoot < CUTEST_MAX_NUM_ROOT_ITEM)%nat) as [Hlt|Hge].
  2: { left. intros s. apply bind_Abort. unfold assert.
       by rewrite bool_decide_eq_false_2. }
  right. eexists. split; [|split].
  - intros s. unfold G, CuTest_GenerateRunReport.
    erewrite bind_Ret; [|unfold assert; by rewrite bool_decide_eq_true_2].
    unfold fopen_w. case_decide.
    + erewrite bind_Ret; [|by rewrite decide_True]. done.
    + erewrite bind_Ret; [|by rewrite decide_False]. cbn match. reflexivity.
  - cbn beta. unfold CuTestGetTimestampString.
    destruct (strftime_FTz pTime) as [text|]; [|intros s; by unfold report_frame].
    set (buffer := if decide _ then text else "").
    intros s. erewrite bind_Ret; [|reflexivity].
    match goal with |- context [?m (set_acTimestampBuffer _ _)] => set (rest := m) end.
    assert (preserves (file_frame (c_str pszFile)) rest) as Hrest.
    { pose proof (preserves_fprintf (c_str pszFile)) as Hf.
      pose proof (file_frame_preorder (c_str pszFile)) as Hpre.
      unfold rest.
      apply preserves_bind; [done|apply Hf|intros _].
      apply preserves_bind; [done| |intros _].
      - apply preserves_for_loop; [done|]. intros j n.
        apply preserves_bind; [done|by apply preserves_root_item|].
        intros [p|[g|]|[m|]]; try by apply preserves_abort.
        + apply preserves_bind; [done|apply Hf|intros _].
          apply preserves_bind; [done| |intros ?].
          * destruct p; [by apply preserves_Report_CaseLine|by apply preserves_abort].
          * apply preserves_bind; [done|apply Hf|intros _]. by apply preserves_ret.
        + apply preserves_bind; [done|by apply preserves_Report_Group|intros ?].
          by apply preserves_ret.
        + apply preserves_bind; [done|by apply preserves_Report_Module|intros ?].
          by apply preserves_ret.
      - apply preserves_bind; [done|by apply preserves_read_cases|intros st].
        apply preserves_bind; [done|apply Hf|intros _]. by apply preserves_ret. }
    destruct (Hrest (set_acTimestampBuffer buffer s)) as (Hc & Ho & Hu & _ & Hk & _).
    split; [done|]. split; [done|]. split; [done|]. done.
  - cbn beta. unfold CuTestGetTimestampString.
    destruct (strftime_FTz pTime) as [text|].
    + set (buffer := if decide _ then text else "").
      intros s s' Hc Ho Hf Hu _.
      rewrite (bind_Ret _ _ s buffer (set_acTimestampBuffer buffer s) eq_refl),
        (bind_Ret _ _ s' buffer (set_acTimestampBuffer buffer s') eq_refl).
      f_equal.
      apply machine_eq; cbn; done.
    + intros s s' Hc Ho Hf Hu Ht. cbn in Ht.
      assert (s' = s) as -> by by apply machine_eq. done.
Qed.

(** X10: the HTML report writes one file and nothing else.  However
    [CuTest_GenerateRunReport] ends, the case objects, standard output and
    every file other than the report file are what they were; the overall
    result is the same after it as before. *)
Theorem X10_report_writes_one_file (strftime_FTz : Z → option string)
    (psRoot : cutest_root_t) (pTime : Z) (pszFile : string) (s : machine) :
  let s' := (CuTest_GenerateRunReport strftime_FTz psRoot pTime pszFile s).2 in
  cases s' = cases s ∧ stdout s' = stdout s ∧ unwritable s' = unwritable s
  ∧ (∀ k, k ≠ c_str pszFile → files s' !! k = files s !! k)
  ∧ CuTest_GetRunResult (cases s') psRoot = CuTest_GetRunResult (cases s) psRoot.
Proof.
  cbn zeta.
  destruct (CuTest_GenerateRunReport_shape strftime_FTz psRoot pTime pszFile)
    as [Hab|(K & HG & HA & _)]; cbn zeta in *.
  - by rewrite Hab.
  - rewrite HG. case_decide; [done|].
    destruct (HA (set_files (<[c_str pszFile := ""]> (files s)) s))
      as (Hc & Ho & Hu & Hk).
    rewrite Hc, Ho, Hu. cbn [cases stdout unwritable set_files].
    split; [done|]. split; [done|]. split; [done|]. split; [|done].
    intros k Hne. rewrite Hk by done. cbn [files set_files].
    by rewrite lookup_insert_ne.
Qed.

(** X11: writing the report is idempotent.  Because the file is opened for
    writing and so truncated, and the writer reads nothing that it changes,
    a second call of [CuTest_GenerateRunReport] with the same arguments ends
    as the first did and leaves the machine, the report file included, as
    the first call left it. *)
Theorem X11_report_idempotent (strftime_FTz : Z → option string)
    (psRoot : cutest_root_t) (pTime : Z) (pszFile : string) (s : machine) :
  CuTest_GenerateRunReport strftime_FTz psRoot pTime pszFile
    (CuTest_GenerateRunReport strftime_FTz psRoot pTime pszFile s).2
  = CuTest_GenerateRunReport strftime_FTz psRoot pTime pszFile s.
Proof.
  destruct (CuTest_GenerateRunReport_shape strftime_FTz psRoot pTime pszFile)
    as [Hab|(K & HG & HA & HB)]; cbn zeta in *.
  - by rewrite !Hab.
  - rewrite (HG s). case_decide as Hw.
    + cbn [snd]. by rewrite HG, decide_True.
    + set (s0 := set_files (<[c_str pszFile := ""]> (files s)) s).
      destruct (HA s0) as (Hc & Ho & Hu & Hk).
      rewrite HG, decide_False by (by rewrite Hu).
      apply HB; cbn [cases stdout files unwritable acTimestampBuffer set_files];
        try done.
      apply map_eq. intros k. destruct (decide (k = c_str pszFile)) as [->|Hne].
      * unfold s0 at 2. cbn [files set_files]. by rewrite !lookup_insert_eq.
      * rewrite lookup_insert_ne by done. by apply Hk.
Qed.

(** ** Running the cases of a group and of a module *)

Lemma same_declaration_refl c : same_declaration c c.
Proof. by unfold same_declaration. Qed.

Lemma same_declaration_trans c1 c2 c3 :
  same_declaration c1 c2 → same_declaration c2 c3 → same_declaration c1 c3.
Proof.
  unfold same_declaration. intros (? & ? & ? & ? & ?) (? & ? & ? & ? & ?).
  repeat split; congruence.
Qed.

Lemma run_frame_refl s : run_frame s s.
Proof.
  unfold run_frame. split; [done|]. split; [done|]. split; [done|].
  split; [exists ""; by rewrite append_nil_r|].
  intros p. destruct (cases s !! p); constructor. apply same_declaration_refl.
Qed.

Lemma run_frame_trans s1 s2 s3 : run_frame s1 s2 → run_frame s2 s3 → run_frame s1 s3.
Proof.
  intros (Hf & Hu & Ht & (out & Ho) & Hd) (Hf' & Hu' & Ht' & (out' & Ho') & Hd').
  unfold run_frame. split; [congruence|]. split; [congruence|]. split; [congruence|].
  split; [exists (out +:+ out'); by rewrite Ho', Ho, append_assoc|].
  intros p. specialize (Hd p). specialize (Hd' p).
  destruct Hd as [c1 c2 H12|]; inversion Hd' as [c2' c3 H23|]; subst; constructor.
  by eapply same_declaration_trans.
Qed.

Lemma case_body_frame bodies s s' p :
  run_frame s s' → case_body bodies (cases s') p = case_body bodies (cases s) p.
Proof.
  intros (_ & _ & _ & _ & Hd). unfold case_body.
  destruct (Hd p) as [c c' (_ & _ & _ & Hfn & _)|]; [|done].
  cbn [mbind option_bind]. by rewrite Hfn.
Qed.

Lemma ran_lookup bodies h h' p : h' !! p = h !! p → ran bodies h p → ran bodies h' p.
Proof.
  intros Heq (c & body & Hc & Hb & Hres). exists c, body.
  split; [by rewrite Heq|]. split; [|done].
  unfold case_body in *. by rewrite Heq.
Qed.

Lemma runs_cases_nil bodies : runs_cases bodies [] (mret tt).
Proof.
  intros s _. right. exists s. split; [done|]. split; [apply run_frame_refl|].
  split; [done|]. intros p Hp. by apply not_elem_of_nil in Hp.
Qed.

Lemma runs_cases_seq bodies l1 l2 (m1 : M unit) (m2 : unit → M unit) :
  runs_cases bodies l1 m1 → runs_cases bodies l2 (m2 tt) →
  runs_cases bodies (l1 ++ l2) (m1 ≫= m2).
Proof.
  intros H1 H2 s Hpre.
  destruct (H1 s) as [[s' Hab]|(s1 & Hr1 & Hfr1 & Hout1 & Hran1)].
  { intros p Hp. apply Hpre, elem_of_app. by left. }
  { left. exists s'. by apply bind_Abort. }
  erewrite bind_Ret by done.
  destruct (H2 s1) as [[s' Hab]|(s2 & Hr2 & Hfr2 & Hout2 & Hran2)].
  { intros p Hp. rewrite (case_body_frame _ _ _ _ Hfr1). apply Hpre, elem_of_app.
    by right. }
  { left. by exists s'. }
  right. exists s2. split; [done|]. split; [by eapply run_frame_trans|].
  split.
  - intros q Hq. rewrite elem_of_app in Hq.
    rewrite Hout2, Hout1; [done|tauto..].
  - intros p Hp. destruct (decide (p ∈ l2)) as [Hin|Hnin]; [by apply Hran2|].
    apply elem_of_app in Hp as [Hp|Hp]; [|done].
    apply (ran_lookup _ (cases s1)); [by apply Hout2|by apply Hran1].
Qed.

Lemma runs_cases_iterM {B} bodies (f : B → M unit) (holds : B → list addr) (xs : list B) :
  (∀ x, x ∈ xs → runs_cases bodies (holds x) (f x)) →
  runs_cases bodies (xs ≫= holds) (iterM (λ _ x, f x) tt xs).
Proof.
  induction xs as [|x xs IH]; intros Hf; [apply runs_cases_nil|].
  cbn [iterM]. rewrite bind_cons.
  apply (runs_cases_seq bodies (holds x) (xs ≫= holds) (f x)
           (λ a', iterM (λ _ x, f x) a' xs)).
  - apply Hf, list_elem_of_here.
  - apply IH. intros y Hy. by apply Hf, list_elem_of_further.
Qed.

Lemma runs_cases_ext bodies l (m m' : M unit) :
  (∀ s, m' s = m s) → runs_cases bodies l m → runs_cases bodies l m'.
Proof. intros Heq H s Hpre. rewrite Heq. by apply H. Qed.

Lemma CuTest_RunTestCase_runs fmt_Lf fmt_p bodies p :
  runs_cases bodies [p] (CuTest_RunTestCase (assertion_text fmt_Lf fmt_p bodies) p).
Proof.
  intros s Hpre.
  destruct (Hpre p (list_elem_of_here _ _)) as [body Hbody].
  unfold case_body in Hbody.
  destruct (cases s !! p) as [c|] eqn:Hc; [|done]. cbn [mbind option_bind] in Hbody.
  destruct (pfvTestFn c) as [fn|] eqn:Hfn; [|done]. cbn [mbind option_bind] in Hbody.
  destruct (CuTest_RunTestCase_assertions fmt_Lf fmt_p
              (assertion_text fmt_Lf fmt_p bodies) p s c fn body Hc Hfn)
    as [[s' Hab]|(c' & out & Hr & Hd & Hu & Hm & _)].
  { unfold assertion_text. by rewrite Hbody. }
  { left. by exists s'. }
  right. eexists. split; [done|].
  split; [|split].
  - unfold run_frame. cbn [files unwritable acTimestampBuffer stdout cases
                            set_stdout set_cases].
    split; [done|]. split; [done|]. split; [done|]. split; [by exists out|].
    intros q. destruct (decide (q = p)) as [->|Hne].
    + rewrite lookup_insert_eq, Hc. by constructor.
    + rewrite lookup_insert_ne by done.
      destruct (cases s !! q); constructor. apply same_declaration_refl.
  - intros q Hq. cbn [cases set_stdout set_cases].
    rewrite lookup_insert_ne; [done|]. intros ->. apply Hq, list_elem_of_here.
  - intros q ->%list_elem_of_singleton. exists c', body.
    cbn [cases set_stdout set_cases]. unfold case_body.
    rewrite lookup_insert_eq. cbn [mbind option_bind].
    destruct Hd as (_ & _ & _ & Hfn' & _). rewrite Hfn', Hfn. cbn [mbind option_bind].
    done.
Qed.

Lemma CuTest_RunTestGroup_runs fmt_Lf fmt_p bodies g :
  runs_cases bodies (group_cases g)
    (CuTest_RunTestGroup (assertion_text fmt_Lf fmt_p bodies) g).
Proof.
  eapply runs_cases_ext; [apply CuTest_RunTestGroup_occupied|].
  unfold group_cases.
  set (l := occupied CUTEST_MAX_NUM_CASES (group_ppItems g)).
  replace l with (l ≫= λ p, [p]) at 1.
  - apply (runs_cases_iterM bodies
             (CuTest_RunTestCase (assertion_text fmt_Lf fmt_p bodies)) (λ p, [p])).
    intros p _. apply CuTest_RunTestCase_runs.
  - clear. induction l as [|p l IH]; [done|]. rewrite bind_cons. by rewrite IH.
Qed.

Lemma CuTest_RunTestModule_runs fmt_Lf fmt_p bodies m :
  runs_cases bodies (module_cases m)
    (CuTest_RunTestModule (assertion_text fmt_Lf fmt_p bodies) m).
Proof.
  eapply runs_cases_ext; [apply CuTest_RunTestModule_occupied|].
  unfold module_cases.
  apply (runs_cases_iterM bodies
           (CuTest_RunTestGroup (assertion_text fmt_Lf fmt_p bodies)) group_cases).
  intros g _. apply CuTest_RunTestGroup_runs.
Qed.

(** X12: the runners evaluate what they hold and nothing else.  Started
    where every case of a group (of a module) is a case object whose test
    function is a sequence of assertion macros, [CuTest_RunTestGroup]
    ([CuTest_RunTestModule]) stops on a violated contract or returns
    normally, never through a [longjmp] that escapes a case.  When it
    returns, every case it holds has an evaluated result unless its test
    function runs no assertion, and an empty message unless it failed; the
    other case objects, the declarations of all of them and the files are
    untouched, and standard output has only grown. *)
Theorem X12_runners_evaluate (fmt_Lf : PrimFloat.float → string)
    (fmt_p : option positive → string)
    (bodies : fn_ptr → option (list (string * Z * assertion))) :
  (∀ g s,
     (∀ p, p ∈ group_cases g → is_Some (case_body bodies (cases s) p)) →
     let r := CuTest_RunTestGroup (assertion_text fmt_Lf fmt_p bodies) g s in
     r.1 = Abort
     ∨ (r.1 = Ret tt ∧ run_frame s r.2
        ∧ (∀ q, q ∉ group_cases g → cases r.2 !! q = cases s !! q)
        ∧ ∀ p, p ∈ group_cases g → ran bodies (cases r.2) p))
  ∧ (∀ m s,
       (∀ p, p ∈ module_cases m → is_Some (case_body bodies (cases s) p)) →
       let r := CuTest_RunTestModule (assertion_text fmt_Lf fmt_p bodies) m s in
       r.1 = Abort
       ∨ (r.1 = Ret tt ∧ run_frame s r.2
          ∧ (∀ q, q ∉ module_cases m → cases r.2 !! q = cases s !! q)
          ∧ ∀ p, p ∈ module_cases m → ran bodies (cases r.2) p)).
Proof.
  split.
  - intros g s Hpre.
    destruct (CuTest_RunTestGroup_runs fmt_Lf fmt_p bodies g s Hpre)
      as [[s' Hr]|(s' & Hr & H)]; cbn zeta; rewrite Hr; [by left|by right].
  - intros m s Hpre.
    destruct (CuTest_RunTestModule_runs fmt_Lf fmt_p bodies m s Hpre)
      as [[s' Hr]|(s' & Hr & H)]; cbn zeta; rewrite Hr; [by left|by right].
Qed.

Lemma X12_witness :
  let r := CuTest_RunTestModule (assertion_text (λ _, "") (λ _, "") main_bodies)
             TestMyModule main_start in
  r.1 = Abort
  ∨ (r.1 = Ret tt ∧ run_frame main_start r.2
     ∧ (∀ q, q ∉ module_cases TestMyModule → cases r.2 !! q = cases main_start !! q)
     ∧ ∀ p, p ∈ module_cases TestMyModule → ran main_bodies (cases r.2) p).
Proof.
  apply (proj2 (X12_runners_evaluate (λ _, "") (λ _, "") main_bodies) TestMyModule
           main_start).
  intros p Hp. vm_compute in Hp.
  apply elem_of_cons in Hp as [->|Hp]; [by eexists|].
  apply list_elem_of_singleton in Hp as ->. by eexists.
Defined.

(** ** From the run to its statistics *)

Lemma count_result_all h r l :
  count_result h r l = length l ↔ ∀ p, p ∈ l → eResult <$> h !! p = Some r.
Proof.
  induction l as [|p l IH].
  - split; [|done]. intros _ p Hp. by apply not_elem_of_nil in Hp.
  - rewrite count_result_cons. cbn [length].
    pose proof (count_result_le h r l) as Hle. case_decide as Hp.
    + split.
      * intros Hc q [->|Hq]%elem_of_cons; [done|]. apply IH; [lia|done].
      * intros Hall. rewrite (proj2 IH); [lia|].
        intros q Hq. by apply Hall, list_elem_of_further.
    + split; [lia|]. intros Hall. exfalso. apply Hp, Hall, list_elem_of_here.
Qed.

Lemma count_result_other h r l :
  count_result h r l ≠ length l → ∃ p, p ∈ l ∧ eResult <$> h !! p ≠ Some r.
Proof.
  induction l as [|p l IH]; [done|].
  rewrite count_result_cons. cbn [length]. case_decide as Hp.
  - intros Hne. destruct IH as (q & Hq & Hr); [lia|].
    exists q. split; [by apply list_elem_of_further|done].
  - intros _. exists p. split; [apply list_elem_of_here|done].
Qed.

(** X13: the overall result is a pass exactly when every case of the run
    passed.  For a root whose count is inside its array,
    [CuTest_GetRunResult] answers [EN_CUTEST_RESULT_PASS] if and only if the
    root is inside the asserted contract and every case pointer the run
    reaches designates a case object whose result is passed; an undefined
    result, like a failed one, turns the answer into
    [EN_CUTEST_RESULT_FAIL]. *)
Theorem X13_run_result_all_pass (h : gmap addr cutest_case_t) (r : cutest_root_t) :
  (ulCount r ≤ length (asItems r))%nat →
  (CuTest_GetRunResult h r = Some EN_CUTEST_RESULT_PASS
   ↔ (ulCount r < CUTEST_MAX_NUM_ROOT_ITEM)%nat
     ∧ ∀ p, p ∈ root_cases r → eResult <$> h !! p = Some EN_CUTEST_RESULT_PASS)
  ∧ (CuTest_GetRunResult h r = Some EN_CUTEST_RESULT_FAIL
     ↔ (ulCount r < CUTEST_MAX_NUM_ROOT_ITEM)%nat
       ∧ all_allocated h (root_cases r)
       ∧ ∃ p, p ∈ root_cases r ∧ eResult <$> h !! p ≠ Some EN_CUTEST_RESULT_PASS).
Proof.
  intros Hle. unfold CuTest_GetRunResult. rewrite CuTestGetStats_list.
  destruct (decide (ulCount r < CUTEST_MAX_NUM_ROOT_ITEM)%nat) as [Hlt|Hge].
  2: { rewrite decide_False by tauto. cbn [mbind option_bind].
       split; (split; [done|]); by intros [? _]. }
  rewrite decide_True by done.
  pose proof (root_cases_small r Hlt) as Hsmall.
  destruct (stats_list h stats_zero (root_cases r)) as [st|] eqn:Hst;
    cbn [mbind option_bind].
  - apply stats_list_exact in Hst as (Ht & Hp & Hf & Hall); [|done].
    rewrite Hp, Ht. case_decide as Hd.
    + pose proof (proj1 (count_result_all _ _ _) (Nat2Z.inj _ _ Hd)) as Hd'.
      split; [by split|]. split; [done|].
      intros (_ & _ & p & Hin & Hne). exfalso. by apply Hne, Hd'.
    + assert (count_result h EN_CUTEST_RESULT_PASS (root_cases r)
              ≠ length (root_cases r)) as Hne by lia.
      split.
      * split; [done|]. intros [_ Hall']. exfalso. by apply Hne, count_result_all.
      * split; [|done]. intros _. split; [done|]. split; [done|].
        by apply count_result_other.
  - split; (split; [done|]).
    + intros [_ Hall]. exfalso.
      assert (is_Some (stats_list h stats_zero (root_cases r))) as [? ?]; [|congruence].
      apply stats_list_total. unfold all_allocated. apply Forall_forall.
      intros p Hp. specialize (Hall p Hp).
      destruct (h !! p); [by eexists|done].
    + intros (_ & Hall & _). exfalso.
      assert (is_Some (stats_list h stats_zero (root_cases r))) as [? ?]; [|congruence].
      by apply stats_list_total.
Qed.

Lemma X13_witness :
  CuTest_GetRunResult (cases main_after_run) main_root = Some EN_CUTEST_RESULT_FAIL
  ↔ (ulCount main_root < CUTEST_MAX_NUM_ROOT_ITEM)%nat
    ∧ all_allocated (cases main_after_run) (root_cases main_root)
    ∧ ∃ p, p ∈ root_cases main_root
           ∧ eResult <$> cases main_after_run !! p ≠ Some EN_CUTEST_RESULT_PASS.
Proof.
  apply (X13_run_result_all_pass (cases main_after_run) main_root).
  vm_compute. lia.
Defined.

Lemma root_cases_BEGIN_TEST_RUN name : root_cases (BEGIN_TEST_RUN name) = [].
Proof. done. Qed.

(** X14: from [RUN_TEST_MODULE] to the statistics.  When the first
    [RUN_TEST_MODULE] line of a run returns, for a module whose test
    functions are sequences of assertion macros, the aggregator answers for
    the root that the macro has built; it counts every case of the module,
    and it finds passed and failed cases adding up to the total exactly when
    no test function of the module is empty of assertions. *)
Theorem X14_run_module_stats (fmt_Lf : PrimFloat.float → string)
    (fmt_p : option positive → string)
    (bodies : fn_ptr → option (list (string * Z * assertion)))
    (name : string) (m : cutest_module_t) (s s' : machine) (root : cutest_root_t) :
  (∀ p, p ∈ module_cases m → is_Some (case_body bodies (cases s) p)) →
  RUN_TEST_MODULE (assertion_text fmt_Lf fmt_p bodies) (BEGIN_TEST_RUN name) m s
  = (Ret root, s') →
  root_cases root = module_cases m
  ∧ ∃ st, CuTestGetStats (cases s') root = Some st
          ∧ ulTotal st = Z.of_nat (length (module_cases m))
          ∧ ((ulPassed st + ulFailed st = ulTotal st)%Z
             ↔ ∀ p, p ∈ module_cases m → case_body bodies (cases s) p ≠ Some []).
Proof.
  intros Hpre. unfold RUN_TEST_MODULE.
  destruct (CuTest_AppendRootItem (BEGIN_TEST_RUN name) (RModule (Some m)))
    as [r0|] eqn:Happ; [|done].
  pose proof (root_cases_append _ _ _ (BEGIN_TEST_RUN_wf name) Happ) as Hcases.
  rewrite root_cases_BEGIN_TEST_RUN in Hcases.
  change (relem_cases (RModule (Some m))) with (module_cases m) in Hcases.
  cbn [app] in Hcases.
  destruct (CuTest_AppendRootItem_wf _ _ _ (BEGIN_TEST_RUN_wf name) Happ)
    as ([Hlen _] & _ & Hcount & _).
  cbn [BEGIN_TEST_RUN ulCount] in Hcount.
  destruct (CuTest_RunTestModule_runs fmt_Lf fmt_p bodies m s Hpre)
    as [[s1 Hr]|(s1 & Hr & Hframe & _ & Hran)].
  { erewrite bind_Abort by done. done. }
  erewrite bind_Ret by done. intros [= <- <-].
  split; [done|].
  assert (all_allocated (cases s1) (module_cases m)) as Hall.
  { apply Forall_forall. intros p Hp.
    destruct (Hran p Hp) as (c & _ & -> & _). by eexists. }
  destruct (stats_list_total (cases s1) (module_cases m) stats_zero Hall) as [st Hst].
  exists st. split.
  { rewrite CuTestGetStats_list, decide_True, Hcases; [done|].
    rewrite Hcount, Hlen. unfold CUTEST_MAX_NUM_ROOT_ITEM. lia. }
  pose proof (module_cases_small m) as Hsmall.
  split; [by apply stats_list_exact in Hst as (? & _)|].
  apply stats_list_consistent in Hst as [_ ->]; [|done].
  unfold all_evaluated. rewrite Forall_forall.
  split; intros H p Hp; specialize (H p Hp);
    destruct (Hran p Hp) as (c & body & Hc & Hb & Hres & _);
    rewrite (case_body_frame _ _ _ _ Hframe) in Hb; rewrite Hc in *; cbn in *.
  - rewrite Hb. intros [= ->]. apply H. f_equal. by apply Hres.
  - intros [= Hu]. apply H. rewrite Hb. f_equal. by apply Hres.
Qed.

Lemma X14_witness :
  root_cases main_root = module_cases TestMyModule
  ∧ ∃ st, CuTestGetStats
            (cases (RUN_TEST_MODULE (assertion_text (λ _, "") (λ _, "") main_bodies)
                      (BEGIN_TEST_RUN "Unnamed Project") TestMyModule main_start).2)
            main_root = Some st
          ∧ ulTotal st = Z.of_nat (length (module_cases TestMyModule))
          ∧ ((ulPassed st + ulFailed st = ulTotal st)%Z
             ↔ ∀ p, p ∈ module_cases TestMyModule →
                    case_body main_bodies (cases main_start) p ≠ Some []).
Proof.
  apply (X14_run_module_stats (λ _, "") (λ _, "") main_bodies "Unnamed Project"
           TestMyModule main_start).
  - intros p Hp. vm_compute in Hp.
    apply elem_of_cons in Hp as [->|Hp]; [by eexists|].
    apply list_elem_of_singleton in Hp as ->. by eexists.
  - vm_compute. reflexivity.
Defined.

(** ** The listing of the console details *)

Lemma iterM_app {A B} (f : A → B → M A) a l1 l2 s :
  iterM f a (l1 ++ l2) s = (iterM f a l1 ≫= λ a', iterM f a' l2) s.
Proof.
  revert a s. induction l1 as [|x l1 IH]; intros a s; [done|].
  cbn [app iterM]. unfold mbind, M_bind.
  destruct (f a x s) as [[a'| |] s']; [|done..]. by rewrite IH.
Qed.

Lemma iterM_ext {A B} (f g : A → B → M A) a l s :
  (∀ a x s, f a x s = g a x s) → iterM f a l s = iterM g a l s.
Proof.
  intros Hfg. revert a s. induction l as [|x l IH]; intros a s; [done|].
  cbn [iterM]. unfold mbind, M_bind. rewrite Hfg.
  destruct (g a x s) as [[a'| |] s']; [apply IH|done..].
Qed.

Lemma iterM_bind {A B C} (f : A → C → M A) (g : B → list C) a xs s :
  iterM (λ a x, iterM f a (g x)) a xs s = iterM f a (xs ≫= g) s.
Proof.
  revert a s. induction xs as [|x xs IH]; intros a s; [done|].
  rewrite bind_cons, iterM_app. cbn [iterM]. unfold mbind, M_bind.
  destruct (iterM f a (g x) s) as [[a'| |] s']; [apply IH|done..].
Qed.

(** A loop with no [break] over the first elements of an array. *)
Lemma for_loop_array {A B} (l : list B) (f : A → B → M A)
    (body : nat → A → M (bool * A)) n :
  ∀ i a s,
    (∀ j e, l !! j = Some e → (i ≤ j < i + n)%nat →
            ∀ a s, body j a s = (f a e ≫= λ a', mret (true, a')) s) →
    (i + n ≤ length l)%nat →
    for_loop n i body a s = iterM f a (take n (drop i l)) s.
Proof.
  induction n as [|n IH]; intros i a s Hbody Hlen; [done|].
  destruct (lookup_lt_is_Some_2 l i) as [e Hi]; [lia|].
  rewrite (drop_S _ _ _ Hi). cbn [take iterM for_loop].
  unfold mbind at 1, M_bind at 1. rewrite (Hbody i e Hi) by lia.
  unfold mbind, M_bind. destruct (f a e s) as [[a'| |] s']; [|done..].
  cbn [fst snd]. apply IH; [|lia].
  intros j e' Hj Hr. apply Hbody; [done|lia].
Qed.

Lemma concat_cons (x : string) (xs : list string) :
  String.concat "" (x :: xs) = x +:+ String.concat "" xs.
Proof. destruct xs; [by rewrite append_nil_r|done]. Qed.

Lemma CuTestPrintDetails_Case_entry n p s c :
  cases s !! p = Some c →
  CuTestPrintDetails_Case n p s
  = if decide (eResult c = EN_CUTEST_RESULT_PASS) then (Ret n, s)
    else (Ret (ul_add n 1),
          set_stdout (stdout s +:+ details_entry (ul_add n 1) c) s).
Proof.
  intros Hc. unfold CuTestPrintDetails_Case, details_entry.
  erewrite bind_Ret; [|by apply deref_Some].
  destruct (eResult c); [rewrite decide_False by done|by rewrite decide_True|
                         rewrite decide_False by done];
    (erewrite bind_Ret; [|reflexivity]); reflexivity.
Qed.

Lemma not_passed_cons h p c l :
  h !! p = Some c →
  not_passed h (p :: l)
  = if decide (eResult c = EN_CUTEST_RESULT_PASS) then not_passed h l
    else c :: not_passed h l.
Proof.
  intros Hp. unfold not_passed. cbn [omap list_omap]. rewrite Hp, filter_cons.
  destruct (decide (eResult c = EN_CUTEST_RESULT_PASS)) as [He|He].
  - by rewrite decide_False by (intros ?; done).
  - by rewrite decide_True.
Qed.

Lemma length_not_passed h l :
  all_allocated h l →
  length (not_passed h l) = (length l - count_result h EN_CUTEST_RESULT_PASS l)%nat.
Proof.
  induction 1 as [|p l [c Hp] _ IH]; [done|].
  pose proof (count_result_le h EN_CUTEST_RESULT_PASS l) as Hle.
  rewrite (not_passed_cons _ _ _ _ Hp), count_result_cons, Hp.
  cbn [fmap option_fmap option_map length].
  destruct (decide (eResult c = EN_CUTEST_RESULT_PASS)) as [He|He].
  - rewrite decide_True by (by rewrite He). lia.
  - rewrite decide_False by (intros [= ?]; done). cbn [length]. lia.
Qed.

Lemma details_entries_cons n c cs :
  details_entries n (c :: cs)
  = details_entry (n + 1) c :: details_entries (n + 1) cs.
Proof.
  unfold details_entries. rewrite imap_cons. f_equal; [f_equal; lia|].
  apply imap_ext. intros k x _. cbn. f_equal. lia.
Qed.

Lemma CuTestPrintDetails_list s l n :
  all_allocated (cases s) l → (0 ≤ n)%Z →
  (n + Z.of_nat (length l) < ULONG_MOD)%Z →
  iterM CuTestPrintDetails_Case n l s
  = (Ret (n + Z.of_nat (length (not_passed (cases s) l)))%Z,
     set_stdout
       (stdout s +:+ String.concat "" (details_entries n (not_passed (cases s) l))) s).
Proof.
  intros Hall. revert n s Hall. induction l as [|p l IH]; intros n s Hall Hn Hlen.
  - cbn [iterM]. change (not_passed (cases s) []) with (@nil cutest_case_t).
    cbn [length details_entries imap String.concat]. rewrite Z.add_0_r.
    by rewrite set_stdout_same.
  - apply Forall_cons in Hall as [[c Hc] Hall]. cbn [length] in Hlen.
    cbn [iterM]. rewrite (not_passed_cons _ _ _ _ Hc).
    pose proof (CuTestPrintDetails_Case_entry n p s c Hc) as Hcase.
    destruct (decide (eResult c = EN_CUTEST_RESULT_PASS)) as [He|He].
    + erewrite bind_Ret by exact Hcase. apply IH; [done|done|lia].
    + assert (ul_add n 1 = n + 1)%Z as Hadd.
      { unfold ul_add. apply ulong_small. lia. }
      rewrite Hadd in Hcase.
      set (s1 := set_stdout (stdout s +:+ details_entry (n + 1) c) s) in *.
      erewrite (bind_Ret _ _ s (n + 1)%Z s1) by exact Hcase.
      rewrite (IH (n + 1)%Z s1 Hall) by lia.
      change (cases s1) with (cases s).
      rewrite details_entries_cons, concat_cons. cbn [length].
      f_equal; [f_equal; lia|].
      unfold s1, set_stdout. cbn [stdout cases files unwritable acTimestampBuffer].
      by rewrite append_assoc.
Qed.

Lemma CuTestPrintDetails_root r s :
  (ulCount r ≤ length (asItems r))%nat →
  for_loop (ulCount r) 0 (λ i ulNum,
    psItem ← root_item r i;
    match psItem with
    | RCase (Some psCase) =>
        ulNum ← CuTestPrintDetails_Case ulNum psCase; mret (true, ulNum)
    | RGroup (Some psGroup) =>
        ulNum ← CuTestPrintDetails_Group ulNum psGroup; mret (true, ulNum)
    | RModule (Some psModule) =>
        ulNum ← CuTestPrintDetails_Module ulNum psModule; mret (true, ulNum)
    | _ => mret (true, ulNum)
    end) 0%Z s
  = iterM CuTestPrintDetails_Case 0%Z (root_cases r) s.
Proof.
  intros Hle.
  rewrite (for_loop_array (asItems r)
             (λ n e, iterM CuTestPrintDetails_Case n (relem_cases e))).
  - rewrite drop_0. unfold root_cases. apply iterM_bind.
  - intros j e Hj _ a s'. unfold root_item at 1.
    erewrite bind_Ret; [|by rewrite Hj].
    assert (∀ (m1 m2 : M Z),
              (∀ s0, m1 s0 = m2 s0) →
              (m1 ≫= λ n, mret (true, n)) s'
              = (m2 ≫= λ a', mret (true, a')) s') as Hcong.
    { intros m1 m2 H12. unfold mbind, M_bind. by rewrite H12. }
    destruct e as [[p|]|[g|]|[m|]]; try done.
    + apply Hcong. intros s0. cbn [relem_cases iterM]. unfold mbind, M_bind.
      by destruct (CuTestPrintDetails_Case a p s0) as [[?| |] ?].
    + apply Hcong. intros s0. apply CuTestPrintDetails_Group_occupied.
    + apply Hcong. intros s0. rewrite CuTestPrintDetails_Module_occupied.
      cbn [relem_cases]. unfold module_cases. rewrite <- iterM_bind.
      apply iterM_ext. intros. apply CuTestPrintDetails_Group_occupied.
  - lia.
Qed.

(** X15: the details listing, exactly.  Inside the contract of the
    aggregator, [CuTestPrintDetails] prints the single result line [PASS]
    with the totals when every case passed.  Otherwise it prints the heading
    with the numbers of failed and invalid cases, then one entry for each
    case that did not pass and for no other, in the order in which the
    aggregator counts the cases through all cases, groups and modules of the
    run, the first entry under the number 1, the next under 2, and so on,
    each being the text of [details_entry] for that case; then the result
    line [FAIL] with the totals.  The entries are as many as the total less
    the passed count.  (An entry is one line of output unless the message
    itself holds a line break.) *)
Theorem X15_details_listing (r : cutest_root_t) (s : machine) (st : cutest_stats_t) :
  (ulCount r ≤ length (asItems r))%nat →
  CuTestGetStats (cases s) r = Some st →
  let totals :=
    " (" +:+ fmt_ld (ulTotal st) +:+ " runs, " +:+ fmt_ld (ulPassed st)
    +:+ " passes, " +:+ fmt_ld (ulFailed st) +:+ " fails)" +:+ LF in
  (ulPassed st = ulTotal st →
   CuTestPrintDetails r s
   = (Ret tt,
      set_stdout (stdout s +:+ (LF +:+ "Result:" +:+ LF +:+ TAB +:+ "PASS") +:+ totals) s))
  ∧ (ulPassed st ≠ ulTotal st →
     CuTestPrintDetails r s
     = (Ret tt,
        set_stdout
          (stdout s
           +:+ (LF +:+ "Details (" +:+ fmt_ld (ulFailed st) +:+ " fails, "
                +:+ fmt_ld (ulTotal st - ulPassed st - ulFailed st)
                +:+ " invalid):" +:+ LF)
           +:+ String.concat ""
                 (details_entries 0 (not_passed (cases s) (root_cases r)))
           +:+ (LF +:+ "Result:" +:+ LF +:+ TAB +:+ "FAIL") +:+ totals) s))
  ∧ Z.of_nat (length (not_passed (cases s) (root_cases r)))
    = (ulTotal st - ulPassed st)%Z
  ∧ length (details_entries 0 (not_passed (cases s) (root_cases r)))
    = length (not_passed (cases s) (root_cases r)).
Proof.
  intros Hle Hst totals.
  pose proof Hst as (Hlt & Hlist)%CuTestGetStats_Some.
  pose proof (root_cases_small r Hlt) as Hsmall.
  pose proof Hlist as (Ht & Hp & Hf & Hall)%stats_list_exact; [|done].
  pose proof (count_results_total _ _ Hall) as Hsum.
  pose proof (count_result_le (cases s) EN_CUTEST_RESULT_PASS (root_cases r)) as Hcp.
  split; [|split; [|split]].
  - intros Hpass. unfold CuTestPrintDetails.
    erewrite bind_Ret; [|unfold assert; by rewrite bool_decide_eq_true_2].
    erewrite bind_Ret; [|unfold read_cases; by rewrite Hst].
    rewrite decide_True by done. apply printf_printf.
  - intros Hpass. unfold CuTestPrintDetails.
    erewrite bind_Ret; [|unfold assert; by rewrite bool_decide_eq_true_2].
    erewrite bind_Ret; [|unfold read_cases; by rewrite Hst].
    rewrite decide_False by done.
    rewrite ulong_small by lia.
    set (heading := LF +:+ "Details (" +:+ _).
    set (s1 := set_stdout (stdout s +:+ heading) s).
    pose proof (CuTestPrintDetails_list s1 (root_cases r) 0 Hall) as Hrun.
    change (cases s1) with (cases s) in Hrun.
    erewrite bind_Ret.
    2: { erewrite bind_Ret; [|reflexivity]. fold s1.
         erewrite bind_Ret; [|rewrite CuTestPrintDetails_root by done;
                              apply Hrun; lia].
         reflexivity. }
    unfold printf, s1, totals, set_stdout.
    cbn [stdout cases files unwritable acTimestampBuffer].
    by rewrite !append_assoc.
  - rewrite (length_not_passed _ _ Hall). lia.
  - unfold details_entries. apply length_imap.
Qed.

Lemma X15_witness :
  CuTestPrintDetails main_root main_after_run
  = (Ret tt,
     set_stdout
       (stdout main_after_run
        +:+ (LF +:+ "Details (" +:+ fmt_ld 1 +:+ " fails, " +:+ fmt_ld (2 - 1 - 1)
             +:+ " invalid):" +:+ LF)
        +:+ String.concat ""
              (details_entries 0
                 (not_passed (cases main_after_run) (root_cases main_root)))
        +:+ (LF +:+ "Result:" +:+ LF +:+ TAB +:+ "FAIL")
        +:+ " (" +:+ fmt_ld 2 +:+ " runs, " +:+ fmt_ld 1 +:+ " passes, " +:+ fmt_ld 1
        +:+ " fails)" +:+ LF) main_after_run).
Proof.
  apply (proj1 (proj2 (X15_details_listing main_root main_after_run
                         {| ulTotal := 2; ulPassed := 1; ulFailed := 1 |}
                         ltac:(vm_compute; lia) ltac:(vm_compute; reflexivity)))).
  vm_compute. discriminate.
Defined.

(** ** The summary tape *)

Lemma iterM_ext_in {A B} (f g : A → B → M A) a l s :
  (∀ a x s, x ∈ l → f a x s = g a x s) → iterM f a l s = iterM g a l s.
Proof.
  revert a s. induction l as [|x l IH]; intros a s Hfg; [done|].
  cbn [iterM]. unfold mbind, M_bind. rewrite Hfg by apply list_elem_of_here.
  destruct (g a x s) as [[a'| |] s']; [|done..].
  apply IH. intros a0 y s0 Hy. by apply Hfg, list_elem_of_further.
Qed.

Lemma tape_cons h p c l :
  h !! p = Some c → tape h (p :: l) = String (mark (eResult c)) (tape h l).
Proof. intros Hp. unfold tape. cbn [omap list_omap]. by rewrite Hp. Qed.

Lemma tape_length h l : all_allocated h l → String.length (tape h l) = length l.
Proof.
  induction 1 as [|p l [c Hp] _ IH]; [done|].
  rewrite (tape_cons _ _ _ _ Hp). cbn [String.length length]. by rewrite IH.
Qed.

Lemma CuTestPrintSummaryTape_list s l :
  all_allocated (cases s) l →
  iterM (λ _ p, CuTestPrintSummaryTape_Case p) tt l s
  = (Ret tt, set_stdout (stdout s +:+ tape (cases s) l) s).
Proof.
  intros Hall. revert s Hall. induction l as [|p l IH]; intros s Hall.
  - cbn [iterM]. change (tape (cases s) []) with "". by rewrite set_stdout_same.
  - apply Forall_cons in Hall as [[c Hc] Hall]. cbn [iterM].
    set (s1 := set_stdout (stdout s +:+ String (mark (eResult c)) "") s).
    erewrite (bind_Ret _ _ s tt s1).
    + rewrite (IH s1 Hall). rewrite (tape_cons _ _ _ _ Hc).
      unfold s1, set_stdout. cbn [stdout cases files unwritable acTimestampBuffer].
      by rewrite append_assoc.
    + unfold CuTestPrintSummaryTape_Case.
      erewrite bind_Ret; [|by apply deref_Some]. by destruct (eResult c).
Qed.

Lemma CuTestPrintSummaryTape_Group_cases g s :
  group_packed g →
  CuTestPrintSummaryTape_Group g s
  = iterM (λ _ p, CuTestPrintSummaryTape_Case p) tt (group_cases g) s.
Proof. intros Hg. by rewrite CuTestPrintSummaryTape_Group_packed, Hg. Qed.

Lemma CuTestPrintSummaryTape_Module_cases m s :
  module_packed m →
  CuTestPrintSummaryTape_Module m s
  = iterM (λ _ p, CuTestPrintSummaryTape_Case p) tt (module_cases m) s.
Proof.
  intros [Hm Hgs]. rewrite CuTestPrintSummaryTape_Module_packed, Hm.
  unfold module_cases. rewrite <- iterM_bind. apply iterM_ext_in.
  intros [] g s0 Hg. apply CuTestPrintSummaryTape_Group_cases.
  by eapply Forall_forall in Hgs.
Qed.

(** X16: the summary tape agrees with the statistics.  For a root inside
    the asserted contract whose registered elements are not NULL and whose
    groups and modules have no occupied slot after an empty one,
    [CuTestPrintSummary] prints its heading, then one mark for every case
    that the aggregator counts, in the same order, then the line end; the
    tape is as long as the total of the statistics. *)
Theorem X16_summary_tape (r : cutest_root_t) (s : machine) :
  (ulCount r < CUTEST_MAX_NUM_ROOT_ITEM)%nat →
  (ulCount r ≤ length (asItems r))%nat →
  Forall relem_packed (take (ulCount r) (asItems r)) →
  all_allocated (cases s) (root_cases r) →
  CuTestPrintSummary r s
  = (Ret tt,
     set_stdout
       (stdout s
        +:+ ("Summary (" +:+ String CUTEST_SUMMARY_CHR_FAILED "=fail, "
             +:+ String CUTEST_SUMMARY_CHR_PASSED "=pass, "
             +:+ String CUTEST_SUMMARY_CHR_INVALID "=invalid):" +:+ LF +:+ TAB)
        +:+ tape (cases s) (root_cases r) +:+ CR +:+ LF) s)
  ∧ String.length (tape (cases s) (root_cases r)) = length (root_cases r)
  ∧ ∀ st, CuTestGetStats (cases s) r = Some st →
          Z.of_nat (String.length (tape (cases s) (root_cases r))) = ulTotal st.
Proof.
  intros Hlt Hle Hpacked Hall.
  split; [|split; [by apply tape_length|]].
  - unfold CuTestPrintSummary.
    erewrite bind_Ret; [|unfold assert; by rewrite bool_decide_eq_true_2].
    erewrite bind_Ret; [|reflexivity].
    set (heading := "Summary (" +:+ _).
    set (s1 := set_stdout (stdout s +:+ heading) s).
    erewrite (bind_Ret _ _ s1 tt).
    2: { rewrite (for_loop_array (asItems r)
                    (λ a e, iterM (λ _ p, CuTestPrintSummaryTape_Case p) a
                              (relem_cases e))).
         - rewrite drop_0.
           rewrite (iterM_bind (λ _ p, CuTestPrintSummaryTape_Case p) relem_cases).
           fold (root_cases r). by apply CuTestPrintSummaryTape_list.
         - intros j e Hj Hr [] s0. unfold root_item at 1.
           erewrite bind_Ret; [|by rewrite Hj].
           assert (relem_packed e) as [Hset He].
           { eapply Forall_forall in Hpacked; [done|].
             apply list_elem_of_lookup. exists j. rewrite lookup_take_lt by lia. done. }
           assert (∀ (m1 m2 : M unit),
                     (∀ s', m1 s' = m2 s') →
                     (m1 ≫= λ _, mret (true, tt)) s0
                     = (m2 ≫= λ a', mret (true, a')) s0) as Hcong.
           { intros m1 m2 H12. unfold mbind, M_bind. rewrite H12.
             by destruct (m2 s0) as [[[]| |] ?]. }
           destruct e as [[p|]|[g|]|[m|]]; try done; apply Hcong; intros s'.
           + cbn [relem_cases iterM]. unfold mbind, M_bind.
             by destruct (CuTestPrintSummaryTape_Case p s') as [[[]| |] ?].
           + by apply CuTestPrintSummaryTape_Group_cases.
           + by apply CuTestPrintSummaryTape_Module_cases.
         - lia. }
    unfold printf, s1, set_stdout.
    cbn [stdout cases files unwritable acTimestampBuffer].
    by rewrite !append_assoc.
  - intros st (_ & Hst)%CuTestGetStats_Some.
    apply stats_list_exact in Hst as (-> & _); [|by apply root_cases_small].
    by rewrite tape_length.
Qed.

Lemma X16_witness :
  CuTestPrintSummary main_root main_after_run
  = (Ret tt,
     set_stdout
       (stdout main_after_run
        +:+ ("Summary (" +:+ String CUTEST_SUMMARY_CHR_FAILED "=fail, "
             +:+ String CUTEST_SUMMARY_CHR_PASSED "=pass, "
             +:+ String CUTEST_SUMMARY_CHR_INVALID "=invalid):" +:+ LF +:+ TAB)
        +:+ tape (cases main_after_run) (root_cases main_root) +:+ CR +:+ LF)
       main_after_run).
Proof.
  apply (X16_summary_tape main_root main_after_run).
  - vm_compute. lia.
  - vm_compute. lia.
  - repeat constructor.
  - repeat constructor; by eexists.
Defined.

(** ** The pointer assertions *)



(** ** What the report file holds *)

(** X18: a report that is written is complete and carries the statistics.
    When [CuTest_GenerateRunReport] returns for a path that can be opened,
    the timestamp was rendered, the aggregator answers on the unchanged
    case objects, and the report file holds, whatever it held before, the
    document head with the project name, the framework version and that
    timestamp, then the tables, then the totals of the aggregator and the
    closing tags. *)
Theorem X18_report_content (strftime_FTz : Z → option string) (psRoot : cutest_root_t)
    (pTime : Z) (pszFile : string) (s s' : machine) :
  c_str pszFile ∉ unwritable s →
  CuTest_GenerateRunReport strftime_FTz psRoot pTime pszFile s = (Ret tt, s') →
  ∃ text tables sStats,
    strftime_FTz pTime = Some text
    ∧ acTimestampBuffer s'
      = (if decide (String.length text < CUTEST_TIMESTAMP_MAX_LEN + 1)%nat
         then text else "")
    ∧ CuTestGetStats (cases s) psRoot = Some sStats
    ∧ files s' !! c_str pszFile
      = Some (("<!DOCTYPE html>" +:+ LF +:+ "<html>" +:+ LF
               +:+ "    <head>" +:+ LF
               +:+ "        <title>Unit Test Report</title>" +:+ LF
               +:+ "    </head>" +:+ LF
               +:+ "    <body>" +:+ LF
               +:+ "        <h1>Unit Test Report &ndash; " +:+ c_str (root_pszName psRoot)
               +:+ "</h1><hr/>"
               +:+ "        <p><b>Framework Version:</b> CuTest " +:+ CUTEST_VERSION
               +:+ "<br/>"
               +:+ "           <b>Test run completed at:</b> " +:+ acTimestampBuffer s'
               +:+ "</p>" +:+ LF)
              +:+ tables
              +:+ "        <hr/><p>" +:+ fmt_ld (ulTotal sStats) +:+ " runs, "
              +:+ fmt_ld (ulPassed sStats) +:+ " passes, "
              +:+ fmt_ld (ulFailed sStats) +:+ " fails" +:+ LF +:+ "</p>"
              +:+ "    </body>" +:+ LF +:+ "</html>").
Proof.
  intros Hw. unfold CuTest_GenerateRunReport.
  destruct (decide (ulCount psRoot < CUTEST_MAX_NUM_ROOT_ITEM)%nat) as [Hlt|Hge].
  2: { erewrite bind_Abort; [done|]. unfold assert.
       by rewrite bool_decide_eq_false_2. }
  erewrite bind_Ret; [|unfold assert; by rewrite bool_decide_eq_true_2].
  erewrite bind_Ret; [|unfold fopen_w; by rewrite decide_False]. cbn match.
  unfold CuTestGetTimestampString.
  destruct (strftime_FTz pTime) as [text|]; [|done].
  set (buffer := if decide _ then text else "").
  erewrite bind_Ret; [|reflexivity].
  set (f := c_str pszFile).
  match goal with |- context [fprintf f ?h] => set (head := h) end.
  erewrite bind_Ret; [|reflexivity].
  match goal with |- (_ ≫= _) ?st = _ → _ => set (s2 := st) end.
  assert (files s2 !! f = Some head ∧ cases s2 = cases s
          ∧ acTimestampBuffer s2 = buffer) as (Hfile2 & Hcases2 & Hts2).
  { unfold s2. cbn [files cases acTimestampBuffer set_files set_acTimestampBuffer].
    by rewrite !lookup_insert_eq. }
  match goal with
  | |- context [for_loop (ulCount psRoot) 0 ?b 0%Z] =>
      set (loop := for_loop (ulCount psRoot) 0 b 0%Z)
  end.
  assert (preserves (file_frame f) loop) as Hloop.
  { pose proof (preserves_fprintf f) as Hf.
    pose proof (file_frame_preorder f) as Hpre.
    apply preserves_for_loop; [done|]. intros j n.
    apply preserves_bind; [done|by apply preserves_root_item|].
    intros [p|[g|]|[m|]]; try by apply preserves_abort.
    - apply preserves_bind; [done|apply Hf|intros _].
      apply preserves_bind; [done| |intros ?].
      + destruct p; [by apply preserves_Report_CaseLine|by apply preserves_abort].
      + apply preserves_bind; [done|apply Hf|intros _]. by apply preserves_ret.
    - apply preserves_bind; [done|by apply preserves_Report_Group|intros ?].
      by apply preserves_ret.
    - apply preserves_bind; [done|by apply preserves_Report_Module|intros ?].
      by apply preserves_ret. }
  specialize (Hloop s2).
  destruct (loop s2) as [[n| |] s3] eqn:Hrun;
    [|by erewrite bind_LongJmp|by erewrite bind_Abort].
  erewrite bind_Ret by done.
  destruct Hloop as (Hc3 & _ & _ & Ht3 & _ & tables & Hf3). cbn [snd] in *.
  unfold read_cases at 1. unfold mbind at 1, M_bind at 1.
  rewrite Hc3, Hcases2.
  destruct (CuTestGetStats (cases s) psRoot) as [sStats|]; [|done].
  erewrite bind_Ret; [|reflexivity]. intros [= <-].
  exists text, tables, sStats.
  cbn [acTimestampBuffer files set_files]. rewrite Ht3, Hts2, lookup_insert_eq.
  split; [done|]. split; [done|]. split; [done|].
  rewrite Hf3, Hfile2. cbn [default]. by rewrite append_assoc.
Qed.

Lemma X18_witness :
  let s' := (CuTest_GenerateRunReport (λ _, Some "2023-04-26T12:00:00+0000") main_root 0
               "report.html" main_after_run).2 in
  ∃ text tables sStats,
    Some "2023-04-26T12:00:00+0000" = Some text
    ∧ acTimestampBuffer s'
      = (if decide (String.length text < CUTEST_TIMESTAMP_MAX_LEN + 1)%nat
         then text else "")
    ∧ CuTestGetStats (cases main_after_run) main_root = Some sStats
    ∧ files s' !! c_str "report.html"
      = Some (("<!DOCTYPE html>" +:+ LF +:+ "<html>" +:+ LF
               +:+ "    <head>" +:+ LF
               +:+ "        <title>Unit Test Report</title>" +:+ LF
               +:+ "    </head>" +:+ LF
               +:+ "    <body>" +:+ LF
               +:+ "        <h1>Unit Test Report &ndash; " +:+ c_str (root_pszName main_root)
               +:+ "</h1><hr/>"
               +:+ "        <p><b>Framework Version:</b> CuTest " +:+ CUTEST_VERSION
               +:+ "<br/>"
               +:+ "           <b>Test run completed at:</b> " +:+ acTimestampBuffer s'
               +:+ "</p>" +:+ LF)
              +:+ tables
              +:+ "        <hr/><p>" +:+ fmt_ld (ulTotal sStats) +:+ " runs, "
              +:+ fmt_ld (ulPassed sStats) +:+ " passes, "
              +:+ fmt_ld (ulFailed sStats) +:+ " fails" +:+ LF +:+ "</p>"
              +:+ "    </body>" +:+ LF +:+ "</html>").
Proof.
  apply (X18_report_content (λ _, Some "2023-04-26T12:00:00+0000") main_root 0
           "report.html" main_after_run).
  - vm_compute. set_solver.
  - vm_compute. reflexivity.
Defined.

(** ** The rows of the report *)

Lemma appended_nil f s : is_Some (files s !! f) → appended f "" s = s.
Proof.
  intros [content Hf]. unfold appended. rewrite Hf. cbn [default].
  rewrite append_nil_r, insert_id by done. by destruct s.
Qed.

Lemma appended_appended f a b s :
  appended f b (appended f a s) = appended f (a +:+ b) s.
Proof.
  unfold appended. cbn [files set_files]. rewrite lookup_insert_eq.
  cbn [default from_option id].
  rewrite insert_insert_eq, append_assoc. done.
Qed.

Lemma appended_is_Some f out s : is_Some (files (appended f out s) !! f).
Proof. unfold appended. cbn [files set_files]. rewrite lookup_insert_eq. by eexists. Qed.

Lemma writes_ext f l out out' (m m' : Z → M Z) :
  (∀ n s, m' n s = m n s) →
  (∀ h n, all_allocated h l → out' h n = out h n) →
  writes f l out m → writes f l out' m'.
Proof. intros Hm Hout H n s ? ? ? ?. rewrite Hm, Hout by done. by apply H. Qed.

Lemma writes_nil f : writes f [] (λ _ _, "") (λ n, mret n).
Proof.
  intros n s Hf _ _ _. cbn [length]. by rewrite Z.add_0_r, appended_nil.
Qed.

Lemma writes_markup f markup l out (m : Z → M Z) :
  writes f l out m →
  writes f l (λ h n, markup +:+ out h n) (λ n, fprintf f markup;; m n).
Proof.
  intros Hm n s Hf Hall Hn Hlen.
  erewrite bind_Ret; [|reflexivity]. fold (appended f markup s).
  rewrite (Hm n (appended f markup s)); [|apply appended_is_Some|done..].
  by rewrite appended_appended.
Qed.

Lemma writes_seq f l1 l2 out1 out2 (m1 m2 : Z → M Z) :
  writes f l1 out1 m1 → writes f l2 out2 m2 →
  writes f (l1 ++ l2)
    (λ h n, out1 h n +:+ out2 h (n + Z.of_nat (length l1))%Z) (λ n, m1 n ≫= m2).
Proof.
  intros H1 H2 n s Hf [Hall1 Hall2]%Forall_app Hn Hlen.
  rewrite length_app in *.
  erewrite bind_Ret; [|apply H1; [done..|lia]].
  rewrite H2; [|apply appended_is_Some|done|lia..].
  rewrite appended_appended. do 2 f_equal. lia.
Qed.

Lemma report_cases_cons h n p c l :
  h !! p = Some c →
  report_cases h n (p :: l) = report_row (n + 1) c +:+ report_cases h (n + 1) l.
Proof.
  intros Hp. unfold report_cases. cbn [omap list_omap]. rewrite Hp.
  rewrite imap_cons, concat_cons. f_equal; [f_equal; lia|]. f_equal.
  apply imap_ext. intros k x _. cbn. f_equal. lia.
Qed.

Lemma CuTestGenerateReport_CaseLine_row f n p s c :
  cases s !! p = Some c →
  CuTestGenerateReport_CaseLine f n p s
  = (Ret (ul_add n 1), appended f (report_row (ul_add n 1) c) s).
Proof.
  intros Hc. unfold CuTestGenerateReport_CaseLine, report_row.
  erewrite bind_Ret; [|by apply deref_Some].
  destruct (eResult c); cbn match; (erewrite bind_Ret; [|reflexivity]); reflexivity.
Qed.

Lemma CuTestGenerateReport_cases_writes f l :
  writes f l (λ h n, report_cases h n l)
    (λ n, iterM (CuTestGenerateReport_CaseLine f) n l).
Proof.
  induction l as [|p l IH]; intros n s Hf Hall Hn Hlen.
  - cbn [iterM length]. change (report_cases (cases s) n []) with "".
    by rewrite Z.add_0_r, appended_nil.
  - apply Forall_cons in Hall as [[c Hc] Hall]. cbn [length] in *. cbn [iterM].
    assert (ul_add n 1 = n + 1)%Z as Hadd by (unfold ul_add; apply ulong_small; lia).
    erewrite bind_Ret; [|by apply CuTestGenerateReport_CaseLine_row].
    rewrite Hadd.
    rewrite (IH (n + 1)%Z); [|apply appended_is_Some|done|lia..].
    rewrite appended_appended.
    change (cases (appended f (report_row (n + 1) c) s)) with (cases s).
    rewrite <- (report_cases_cons _ _ _ _ _ Hc). do 2 f_equal. lia.
Qed.

Lemma CuTestGenerateReport_Footer_writes f :
  writes f [] (λ _ _, "</table>" +:+ "")
    (λ n, CuTestGenerateReport_CaseFooter f;; mret n).
Proof. apply (writes_markup f "</table>" [] (λ _ _, "") (λ n, mret n)), writes_nil. Qed.

Lemma CuTestGenerateReport_Group_writes f g :
  writes f (group_cases g) (λ h n, report_group h n g)
    (λ n, CuTestGenerateReport_Group f n g).
Proof.
  rewrite <- (app_nil_r (group_cases g)) at 1.
  eapply writes_ext; [intros n s; apply CuTestGenerateReport_Group_occupied| |].
  2: { apply writes_markup, (writes_markup f).
       apply (writes_seq f (group_cases g) []
                (λ h n, report_cases h n (group_cases g)) (λ _ _, "</table>" +:+ "")
                (λ n, iterM (CuTestGenerateReport_CaseLine f) n
                        (occupied CUTEST_MAX_NUM_CASES (group_ppItems g)))
                (λ n, CuTestGenerateReport_CaseFooter f;; mret n)).
       - apply CuTestGenerateReport_cases_writes.
       - apply CuTestGenerateReport_Footer_writes. }
  intros h n _. cbn beta. unfold report_group, report_table_head.
  by rewrite append_nil_r.
Qed.

Lemma CuTestGenerateReport_groups_writes f gs :
  writes f (gs ≫= group_cases) (λ h n, report_groups h n gs)
    (λ n, iterM (CuTestGenerateReport_Group f) n gs).
Proof.
  induction gs as [|g gs IH]; [apply writes_nil|].
  rewrite bind_cons. cbn [iterM].
  apply (writes_seq f (group_cases g) (gs ≫= group_cases)
           (λ h n, report_group h n g) (λ h n, report_groups h n gs)
           (λ n, CuTestGenerateReport_Group f n g)
           (λ n, iterM (CuTestGenerateReport_Group f) n gs));
    [apply CuTestGenerateReport_Group_writes|apply IH].
Qed.

Lemma CuTestGenerateReport_Module_writes f m :
  writes f (module_cases m) (λ h n, report_module h n m)
    (λ n, CuTestGenerateReport_Module f n m).
Proof.
  eapply writes_ext;
    [intros n s; apply CuTestGenerateReport_Module_occupied|reflexivity|].
  apply writes_markup. apply CuTestGenerateReport_groups_writes.
Qed.

(** X19: the tables of the report, exactly.  For a root inside the asserted
    contract whose registered elements are not NULL and whose case pointers
    designate case objects, a path that can be opened and a time that can be
    rendered, [CuTest_GenerateRunReport] returns, and the report file then
    holds the document head, the tables and the totals of the aggregator.
    The tables are, for each registered element in the order of
    registration, its titles and table markup around the row texts of its
    cases, each case in the order in which the aggregator counts it getting
    the row text that [report_row] formats under its number: the numbers
    start at 1 and go on through all cases, groups and modules up to the
    total.  (Names and messages are written as they are, not escaped.) *)
Theorem X19_report_rows (strftime_FTz : Z → option string) (psRoot : cutest_root_t)
    (pTime : Z) (pszFile text : string) (s : machine) :
  (ulCount psRoot < CUTEST_MAX_NUM_ROOT_ITEM)%nat →
  (ulCount psRoot ≤ length (asItems psRoot))%nat →
  Forall (λ e, pItem_set e = true) (take (ulCount psRoot) (asItems psRoot)) →
  all_allocated (cases s) (root_cases psRoot) →
  c_str pszFile ∉ unwritable s →
  strftime_FTz pTime = Some text →
  ∃ s' sStats,
    CuTest_GenerateRunReport strftime_FTz psRoot pTime pszFile s = (Ret tt, s')
    ∧ CuTestGetStats (cases s) psRoot = Some sStats
    ∧ files s' !! c_str pszFile
      = Some (report_head (root_pszName psRoot) (acTimestampBuffer s')
              +:+ report_tables (cases s) 0 (take (ulCount psRoot) (asItems psRoot))
              +:+ report_foot sStats)
    ∧ ulTotal sStats = Z.of_nat (length (root_cases psRoot)).
Proof.
  intros Hlt Hle Hset Hall Hw Htime.
  pose proof (root_cases_small psRoot Hlt) as Hsmall.
  destruct (stats_list_total _ _ stats_zero Hall) as [sStats Hstats].
  pose proof Hstats as (Htotal & _)%stats_list_exact; [|done].
  assert (CuTestGetStats (cases s) psRoot = Some sStats) as Hget.
  { by rewrite CuTestGetStats_list, decide_True. }
  set (f := c_str pszFile).
  set (buffer := if decide (String.length text < CUTEST_TIMESTAMP_MAX_LEN + 1)%nat
                 then text else "").
  set (s1 := set_acTimestampBuffer buffer (set_files (<[f := ""]> (files s)) s)).
  set (head := report_head (root_pszName psRoot) buffer).
  set (W := λ (n : Z) (e : cutest_relem_t),
              match e with
              | RCase (Some p) =>
                  CuTestGenerateReport_CaseHeader f;;
                  n' ← CuTestGenerateReport_CaseLine f n p;
                  CuTestGenerateReport_CaseFooter f;;
                  mret n'
              | RGroup (Some g) => CuTestGenerateReport_Group f n g
              | RModule (Some m) => CuTestGenerateReport_Module f n m
              | _ => abort
              end).
  assert (∀ e, pItem_set e = true →
               writes f (relem_cases e) (λ h n, report_relem h n e) (λ n, W n e))
    as Helem.
  { intros [[p|]|[g|]|[m|]] He; try done; cbn [W relem_cases].
    - change [p] with ([p] ++ [])%list at 1.
      eapply writes_ext; [reflexivity| |].
      2: { apply (writes_markup f).
           apply (writes_seq f [p] [] (λ h n, report_cases h n [p])
                    (λ _ _, "</table>" +:+ "")
                    (λ n, CuTestGenerateReport_CaseLine f n p)
                    (λ n, CuTestGenerateReport_CaseFooter f;; mret n)).
           - eapply writes_ext;
               [|reflexivity|apply (CuTestGenerateReport_cases_writes f [p])].
             intros n s0. cbn [iterM]. unfold mbind, M_bind.
             by destruct (CuTestGenerateReport_CaseLine f n p s0) as [[?| |] ?].
           - apply CuTestGenerateReport_Footer_writes. }
      intros h n _. cbn beta. unfold report_relem, report_table_head.
      by rewrite append_nil_r.
    - apply CuTestGenerateReport_Group_writes.
    - apply CuTestGenerateReport_Module_writes. }
  assert (∀ es, Forall (λ e, pItem_set e = true) es →
                writes f (es ≫= relem_cases) (λ h n, report_tables h n es)
                  (λ n, iterM W n es)) as Hlist.
  { induction 1 as [|e es He _ IH]; [apply writes_nil|].
    rewrite bind_cons. cbn [iterM].
    apply (writes_seq f (relem_cases e) (es ≫= relem_cases)
             (λ h n, report_relem h n e) (λ h n, report_tables h n es)
             (λ n, W n e) (λ n, iterM W n es)); [by apply Helem|apply IH]. }
  pose proof (Hlist _ Hset 0%Z (appended f head s1)) as Hrun.
  fold (root_cases psRoot) in Hrun.
  change (cases (appended f head s1)) with (cases s) in Hrun.
  exists (appended f (report_foot sStats)
            (appended f (report_tables (cases s) 0
                           (take (ulCount psRoot) (asItems psRoot)))
               (appended f head s1))), sStats.
  split; [|split; [done|split; [|by rewrite Htotal]]].
  - unfold CuTest_GenerateRunReport.
    erewrite bind_Ret; [|unfold assert; by rewrite bool_decide_eq_true_2].
    erewrite bind_Ret; [|unfold fopen_w; by rewrite decide_False]. cbn match.
    erewrite (bind_Ret _ _ _ buffer s1);
      [|unfold CuTestGetTimestampString; by rewrite Htime].
    erewrite (bind_Ret _ _ s1 tt (appended f head s1)); [|reflexivity].
    erewrite (bind_Ret _ _ (appended f head s1)).
    2: { rewrite (for_loop_array (asItems psRoot) W).
         - rewrite drop_0. apply Hrun; [apply appended_is_Some|done|lia..].
         - intros j e Hj Hr n s0. unfold root_item at 1.
           erewrite bind_Ret; [|by rewrite Hj].
           assert (pItem_set e = true) as He.
           { eapply Forall_forall in Hset; [done|].
             apply list_elem_of_lookup. exists j. rewrite lookup_take_lt by lia. done. }
           destruct e as [[p|]|[g|]|[m|]]; cbn [W]; try done.
           unfold mbind, M_bind. fold f.
           destruct (CuTestGenerateReport_CaseHeader f s0) as [[[]| |] ?]; [|done..].
           destruct (CuTestGenerateReport_CaseLine f n p _) as [[?| |] ?]; [|done..].
           by destruct (CuTestGenerateReport_CaseFooter f _) as [[[]| |] ?].
         - lia. }
    erewrite bind_Ret;
      [|unfold read_cases, appended, s1; cbn [cases set_files set_acTimestampBuffer];
        by rewrite Hget].
    erewrite bind_Ret; [|reflexivity]. reflexivity.
  - rewrite !appended_appended. unfold appended. cbn [files set_files].
    rewrite lookup_insert_eq. unfold s1.
    cbn [files acTimestampBuffer set_files set_acTimestampBuffer].
    rewrite lookup_insert_eq. done.
Qed.

Lemma X19_witness :
  ∃ s' sStats,
    CuTest_GenerateRunReport (λ _, Some "2023-04-26T12:00:00+0000") main_root 0
      "report.html" main_after_run = (Ret tt, s')
    ∧ CuTestGetStats (cases main_after_run) main_root = Some sStats
    ∧ files s' !! c_str "report.html"
      = Some (report_head (root_pszName main_root) (acTimestampBuffer s')
              +:+ report_tables (cases main_after_run) 0
                    (take (ulCount main_root) (asItems main_root))
              +:+ report_foot sStats)
    ∧ ulTotal sStats = Z.of_nat (length (root_cases main_root)).
Proof.
  apply (X19_report_rows (λ _, Some "2023-04-26T12:00:00+0000") main_root 0
           "report.html" "2023-04-26T12:00:00+0000" main_after_run).
  - vm_compute. lia.
  - vm_compute. lia.
  - repeat constructor.
  - repeat constructor; by eexists.
  - vm_compute. set_solver.
  - reflexivity.
Defined.
